(** * vispy/visuals/image.py: texture scaling, colour pipeline and the
      lazy rebuild schedule of [ImageVisual]

    A shallow embedding of [ScalableTexture2D] and [ImageVisual].  Python
    objects become records, attribute assignment becomes state passing in
    a state-and-exception monad (the state survives a [raise], as the
    attributes of a Python object do), NumPy arrays live in a heap of
    array objects so that aliasing with the caller's array is visible,
    and float arithmetic is IEEE 754 as specified by [SpecFloat]. *)

From Stdlib Require Import ZArith String Ascii List Lia Bool.
From Stdlib Require Import Floats.SpecFloat.
From stdpp Require Import base list option.
Import ListNotations.

Local Open Scope Z_scope.
Local Open Scope string_scope.

(** ** Exceptions, warnings and the monad *)

Inductive exn : Type :=
| ValueError (msg : string)
| TypeError (msg : string)
| IndexError (msg : string)
| AttributeError (msg : string)
| KeyError (msg : string)
| ZeroDivisionError.

Inductive res (A : Type) : Type :=
| Ok (a : A)
| Raise (e : exn).
Arguments Ok {A} a.
Arguments Raise {A} e.

(** A computation reads and writes a state [S]; when it raises, the
    state reached so far is kept. *)
Definition M (S A : Type) : Type := S -> res A * S.

#[global] Instance M_ret {S} : MRet (M S) := fun A a s => (Ok a, s).
#[global] Instance M_bind {S} : MBind (M S) := fun A B f c s =>
  match c s with
  | (Ok a, s') => f a s'
  | (Raise e, s') => (Raise e, s')
  end.

Definition raise {S A} (e : exn) : M S A := fun s => (Raise e, s).
Definition get {S} : M S S := fun s => (Ok s, s).
Definition gets {S A} (f : S -> A) : M S A := fun s => (Ok (f s), s).
Definition modify {S} (f : S -> S) : M S unit := fun s => (Ok tt, f s).
Definition lift_res {S A} (r : res A) : M S A := fun s => (r, s).

(** Run a computation of an inner state inside an outer one. *)
Definition zoom {S T A} (proj : S -> T) (upd : T -> S -> S) (c : M T A) : M S A :=
  fun s => let '(r, t) := c (proj s) in (r, upd t s).

Definition when {S} (b : bool) (c : M S unit) : M S unit :=
  if b then c else mret tt.

(** ** NumPy element types *)

Inductive dtype : Type :=
| float16 | float32 | float64
| int8 | int16 | int32 | int64
| uint8 | uint16 | uint32 | uint64.

#[global] Instance dtype_eq_dec : EqDecision dtype.
Proof. solve_decision. Defined.

Definition itemsize (d : dtype) : Z :=
  match d with
  | int8 | uint8 => 1
  | float16 | int16 | uint16 => 2
  | float32 | int32 | uint32 => 4
  | float64 | int64 | uint64 => 8
  end.

(** [np.issubdtype(d, np.floating)] *)
Definition is_floating (d : dtype) : bool :=
  match d with
  | float16 | float32 | float64 => true
  | _ => false
  end.

Definition dtype_name (d : dtype) : string :=
  match d with
  | float16 => "float16" | float32 => "float32" | float64 => "float64"
  | int8 => "int8" | int16 => "int16" | int32 => "int32" | int64 => "int64"
  | uint8 => "uint8" | uint16 => "uint16" | uint32 => "uint32"
  | uint64 => "uint64"
  end.

(** [str(np.float32)] and the like, as formatted into error messages. *)
Definition dtype_str (d : dtype) : string :=
  "<class 'numpy." ++ dtype_name d ++ "'>".

(** [np.iinfo(d)]: the integer range of [d]; a [ValueError] for a
    floating type. *)
Definition iinfo (d : dtype) : res (Z * Z) :=
  match d with
  | int8 => Ok (-128, 127)
  | int16 => Ok (-32768, 32767)
  | int32 => Ok (-2147483648, 2147483647)
  | int64 => Ok (-9223372036854775808, 9223372036854775807)
  | uint8 => Ok (0, 255)
  | uint16 => Ok (0, 65535)
  | uint32 => Ok (0, 4294967295)
  | uint64 => Ok (0, 18446744073709551615)
  | float16 | float32 | float64 =>
      Raise (ValueError ("Invalid integer data type 'f'."))
  end.

(** ** Arithmetic

    The code computes with NumPy scalars and arrays.  [fmt] names the
    binary format an operation rounds to; the operations are collected in
    a class, and the program is read with its instance [ieee]: IEEE 754
    arithmetic as specified by [SpecFloat]. *)

Inductive fmt : Type := B32 | B64.

Definition fmt_prec (f : fmt) : Z := match f with B32 => 24 | B64 => 53 end.
Definition fmt_emax (f : fmt) : Z := match f with B32 => 128 | B64 => 1024 end.

Class Arith (V : Type) : Type := {
  a_of_Z : fmt -> Z -> V;            (* an integer operand converted *)
  a_cast : fmt -> V -> V;            (* astype, np.float32(x), float(x) *)
  a_add : fmt -> V -> V -> V;
  a_sub : fmt -> V -> V -> V;
  a_mul : fmt -> V -> V -> V;
  a_div : fmt -> V -> V -> res V;    (* scalar [/] *)
  a_ltb : V -> V -> bool;
  a_leb : V -> V -> bool;
  a_eqb : V -> V -> bool;
  a_minimum : V -> V -> V;           (* np.minimum *)
  a_maximum : V -> V -> V;           (* np.maximum *)
}.

(** *** IEEE 754 instance *)

Definition is_nan (x : spec_float) : bool :=
  match x with S754_nan => true | _ => false end.


Definition SF_of_Z (f : fmt) (z : Z) : spec_float :=
  binary_normalize (fmt_prec f) (fmt_emax f) z 0 false.

Definition SF_cast (f : fmt) (x : spec_float) : spec_float :=
  match x with
  | S754_finite s m e => binary_round (fmt_prec f) (fmt_emax f) s m e
  | _ => x
  end.

(** NaN-propagating minimum and maximum of NumPy. *)
Definition SF_minimum (x y : spec_float) : spec_float :=
  if is_nan x then x else if is_nan y then y
  else if SFleb x y then x else y.

Definition SF_maximum (x y : spec_float) : spec_float :=
  if is_nan x then x else if is_nan y then y
  else if SFleb y x then x else y.

(** NumPy scalars never raise on division: a zero divisor yields an
    infinity or NaN (and a [RuntimeWarning], which [warnings] does not
    collect).  Every number of the embedding stands for a NumPy scalar
    or sample, as the limits of a single-band upload are; the plain
    Python numbers the source keeps as limits of a multi-band raster,
    which raise [ZeroDivisionError] on a zero divisor, are not
    distinguished from them. *)
#[global] Instance ieee : Arith spec_float := {
  a_of_Z := SF_of_Z;
  a_cast := SF_cast;
  a_add f := SFadd (fmt_prec f) (fmt_emax f);
  a_sub f := SFsub (fmt_prec f) (fmt_emax f);
  a_mul f := SFmul (fmt_prec f) (fmt_emax f);
  a_div f x y := Ok (SFdiv (fmt_prec f) (fmt_emax f) x y);
  a_ltb := SFltb;
  a_leb := SFleb;
  a_eqb := SFeqb;
  a_minimum := SF_minimum;
  a_maximum := SF_maximum;
}.

(** ** NumPy arrays *)

Inductive buffer (V : Type) : Type :=
| IntBuf (l : list Z)       (* integer element types *)
| FloatBuf (l : list V).    (* floating element types *)
Arguments IntBuf {V} l.
Arguments FloatBuf {V} l.

(** An array object: element type, shape and the samples in row-major
    order. *)
Record ndarray (V : Type) : Type := {
  nd_dtype : dtype;
  nd_shape : list nat;
  nd_buf : buffer V;
}.
Arguments nd_dtype {V} _.
Arguments nd_shape {V} _.
Arguments nd_buf {V} _.

Definition buf_length {V} (b : buffer V) : nat :=
  match b with IntBuf l => length l | FloatBuf l => length l end.

Definition ndim {V} (a : ndarray V) : nat := length (nd_shape a).

Definition shape_size (sh : list nat) : nat := fold_right Nat.mul 1%nat sh.

(** Shape and buffer agree, and the buffer kind matches the element type. *)
Definition wf_array {V} (a : ndarray V) : Prop :=
  buf_length (nd_buf a) = shape_size (nd_shape a) /\
  match nd_buf a with
  | IntBuf _ => is_floating (nd_dtype a) = false
  | FloatBuf _ => is_floating (nd_dtype a) = true
  end.

(** A scalar read out of an array. *)
Inductive scalar (V : Type) : Type :=
| SInt (z : Z)
| SFloat (v : V).
Arguments SInt {V} z.
Arguments SFloat {V} v.

Fixpoint mapM_res {A B} (f : A -> res B) (l : list A) : res (list B) :=
  match l with
  | [] => Ok []
  | x :: l' =>
      match f x with
      | Raise e => Raise e
      | Ok y =>
          match mapM_res f l' with
          | Raise e => Raise e
          | Ok ys => Ok (y :: ys)
          end
      end
  end.

Section Arrays.
Context {V : Type} `{Arith V}.

Definition dtype_fmt (d : dtype) : option fmt :=
  match d with float32 => Some B32 | float64 => Some B64 | _ => None end.

Definition fmt_dtype (f : fmt) : dtype :=
  match f with B32 => float32 | B64 => float64 end.

(** [np.result_type(d, np.float32)]: the element type of an array of
    [d] combined with a float32 scalar. *)
Definition result_type_f32 (d : dtype) : fmt :=
  match d with
  | float16 | float32 | int8 | uint8 | int16 | uint16 => B32
  | float64 | int32 | uint32 | int64 | uint64 => B64
  end.

(** The samples of [a] converted to format [f]; samples already in that
    format are not touched. *)
Definition samples_as (f : fmt) (a : ndarray V) : list V :=
  match nd_buf a with
  | IntBuf l => map (a_of_Z f) l
  | FloatBuf l =>
      if decide (nd_dtype a = fmt_dtype f) then l else map (a_cast f) l
  end.

(** A float32 scalar taking part in an operation of format [f]. *)
Definition promote_f32 (f : fmt) (c : V) : V :=
  match f with B32 => c | B64 => a_cast B64 c end.

(** [data.astype(np.float32)]: always a new array. *)
Definition astype_float32 (a : ndarray V) : ndarray V :=
  {| nd_dtype := float32; nd_shape := nd_shape a;
     nd_buf := FloatBuf (samples_as B32 a) |}.

(** [data - c] for a float32 scalar [c]: a new array. *)
Definition sub_scalar (a : ndarray V) (c : V) : ndarray V :=
  let f := result_type_f32 (nd_dtype a) in
  {| nd_dtype := fmt_dtype f; nd_shape := nd_shape a;
     nd_buf := FloatBuf (map (fun x => a_sub f x (promote_f32 f c))
                             (samples_as f a)) |}.

(** [data /= c] for a float32 scalar [c]: the new contents of [data].
    NumPy refuses to store a true division into an integer array. *)
Definition idiv_scalar (a : ndarray V) (c : V) : res (ndarray V) :=
  match nd_buf a, dtype_fmt (nd_dtype a) with
  | FloatBuf l, Some f =>
      match mapM_res (fun x => a_div f x (promote_f32 f c)) l with
      | Ok l' => Ok {| nd_dtype := nd_dtype a; nd_shape := nd_shape a;
                       nd_buf := FloatBuf l' |}
      | Raise e => Raise e
      end
  | _, _ => Raise (TypeError "Cannot cast ufunc 'true_divide' output")
  end.

(** [data[:] = k] for a Python integer [k]: the new contents of [data]. *)
Definition fill (a : ndarray V) (k : Z) : ndarray V :=
  {| nd_dtype := nd_dtype a; nd_shape := nd_shape a;
     nd_buf := match nd_buf a with
               | IntBuf l => IntBuf (map (fun _ => k) l)
               | FloatBuf l =>
                   let f := default B64 (dtype_fmt (nd_dtype a)) in
                   FloatBuf (map (fun _ => a_of_Z f k) l)
               end |}.

(** The truth value of [data[0, 0] != 0].  Indexing needs two axes of
    positive length; the comparison has a truth value only when
    [data[0, 0]] holds a single sample. *)
Definition corner_nonzero (a : ndarray V) : res bool :=
  match nd_shape a with
  | r :: c :: rest =>
      if ((r =? 0) || (c =? 0))%nat
      then Raise (IndexError "index 0 is out of bounds")
      else if (shape_size rest =? 1)%nat then
        match nd_buf a with
        | IntBuf (x :: _) => Ok (negb (x =? 0)%Z)
        | FloatBuf (x :: _) => Ok (negb (a_eqb x (a_of_Z B32 0)))
        | _ => Raise (IndexError "index 0 is out of bounds")
        end
      else Raise (ValueError "The truth value of an array with more than one element is ambiguous")
  | _ => Raise (IndexError "too many indices for array")
  end.

Definition no_identity (op : string) : exn :=
  ValueError ("zero-size array to reduction operation " ++ op ++
              " which has no identity").

(** [np.min(data)], [np.max(data)] *)
Definition np_min (a : ndarray V) : res (scalar V) :=
  match nd_buf a with
  | IntBuf (x :: l) => Ok (SInt (fold_left Z.min l x))
  | FloatBuf (x :: l) => Ok (SFloat (fold_left a_minimum l x))
  | _ => Raise (no_identity "minimum")
  end.

Definition np_max (a : ndarray V) : res (scalar V) :=
  match nd_buf a with
  | IntBuf (x :: l) => Ok (SInt (fold_left Z.max l x))
  | FloatBuf (x :: l) => Ok (SFloat (fold_left a_maximum l x))
  | _ => Raise (no_identity "maximum")
  end.

(** [np.float32(x)] *)
Definition np_float32 (x : scalar V) : V :=
  match x with
  | SInt z => a_of_Z B32 z
  | SFloat v => a_cast B32 v
  end.

(** [np.zeros(shape)]: float64 zeros. *)
Definition np_zeros (sh : list nat) : ndarray V :=
  {| nd_dtype := float64; nd_shape := sh;
     nd_buf := FloatBuf (replicate (shape_size sh) (a_of_Z B64 0)) |}.

End Arrays.

(** ** Python strings *)

(** The double-quote character, for messages that quote a word. *)
Definition dq : string := String "034"%char EmptyString.

(** [s.replace(c, rep)] for a one-character pattern [c]. *)
Fixpoint str_replace (c : ascii) (rep s : string) : string :=
  match s with
  | EmptyString => EmptyString
  | String x s' =>
      if Ascii.eqb x c then rep ++ str_replace c rep s'
      else String x (str_replace c rep s')
  end.

(** [s[:n]] *)
Fixpoint str_take (n : nat) (s : string) : string :=
  match n, s with
  | S n', String x s' => String x (str_take n' s')
  | _, _ => EmptyString
  end.

(** [s[-1]] *)
Fixpoint str_last (s : string) : option ascii :=
  match s with
  | EmptyString => None
  | String x EmptyString => Some x
  | String _ s' => str_last s'
  end.

(** [sep.join(l)] *)
Definition str_join (sep : string) (l : list string) : string :=
  String.concat sep l.

(** The characters of a string as one-character strings, as iterating
    or indexing a [str] yields them. *)
Fixpoint str_chars (s : string) : list string :=
  match s with
  | EmptyString => []
  | String x s' => String x EmptyString :: str_chars s'
  end.

(** ** Objects *)

Definition loc : Type := nat.

(** A value bound to a colour limit: a number, or a piece of text when
    a [str] has been indexed in its place. *)
Inductive pyval (V : Type) : Type :=
| PyNum (v : V)
| PyStr (s : string).
Arguments PyNum {V} v.
Arguments PyStr {V} s.

(** What a caller may pass as [clim]. *)
Inductive clim_arg (V : Type) : Type :=
| ArgStr (s : string)
| ArgSeq (l : list V)        (* tuple or list of numbers *)
| ArgScalar (v : V)          (* a bare number: not iterable *)
| ArgNone.
Arguments ArgStr {V} s.
Arguments ArgSeq {V} l.
Arguments ArgScalar {V} v.
Arguments ArgNone {V}.

(** What [_clim] holds: ['auto'] or a pair ([None] is the [option]). *)
Inductive clim_t (V : Type) : Type :=
| ClimAuto
| ClimPair (cmin cmax : V).
Arguments ClimAuto {V}.
Arguments ClimPair {V} cmin cmax.

(** A texture-format request: a format string or a scalar type such as
    [np.float32], the kind of object the format table is keyed by
    ([None] is the [option]). *)
Inductive format_arg : Type :=
| FmtStr (s : string)
| FmtType (d : dtype).

Record texture (V : Type) : Type := {
  _allow_reformat : bool;
  _auto_texture_format : bool;
  _clim : option (clim_t V);
  _data_dtype : option dtype;
  _data_limits : option (V * V);
  _scale_texture_gpu : bool;
  (* kept by the base class [Texture2D] *)
  internalformat : option string;
  tex_interpolation : string;
  uploaded : option (ndarray V);
}.
Arguments _allow_reformat {V} _.
Arguments _auto_texture_format {V} _.
Arguments _clim {V} _.
Arguments _data_dtype {V} _.
Arguments _data_limits {V} _.
Arguments _scale_texture_gpu {V} _.
Arguments internalformat {V} _.
Arguments tex_interpolation {V} _.
Arguments uploaded {V} _.

(** The attributes of a texture object before [__init__] has run. *)
Definition blank_texture {V} : texture V :=
  {| _allow_reformat := false; _auto_texture_format := false;
     _clim := None; _data_dtype := None; _data_limits := None;
     _scale_texture_gpu := false; internalformat := None;
     tex_interpolation := "nearest"; uploaded := None |}.

(** *** Shader functions *)

Record colormap : Type := {
  cmap_name : string;
  cmap_has_lut : bool;     (* [hasattr(cmap, 'texture_lut')] *)
}.

(** The GLSL sources the module defines, by name. *)
Inductive glsl : Type :=
| _interpolation_template (n : string)
| _texture_lookup
| _apply_clim_float
| _apply_clim
| _apply_gamma_float
| _apply_gamma
| _null_color_transform
| _c2l
| glsl_map (c : colormap).

Inductive slot (V : Type) : Type :=
| SlotClim (lo hi : pyval V)
| SlotGamma (g : V)
| SlotShape (sh : list nat)
| SlotTexture.
Arguments SlotClim {V} lo hi.
Arguments SlotGamma {V} g.
Arguments SlotShape {V} sh.
Arguments SlotTexture {V}.

(** A [Function] object: its source and the values bound to its
    template variables. *)
Record Function (V : Type) : Type := {
  fn_source : glsl;
  fn_slots : list (string * slot V);
}.
Arguments fn_source {V} _.
Arguments fn_slots {V} _.

Definition mkFunction {V} (g : glsl) : Function V :=
  {| fn_source := g; fn_slots := [] |}.

Fixpoint assoc_set {A} (k : string) (v : A) (l : list (string * A))
  : list (string * A) :=
  match l with
  | [] => [(k, v)]
  | (k', v') :: l' =>
      if String.eqb k k' then (k, v) :: l' else (k', v') :: assoc_set k v l'
  end.

Fixpoint assoc_get {A} (k : string) (l : list (string * A)) : option A :=
  match l with
  | [] => None
  | (k', v') :: l' => if String.eqb k k' then Some v' else assoc_get k l'
  end.

(** [fn[name] = value] *)
Definition fn_setitem {V} (name : string) (v : slot V) (f : Function V)
  : Function V :=
  {| fn_source := fn_source f; fn_slots := assoc_set name v (fn_slots f) |}.

(** A [FunctionChain]: the functions applied in order. *)
Definition FunctionChain (V : Type) : Type := list (Function V).

(** *** Transforms *)

Inductive transform : Type :=
| NullTransform
| Transform (name : string) (linear : bool)
| Inverse (t : transform).

Fixpoint Linear (t : transform) : bool :=
  match t with
  | NullTransform => true
  | Transform _ l => l
  | Inverse t' => Linear t'
  end.

Definition inverse (t : transform) : transform := Inverse t.

(** *** The visual, its views and the world *)

(** The vertex buffers a view's program may be pointed at. *)
Inductive vbuf : Type :=
| BufSubdivPosition
| BufSubdivTexcoord
| BufImpostorCoords.

(** Contents of the two subdivision buffers, described by what they
    were computed from: texture coordinates of a [grid] of quads, and
    for the positions those coordinates scaled by [size]. *)
Inductive vertex_data : Type :=
| TexCoords (grid : nat * nat)
| Vertices (grid : nat * nat) (size : list nat).

Record view : Type := {
  _need_method_update : bool;
  _method_used : option string;
  get_transform : transform;            (* [view.transforms.get_transform()] *)
  prg_method : option Z;                (* [view_program['method']] *)
  prg_a_position : option vbuf;
  prg_a_texcoord : option vbuf;
  prg_vert_transform : option transform;
  prg_frag_transform : option transform;
  prg_texture2D_LUT : option (option string);
}.

Record visual (V : Type) : Type := {
  _data : option loc;
  _gamma : V;
  _interpolation_names : list string;
  _interpolation_fun : list (string * Function V);
  _interpolation : string;
  _method : string;
  _grid : nat * nat;
  _need_texture_upload : bool;
  _need_vertex_update : bool;
  _need_colortransform_update : bool;
  _need_interpolation_update : bool;
  _subdiv_position : option vertex_data;
  _subdiv_texcoord : option vertex_data;
  _cmap : option colormap;
  _data_lookup_fn : option string;      (* key of the function object *)
  (* the shared program *)
  frag_get_data : option string;
  frag_color_transform : option (FunctionChain V);
  prog_u_kernel : bool;
  prog_image_size : option (list nat);
  update_requests : nat;                (* calls of [self.update()] *)
}.
Arguments _data {V} _.
Arguments _gamma {V} _.
Arguments _interpolation_names {V} _.
Arguments _interpolation_fun {V} _.
Arguments _interpolation {V} _.
Arguments _method {V} _.
Arguments _grid {V} _.
Arguments _need_texture_upload {V} _.
Arguments _need_vertex_update {V} _.
Arguments _need_colortransform_update {V} _.
Arguments _need_interpolation_update {V} _.
Arguments _subdiv_position {V} _.
Arguments _subdiv_texcoord {V} _.
Arguments _cmap {V} _.
Arguments _data_lookup_fn {V} _.
Arguments frag_get_data {V} _.
Arguments frag_color_transform {V} _.
Arguments prog_u_kernel {V} _.
Arguments prog_image_size {V} _.
Arguments update_requests {V} _.

(** The rebuild steps of a draw, logged as they start. *)
Inductive event : Type :=
| EvInterpolation
| EvTexture
| EvColorTransform
| EvVertex
| EvMethod (v : nat).

#[global] Instance event_eq_dec : EqDecision event.
Proof. solve_decision. Defined.

(** The state of the program: the array objects, the messages passed to
    [warnings.warn] by image.py itself (the [RuntimeWarning]s NumPy
    issues on its own for 0/0, x/0 and overflow are not collected), the
    log of rebuild steps, and the objects of this module. *)
Record world (V : Type) : Type := {
  heap : list (ndarray V);
  warnings : list string;
  trace : list event;
  tex : texture V;
  vis : visual V;
  views : list view;
}.
Arguments heap {V} _.
Arguments warnings {V} _.
Arguments trace {V} _.
Arguments tex {V} _.
Arguments vis {V} _.
Arguments views {V} _.

Section Updates.
Context {V : Type}.

Definition upd_heap (f : list (ndarray V) -> list (ndarray V)) (w : world V) :=
  {| heap := f (heap w); warnings := warnings w; trace := trace w;
     tex := tex w; vis := vis w; views := views w |}.
Definition upd_warnings (f : list string -> list string) (w : world V) :=
  {| heap := heap w; warnings := f (warnings w); trace := trace w;
     tex := tex w; vis := vis w; views := views w |}.
Definition upd_trace (f : list event -> list event) (w : world V) :=
  {| heap := heap w; warnings := warnings w; trace := f (trace w);
     tex := tex w; vis := vis w; views := views w |}.
Definition upd_tex (f : texture V -> texture V) (w : world V) :=
  {| heap := heap w; warnings := warnings w; trace := trace w;
     tex := f (tex w); vis := vis w; views := views w |}.
Definition upd_vis (f : visual V -> visual V) (w : world V) :=
  {| heap := heap w; warnings := warnings w; trace := trace w;
     tex := tex w; vis := f (vis w); views := views w |}.
Definition upd_views (f : list view -> list view) (w : world V) :=
  {| heap := heap w; warnings := warnings w; trace := trace w;
     tex := tex w; vis := vis w; views := f (views w) |}.

(** Attribute assignments on the texture. *)
Definition with__allow_reformat x (t : texture V) :=
  {| _allow_reformat := x; _auto_texture_format := _auto_texture_format t;
     _clim := _clim t; _data_dtype := _data_dtype t;
     _data_limits := _data_limits t;
     _scale_texture_gpu := _scale_texture_gpu t;
     internalformat := internalformat t;
     tex_interpolation := tex_interpolation t; uploaded := uploaded t |}.
Definition with__auto_texture_format x (t : texture V) :=
  {| _allow_reformat := _allow_reformat t; _auto_texture_format := x;
     _clim := _clim t; _data_dtype := _data_dtype t;
     _data_limits := _data_limits t;
     _scale_texture_gpu := _scale_texture_gpu t;
     internalformat := internalformat t;
     tex_interpolation := tex_interpolation t; uploaded := uploaded t |}.
Definition with__clim x (t : texture V) :=
  {| _allow_reformat := _allow_reformat t;
     _auto_texture_format := _auto_texture_format t;
     _clim := x; _data_dtype := _data_dtype t;
     _data_limits := _data_limits t;
     _scale_texture_gpu := _scale_texture_gpu t;
     internalformat := internalformat t;
     tex_interpolation := tex_interpolation t; uploaded := uploaded t |}.
Definition with__data_dtype x (t : texture V) :=
  {| _allow_reformat := _allow_reformat t;
     _auto_texture_format := _auto_texture_format t;
     _clim := _clim t; _data_dtype := x;
     _data_limits := _data_limits t;
     _scale_texture_gpu := _scale_texture_gpu t;
     internalformat := internalformat t;
     tex_interpolation := tex_interpolation t; uploaded := uploaded t |}.
Definition with__data_limits x (t : texture V) :=
  {| _allow_reformat := _allow_reformat t;
     _auto_texture_format := _auto_texture_format t;
     _clim := _clim t; _data_dtype := _data_dtype t;
     _data_limits := x;
     _scale_texture_gpu := _scale_texture_gpu t;
     internalformat := internalformat t;
     tex_interpolation := tex_interpolation t; uploaded := uploaded t |}.
Definition with__scale_texture_gpu x (t : texture V) :=
  {| _allow_reformat := _allow_reformat t;
     _auto_texture_format := _auto_texture_format t;
     _clim := _clim t; _data_dtype := _data_dtype t;
     _data_limits := _data_limits t;
     _scale_texture_gpu := x;
     internalformat := internalformat t;
     tex_interpolation := tex_interpolation t; uploaded := uploaded t |}.
Definition with_internalformat x (t : texture V) :=
  {| _allow_reformat := _allow_reformat t;
     _auto_texture_format := _auto_texture_format t;
     _clim := _clim t; _data_dtype := _data_dtype t;
     _data_limits := _data_limits t;
     _scale_texture_gpu := _scale_texture_gpu t;
     internalformat := x;
     tex_interpolation := tex_interpolation t; uploaded := uploaded t |}.
Definition with_tex_interpolation x (t : texture V) :=
  {| _allow_reformat := _allow_reformat t;
     _auto_texture_format := _auto_texture_format t;
     _clim := _clim t; _data_dtype := _data_dtype t;
     _data_limits := _data_limits t;
     _scale_texture_gpu := _scale_texture_gpu t;
     internalformat := internalformat t;
     tex_interpolation := x; uploaded := uploaded t |}.
Definition with_uploaded x (t : texture V) :=
  {| _allow_reformat := _allow_reformat t;
     _auto_texture_format := _auto_texture_format t;
     _clim := _clim t; _data_dtype := _data_dtype t;
     _data_limits := _data_limits t;
     _scale_texture_gpu := _scale_texture_gpu t;
     internalformat := internalformat t;
     tex_interpolation := tex_interpolation t; uploaded := x |}.

(** [self.attr = x] inside a texture method. *)
Definition tex_assign (f : texture V -> texture V) : M (world V) unit :=
  modify (upd_tex f).

(** [warnings.warn(msg)] *)
Definition warn (msg : string) : M (world V) unit :=
  modify (upd_warnings (fun l => (l ++ [msg])%list)).

Definition log (e : event) : M (world V) unit :=
  modify (upd_trace (fun l => (l ++ [e])%list)).

(** A new array object. *)
Definition alloc (a : ndarray V) : M (world V) loc :=
  fun w => (Ok (length (heap w)), upd_heap (fun h => (h ++ [a])%list) w).

Definition ReferenceError : exn := AttributeError "no such object".

(** The array object behind a reference. *)
Definition load (l : loc) : M (world V) (ndarray V) :=
  fun w => match heap w !! l with
           | Some a => (Ok a, w)
           | None => (Raise ReferenceError, w)
           end.

(** Overwrite the contents of an array object in place. *)
Definition store (l : loc) (a : ndarray V) : M (world V) unit :=
  modify (upd_heap (fun h => <[l := a]> h)).

End Updates.

(** ** Module-level helpers of image.py *)

Definition F64_PRECISION_WARNING : string :=
  "GPUs can't support floating point data with more than 32-bits, precision will be lost due to downcasting to 32-bit float.".

(** What [_should_cast_to_f32] is handed: the [np.dtype] instance of an
    array ([data.dtype]), or a scalar type, the class [np.float32] and
    the like (a key of the format table, [data.dtype.type]). *)
Inductive dtype_like : Type :=
| DtypeOf (d : dtype)
| ScalarType (d : dtype).

Definition element_type (x : dtype_like) : dtype :=
  match x with DtypeOf d | ScalarType d => d end.

(** [x.itemsize > n].  On a dtype instance [itemsize] is an integer.  On
    a scalar type it is the attribute descriptor of [np.generic], not a
    number, and Python 3 refuses to order it with an integer. *)
Definition descriptor_not_ordered : exn :=
  TypeError "'>' not supported between instances of 'getset_descriptor' and 'int'".

Definition itemsize_gt (x : dtype_like) (n : Z) : res bool :=
  match x with
  | DtypeOf d => Ok (itemsize d >? n)
  | ScalarType _ => Raise descriptor_not_ordered
  end.

Definition _should_cast_to_f32 {V} (data_dtype : dtype_like) : M (world V) bool :=
  let is_floating := is_floating (element_type data_dtype) in
  gt_float32 ← lift_res (itemsize_gt data_dtype 4);
  if is_floating && gt_float32 then
    warn F64_PRECISION_WARNING ;; mret true
  else mret false.

(** ** The base class [Texture2D] of vispy.gloo, which is not part of
    image.py *)

(** Modelled from the spec: [Texture2D.__init__] is missing.  The spec
    lists the GPU texture object among the external collaborators, with
    the contract "allocate/upload(data, format, channels), set filter
    mode": the object keeps the format and the filter it is given,
    receives the upload, and does not fail. *)
Definition Texture2D__init__ {V} (data : loc) (fmt : option string)
    (interpolation : string) : M (world V) unit :=
  a ← load data;
  tex_assign (with_internalformat fmt) ;;
  tex_assign (with_tex_interpolation interpolation) ;;
  tex_assign (with_uploaded (Some a)).

(** Modelled from the spec: [Texture2D.set_data] is missing; by the same
    contract it receives the upload and does not fail. *)
Definition Texture2D_set_data {V} (data : loc) : M (world V) unit :=
  a ← load data;
  tex_assign (with_uploaded (Some a)).

(** ** class ScalableTexture2D *)

Module ScalableTexture2D.

(** dtype -> internalformat *)
Definition _texture_dtype_format : list (dtype * string) :=
  [ (float32, "r32f"); (float64, "r32f");
    (uint8, "r8"); (uint16, "r16"); (uint32, "r32");
    (int8, "r8"); (int16, "r16"); (int32, "r32") ].

Fixpoint dict_get {A} (d : dtype) (tbl : list (dtype * A)) : option A :=
  match tbl with
  | [] => None
  | (k, v) :: tbl' => if decide (d = k) then Some v else dict_get d tbl'
  end.

Section Methods.
Context {V : Type} `{Arith V}.

Definition _data_num_channels (data : option loc) : M (world V) nat :=
  match data with
  | Some l =>
      a ← load l;
      mret (if (ndim a =? 3)%nat then List.last (nd_shape a) 1%nat else 1%nat)
  | None => mret 4%nat
  end.

Definition _create_rep_array (data : option loc) : M (world V) loc :=
  num_channels ← _data_num_channels data;
  alloc (np_zeros [1%nat; 1%nat; num_channels]).

Definition _handle_auto_texture_format (texture_format : option format_arg)
    (data : option loc) : M (world V) (option format_arg) :=
  match texture_format with
  | Some (FmtStr s) =>
      if String.eqb s "auto" then
        match data with
        | None =>
            warn "'texture_format' set to 'auto' but no data provided. Falling back to CPU scaling." ;;
            mret None
        | Some l =>
            a ← load l;
            tex_assign (with__auto_texture_format true) ;;
            mret (Some (FmtType (nd_dtype a)))
        end
      else mret texture_format
  | _ => mret texture_format
  end.

Definition _get_gl_tex_format (texture_format : option format_arg)
    (num_channels : nat) : M (world V) string :=
  texture_format ←
    match texture_format with
    | Some (FmtType d) =>
        match dict_get d _texture_dtype_format with
        | None =>
            raise (ValueError ("Can't determine internal texture format for '"
                               ++ dtype_str d ++ "'"))
        | Some tag => _should_cast_to_f32 (ScalarType d) ;; mret (Some tag)
        end
    | Some (FmtStr s) => mret (Some s)
    | None => mret None
    end;
  (* adjust internalformat for format of data (RGBA vs L) *)
  match texture_format with
  | Some s => mret (str_replace "r"%char (str_take num_channels "rgba") s)
  | None =>
      raise (AttributeError "'NoneType' object has no attribute 'replace'")
  end.

Definition _get_texture_format_for_data (data : option loc)
    (texture_format : option format_arg) : M (world V) (option string) :=
  match texture_format with
  | Some _ =>
      num_channels ← _data_num_channels data;
      texture_format ← _handle_auto_texture_format texture_format data;
      texture_format ← _get_gl_tex_format texture_format num_channels;
      mret (Some texture_format)
  | None => mret None
  end.

Definition __init__ (data : option loc) (internalformat : option format_arg)
    (allow_reformat : bool) (interpolation : string) : M (world V) unit :=
  tex_assign (with__allow_reformat allow_reformat) ;;
  tex_assign (with__auto_texture_format false) ;;
  tex_assign (with__clim None) ;;
  dt ← match data with
       | Some l => a ← load l; mret (Some (nd_dtype a))
       | None => mret None
       end;
  tex_assign (with__data_dtype dt) ;;
  tex_assign (with__data_limits None) ;;
  data ← _create_rep_array data;
  internalformat ← _get_texture_format_for_data (Some data) internalformat;
  tex_assign (with__scale_texture_gpu (bool_decide (internalformat <> None))) ;;
  Texture2D__init__ data internalformat interpolation.

(** [ScalableTexture2D(data, internalformat=..., interpolation=...)]:
    [__init__] on a new object. *)
Definition new (data : option loc) (internalformat : option format_arg)
    (interpolation : string) : M (world V) unit :=
  tex_assign (fun _ => blank_texture) ;;
  __init__ data internalformat false interpolation.

(** Property [clim]. *)
Definition clim (t : texture V) : option (clim_t V) := _clim t.

(** [cmin, cmax = clim] inside the [try] of [set_clim]. *)
Definition unpack_pair (c : clim_arg V) : res (V * V) :=
  match c with
  | ArgSeq [cmin; cmax] => Ok (cmin, cmax)
  | ArgSeq _ => Raise (ValueError "not enough or too many values to unpack (expected 2)")
  | ArgStr _ => Raise (ValueError "not enough or too many values to unpack (expected 2)")
  | ArgScalar _ | ArgNone => Raise (TypeError "cannot unpack non-iterable object")
  end.

(** Set clim and return if a texture update is needed. *)
Definition set_clim (c : clim_arg V) : M (world V) bool :=
  match c with
  | ArgStr s =>
      if negb (String.eqb s "auto") then
        raise (ValueError ("clim must be " ++ dq ++ "auto" ++ dq ++ " if a string"))
      else
        tex_assign (with__clim (Some ClimAuto)) ;;
        mret true
  | _ =>
      match unpack_pair c with
      | Raise _ => raise (ValueError "clim must have two elements")
      | Ok (cmin, cmax) =>
          t ← gets tex;
          (* texture_limits will always be None for in-GPU scaling *)
          let need_texture_upload :=
            match _data_limits t with
            | Some (l0, l1) => a_ltb cmin l0 || a_ltb l1 cmax
            | None => false
            end in
          tex_assign (with__clim (Some (ClimPair cmin cmax))) ;;
          mret need_texture_upload
      end
  end.

(** Whether the in-shader representation of this texture is normalized. *)
Definition is_normalized (t : texture V) : res bool :=
  match internalformat t with
  | None => Ok true
  | Some s =>
      match str_last s with
      | None => Raise (IndexError "string index out of range")
      | Some c => Ok (negb (Ascii.eqb c "f" || Ascii.eqb c "i"))
      end
  end.

(** Normalize values to match in-shader representation of this texture. *)
Definition normalize_value (t : texture V) (val : pyval V)
    (input_data_dtype : option dtype) : res (pyval V) :=
  match is_normalized t with
  | Raise e => Raise e
  | Ok false => Ok val
  | Ok true =>
      match iinfo (default float64 input_data_dtype) with
      | Raise e => Raise e
      | Ok (dmin, dmax) =>
          match val with
          | PyStr _ =>
              Raise (TypeError "unsupported operand type(s) for -: 'str' and 'int'")
          | PyNum v =>
              match a_div B32 (a_sub B32 v (a_of_Z B32 dmin))
                              (a_of_Z B32 (dmax - dmin)) with
              | Ok v' => Ok (PyNum v')
              | Raise e => Raise e
              end
          end
      end
  end.

(** [self.clim[i]] for [i] in 0, 1. *)
Definition clim_item (t : texture V) (i : nat) : res (pyval V) :=
  match clim t with
  | None => Raise (TypeError "'NoneType' object is not subscriptable")
  | Some ClimAuto =>
      match str_chars "auto" !! i with
      | Some ch => Ok (PyStr ch)
      | None => Raise (IndexError "string index out of range")
      end
  | Some (ClimPair cmin cmax) =>
      match [cmin; cmax] !! i with
      | Some v => Ok (PyNum v)
      | None => Raise (IndexError "tuple index out of range")
      end
  end.

(** Property [clim_normalized]: normalize current clims to match texture
    data inside the shader. *)
Definition clim_normalized (t : texture V) : res (pyval V * pyval V) :=
  if _scale_texture_gpu t then
    match clim_item t 0 with
    | Raise e => Raise e
    | Ok c0 =>
        match normalize_value t c0 (_data_dtype t) with
        | Raise e => Raise e
        | Ok clim_min =>
            match clim_item t 1 with
            | Raise e => Raise e
            | Ok c1 =>
                match normalize_value t c1 (_data_dtype t) with
                | Raise e => Raise e
                | Ok clim_max => Ok (clim_min, clim_max)
                end
            end
        end
    end
  else
    match _data_limits t with
    | None => Raise (TypeError "cannot unpack non-iterable NoneType object")
    | Some (range_min, range_max) =>
        match clim t with
        | None => Raise (TypeError "cannot unpack non-iterable NoneType object")
        | Some ClimAuto => Raise (ValueError "too many values to unpack (expected 2)")
        | Some (ClimPair clim_min clim_max) =>
            match a_div B32 (a_sub B32 clim_min range_min)
                            (a_sub B32 range_max range_min) with
            | Raise e => Raise e
            | Ok clim_min' =>
                match a_div B32 (a_sub B32 clim_max range_min)
                                (a_sub B32 range_max range_min) with
                | Raise e => Raise e
                | Ok clim_max' => Ok (PyNum clim_min', PyNum clim_max')
                end
            end
        end
    end.

Definition _scale_data_on_cpu (data : loc) (clim : V * V) : M (world V) loc :=
  a ← load data;
  data ← (if decide (nd_dtype a = float64)
          then alloc (astype_float32 a) else mret data);
  a ← load data;
  data ← alloc (sub_scalar a (fst clim));  (* not inplace so we don't modify orig data *)
  (if a_ltb (a_of_Z B32 0) (a_sub B32 (snd clim) (fst clim)) then
     a ← load data;
     a' ← lift_res (idiv_scalar a (a_sub B32 (snd clim) (fst clim)));
     store data a'
   else
     a ← load data;
     b ← lift_res (corner_nonzero a);
     store data (fill a (if b : bool then 1 else 0))) ;;
  mret data.

(** [data.ndim == 2 or data.shape[2] == 1] *)
Definition is_single_band (a : ndarray V) : res bool :=
  if (ndim a =? 2)%nat then Ok true
  else match nd_shape a !! 2%nat with
       | Some n => Ok (n =? 1)%nat
       | None => Raise (IndexError "tuple index out of range")
       end.

(** Upload new data to the GPU, scaling if necessary. *)
Definition set_data (data : loc) : M (world V) unit :=
  a ← load data;
  tex_assign (with__data_dtype (Some (nd_dtype a))) ;;
  t ← gets tex;
  let clim := _clim t in
  let is_auto := match clim with Some ClimAuto => true | _ => false end in
  single ← lift_res (is_single_band a);
  '(data, clim) ←
    (if single : bool then
       clim ← (if is_auto then
                 lo ← lift_res (np_min a);
                 hi ← lift_res (np_max a);
                 mret (np_float32 lo, np_float32 hi)
               else
                 match clim with
                 | Some (ClimPair c0 c1) => mret (a_cast B32 c0, a_cast B32 c1)
                 | _ => raise (TypeError "'NoneType' object is not subscriptable")
                 end);
       data ← (if negb (_scale_texture_gpu t)
               then _scale_data_on_cpu data clim else mret data);
       mret (data, Some (ClimPair (fst clim) (snd clim)))
     else if is_auto then
       (* assume that RGB data is already scaled (0, 1) *)
       mret (data, Some (ClimPair (a_of_Z B32 0) (a_of_Z B32 1)))
     else mret (data, clim));
  tex_assign (with__clim clim) ;;
  tex_assign (with__data_limits
                (if _scale_texture_gpu t then None
                 else match clim with
                      | Some (ClimPair c0 c1) => Some (c0, c1)
                      | _ => None
                      end)) ;;
  Texture2D_set_data data.

End Methods.
End ScalableTexture2D.

(** Attribute assignments on the visual and on a view. *)

Section VisualUpdates.
Context {V : Type}.
Definition with__data x (s : visual V) :=
  {| _data := x; _gamma := _gamma s;
     _interpolation_names := _interpolation_names s;
     _interpolation_fun := _interpolation_fun s;
     _interpolation := _interpolation s; _method := _method s;
     _grid := _grid s; _need_texture_upload := _need_texture_upload s;
     _need_vertex_update := _need_vertex_update s;
     _need_colortransform_update := _need_colortransform_update s;
     _need_interpolation_update := _need_interpolation_update s;
     _subdiv_position := _subdiv_position s;
     _subdiv_texcoord := _subdiv_texcoord s; _cmap := _cmap s;
     _data_lookup_fn := _data_lookup_fn s;
     frag_get_data := frag_get_data s;
     frag_color_transform := frag_color_transform s;
     prog_u_kernel := prog_u_kernel s;
     prog_image_size := prog_image_size s;
     update_requests := update_requests s |}.
Definition with__gamma x (s : visual V) :=
  {| _data := _data s; _gamma := x;
     _interpolation_names := _interpolation_names s;
     _interpolation_fun := _interpolation_fun s;
     _interpolation := _interpolation s; _method := _method s;
     _grid := _grid s; _need_texture_upload := _need_texture_upload s;
     _need_vertex_update := _need_vertex_update s;
     _need_colortransform_update := _need_colortransform_update s;
     _need_interpolation_update := _need_interpolation_update s;
     _subdiv_position := _subdiv_position s;
     _subdiv_texcoord := _subdiv_texcoord s; _cmap := _cmap s;
     _data_lookup_fn := _data_lookup_fn s;
     frag_get_data := frag_get_data s;
     frag_color_transform := frag_color_transform s;
     prog_u_kernel := prog_u_kernel s;
     prog_image_size := prog_image_size s;
     update_requests := update_requests s |}.
Definition with__interpolation_names x (s : visual V) :=
  {| _data := _data s; _gamma := _gamma s; _interpolation_names := x;
     _interpolation_fun := _interpolation_fun s;
     _interpolation := _interpolation s; _method := _method s;
     _grid := _grid s; _need_texture_upload := _need_texture_upload s;
     _need_vertex_update := _need_vertex_update s;
     _need_colortransform_update := _need_colortransform_update s;
     _need_interpolation_update := _need_interpolation_update s;
     _subdiv_position := _subdiv_position s;
     _subdiv_texcoord := _subdiv_texcoord s; _cmap := _cmap s;
     _data_lookup_fn := _data_lookup_fn s;
     frag_get_data := frag_get_data s;
     frag_color_transform := frag_color_transform s;
     prog_u_kernel := prog_u_kernel s;
     prog_image_size := prog_image_size s;
     update_requests := update_requests s |}.
Definition with__interpolation_fun x (s : visual V) :=
  {| _data := _data s; _gamma := _gamma s;
     _interpolation_names := _interpolation_names s;
     _interpolation_fun := x; _interpolation := _interpolation s;
     _method := _method s; _grid := _grid s;
     _need_texture_upload := _need_texture_upload s;
     _need_vertex_update := _need_vertex_update s;
     _need_colortransform_update := _need_colortransform_update s;
     _need_interpolation_update := _need_interpolation_update s;
     _subdiv_position := _subdiv_position s;
     _subdiv_texcoord := _subdiv_texcoord s; _cmap := _cmap s;
     _data_lookup_fn := _data_lookup_fn s;
     frag_get_data := frag_get_data s;
     frag_color_transform := frag_color_transform s;
     prog_u_kernel := prog_u_kernel s;
     prog_image_size := prog_image_size s;
     update_requests := update_requests s |}.
Definition with__interpolation x (s : visual V) :=
  {| _data := _data s; _gamma := _gamma s;
     _interpolation_names := _interpolation_names s;
     _interpolation_fun := _interpolation_fun s; _interpolation := x;
     _method := _method s; _grid := _grid s;
     _need_texture_upload := _need_texture_upload s;
     _need_vertex_update := _need_vertex_update s;
     _need_colortransform_update := _need_colortransform_update s;
     _need_interpolation_update := _need_interpolation_update s;
     _subdiv_position := _subdiv_position s;
     _subdiv_texcoord := _subdiv_texcoord s; _cmap := _cmap s;
     _data_lookup_fn := _data_lookup_fn s;
     frag_get_data := frag_get_data s;
     frag_color_transform := frag_color_transform s;
     prog_u_kernel := prog_u_kernel s;
     prog_image_size := prog_image_size s;
     update_requests := update_requests s |}.
Definition with__method x (s : visual V) :=
  {| _data := _data s; _gamma := _gamma s;
     _interpolation_names := _interpolation_names s;
     _interpolation_fun := _interpolation_fun s;
     _interpolation := _interpolation s; _method := x; _grid := _grid s;
     _need_texture_upload := _need_texture_upload s;
     _need_vertex_update := _need_vertex_update s;
     _need_colortransform_update := _need_colortransform_update s;
     _need_interpolation_update := _need_interpolation_update s;
     _subdiv_position := _subdiv_position s;
     _subdiv_texcoord := _subdiv_texcoord s; _cmap := _cmap s;
     _data_lookup_fn := _data_lookup_fn s;
     frag_get_data := frag_get_data s;
     frag_color_transform := frag_color_transform s;
     prog_u_kernel := prog_u_kernel s;
     prog_image_size := prog_image_size s;
     update_requests := update_requests s |}.
Definition with__grid x (s : visual V) :=
  {| _data := _data s; _gamma := _gamma s;
     _interpolation_names := _interpolation_names s;
     _interpolation_fun := _interpolation_fun s;
     _interpolation := _interpolation s; _method := _method s; _grid := x;
     _need_texture_upload := _need_texture_upload s;
     _need_vertex_update := _need_vertex_update s;
     _need_colortransform_update := _need_colortransform_update s;
     _need_interpolation_update := _need_interpolation_update s;
     _subdiv_position := _subdiv_position s;
     _subdiv_texcoord := _subdiv_texcoord s; _cmap := _cmap s;
     _data_lookup_fn := _data_lookup_fn s;
     frag_get_data := frag_get_data s;
     frag_color_transform := frag_color_transform s;
     prog_u_kernel := prog_u_kernel s;
     prog_image_size := prog_image_size s;
     update_requests := update_requests s |}.
Definition with__need_texture_upload x (s : visual V) :=
  {| _data := _data s; _gamma := _gamma s;
     _interpolation_names := _interpolation_names s;
     _interpolation_fun := _interpolation_fun s;
     _interpolation := _interpolation s; _method := _method s;
     _grid := _grid s; _need_texture_upload := x;
     _need_vertex_update := _need_vertex_update s;
     _need_colortransform_update := _need_colortransform_update s;
     _need_interpolation_update := _need_interpolation_update s;
     _subdiv_position := _subdiv_position s;
     _subdiv_texcoord := _subdiv_texcoord s; _cmap := _cmap s;
     _data_lookup_fn := _data_lookup_fn s;
     frag_get_data := frag_get_data s;
     frag_color_transform := frag_color_transform s;
     prog_u_kernel := prog_u_kernel s;
     prog_image_size := prog_image_size s;
     update_requests := update_requests s |}.
Definition with__need_vertex_update x (s : visual V) :=
  {| _data := _data s; _gamma := _gamma s;
     _interpolation_names := _interpolation_names s;
     _interpolation_fun := _interpolation_fun s;
     _interpolation := _interpolation s; _method := _method s;
     _grid := _grid s; _need_texture_upload := _need_texture_upload s;
     _need_vertex_update := x;
     _need_colortransform_update := _need_colortransform_update s;
     _need_interpolation_update := _need_interpolation_update s;
     _subdiv_position := _subdiv_position s;
     _subdiv_texcoord := _subdiv_texcoord s; _cmap := _cmap s;
     _data_lookup_fn := _data_lookup_fn s;
     frag_get_data := frag_get_data s;
     frag_color_transform := frag_color_transform s;
     prog_u_kernel := prog_u_kernel s;
     prog_image_size := prog_image_size s;
     update_requests := update_requests s |}.
Definition with__need_colortransform_update x (s : visual V) :=
  {| _data := _data s; _gamma := _gamma s;
     _interpolation_names := _interpolation_names s;
     _interpolation_fun := _interpolation_fun s;
     _interpolation := _interpolation s; _method := _method s;
     _grid := _grid s; _need_texture_upload := _need_texture_upload s;
     _need_vertex_update := _need_vertex_update s;
     _need_colortransform_update := x;
     _need_interpolation_update := _need_interpolation_update s;
     _subdiv_position := _subdiv_position s;
     _subdiv_texcoord := _subdiv_texcoord s; _cmap := _cmap s;
     _data_lookup_fn := _data_lookup_fn s;
     frag_get_data := frag_get_data s;
     frag_color_transform := frag_color_transform s;
     prog_u_kernel := prog_u_kernel s;
     prog_image_size := prog_image_size s;
     update_requests := update_requests s |}.
Definition with__need_interpolation_update x (s : visual V) :=
  {| _data := _data s; _gamma := _gamma s;
     _interpolation_names := _interpolation_names s;
     _interpolation_fun := _interpolation_fun s;
     _interpolation := _interpolation s; _method := _method s;
     _grid := _grid s; _need_texture_upload := _need_texture_upload s;
     _need_vertex_update := _need_vertex_update s;
     _need_colortransform_update := _need_colortransform_update s;
     _need_interpolation_update := x;
     _subdiv_position := _subdiv_position s;
     _subdiv_texcoord := _subdiv_texcoord s; _cmap := _cmap s;
     _data_lookup_fn := _data_lookup_fn s;
     frag_get_data := frag_get_data s;
     frag_color_transform := frag_color_transform s;
     prog_u_kernel := prog_u_kernel s;
     prog_image_size := prog_image_size s;
     update_requests := update_requests s |}.
Definition with__subdiv_position x (s : visual V) :=
  {| _data := _data s; _gamma := _gamma s;
     _interpolation_names := _interpolation_names s;
     _interpolation_fun := _interpolation_fun s;
     _interpolation := _interpolation s; _method := _method s;
     _grid := _grid s; _need_texture_upload := _need_texture_upload s;
     _need_vertex_update := _need_vertex_update s;
     _need_colortransform_update := _need_colortransform_update s;
     _need_interpolation_update := _need_interpolation_update s;
     _subdiv_position := x; _subdiv_texcoord := _subdiv_texcoord s;
     _cmap := _cmap s; _data_lookup_fn := _data_lookup_fn s;
     frag_get_data := frag_get_data s;
     frag_color_transform := frag_color_transform s;
     prog_u_kernel := prog_u_kernel s;
     prog_image_size := prog_image_size s;
     update_requests := update_requests s |}.
Definition with__subdiv_texcoord x (s : visual V) :=
  {| _data := _data s; _gamma := _gamma s;
     _interpolation_names := _interpolation_names s;
     _interpolation_fun := _interpolation_fun s;
     _interpolation := _interpolation s; _method := _method s;
     _grid := _grid s; _need_texture_upload := _need_texture_upload s;
     _need_vertex_update := _need_vertex_update s;
     _need_colortransform_update := _need_colortransform_update s;
     _need_interpolation_update := _need_interpolation_update s;
     _subdiv_position := _subdiv_position s; _subdiv_texcoord := x;
     _cmap := _cmap s; _data_lookup_fn := _data_lookup_fn s;
     frag_get_data := frag_get_data s;
     frag_color_transform := frag_color_transform s;
     prog_u_kernel := prog_u_kernel s;
     prog_image_size := prog_image_size s;
     update_requests := update_requests s |}.
Definition with__cmap x (s : visual V) :=
  {| _data := _data s; _gamma := _gamma s;
     _interpolation_names := _interpolation_names s;
     _interpolation_fun := _interpolation_fun s;
     _interpolation := _interpolation s; _method := _method s;
     _grid := _grid s; _need_texture_upload := _need_texture_upload s;
     _need_vertex_update := _need_vertex_update s;
     _need_colortransform_update := _need_colortransform_update s;
     _need_interpolation_update := _need_interpolation_update s;
     _subdiv_position := _subdiv_position s;
     _subdiv_texcoord := _subdiv_texcoord s; _cmap := x;
     _data_lookup_fn := _data_lookup_fn s;
     frag_get_data := frag_get_data s;
     frag_color_transform := frag_color_transform s;
     prog_u_kernel := prog_u_kernel s;
     prog_image_size := prog_image_size s;
     update_requests := update_requests s |}.
Definition with__data_lookup_fn x (s : visual V) :=
  {| _data := _data s; _gamma := _gamma s;
     _interpolation_names := _interpolation_names s;
     _interpolation_fun := _interpolation_fun s;
     _interpolation := _interpolation s; _method := _method s;
     _grid := _grid s; _need_texture_upload := _need_texture_upload s;
     _need_vertex_update := _need_vertex_update s;
     _need_colortransform_update := _need_colortransform_update s;
     _need_interpolation_update := _need_interpolation_update s;
     _subdiv_position := _subdiv_position s;
     _subdiv_texcoord := _subdiv_texcoord s; _cmap := _cmap s;
     _data_lookup_fn := x; frag_get_data := frag_get_data s;
     frag_color_transform := frag_color_transform s;
     prog_u_kernel := prog_u_kernel s;
     prog_image_size := prog_image_size s;
     update_requests := update_requests s |}.
Definition with_frag_get_data x (s : visual V) :=
  {| _data := _data s; _gamma := _gamma s;
     _interpolation_names := _interpolation_names s;
     _interpolation_fun := _interpolation_fun s;
     _interpolation := _interpolation s; _method := _method s;
     _grid := _grid s; _need_texture_upload := _need_texture_upload s;
     _need_vertex_update := _need_vertex_update s;
     _need_colortransform_update := _need_colortransform_update s;
     _need_interpolation_update := _need_interpolation_update s;
     _subdiv_position := _subdiv_position s;
     _subdiv_texcoord := _subdiv_texcoord s; _cmap := _cmap s;
     _data_lookup_fn := _data_lookup_fn s; frag_get_data := x;
     frag_color_transform := frag_color_transform s;
     prog_u_kernel := prog_u_kernel s;
     prog_image_size := prog_image_size s;
     update_requests := update_requests s |}.
Definition with_frag_color_transform x (s : visual V) :=
  {| _data := _data s; _gamma := _gamma s;
     _interpolation_names := _interpolation_names s;
     _interpolation_fun := _interpolation_fun s;
     _interpolation := _interpolation s; _method := _method s;
     _grid := _grid s; _need_texture_upload := _need_texture_upload s;
     _need_vertex_update := _need_vertex_update s;
     _need_colortransform_update := _need_colortransform_update s;
     _need_interpolation_update := _need_interpolation_update s;
     _subdiv_position := _subdiv_position s;
     _subdiv_texcoord := _subdiv_texcoord s; _cmap := _cmap s;
     _data_lookup_fn := _data_lookup_fn s;
     frag_get_data := frag_get_data s; frag_color_transform := x;
     prog_u_kernel := prog_u_kernel s;
     prog_image_size := prog_image_size s;
     update_requests := update_requests s |}.
Definition with_prog_u_kernel x (s : visual V) :=
  {| _data := _data s; _gamma := _gamma s;
     _interpolation_names := _interpolation_names s;
     _interpolation_fun := _interpolation_fun s;
     _interpolation := _interpolation s; _method := _method s;
     _grid := _grid s; _need_texture_upload := _need_texture_upload s;
     _need_vertex_update := _need_vertex_update s;
     _need_colortransform_update := _need_colortransform_update s;
     _need_interpolation_update := _need_interpolation_update s;
     _subdiv_position := _subdiv_position s;
     _subdiv_texcoord := _subdiv_texcoord s; _cmap := _cmap s;
     _data_lookup_fn := _data_lookup_fn s;
     frag_get_data := frag_get_data s;
     frag_color_transform := frag_color_transform s; prog_u_kernel := x;
     prog_image_size := prog_image_size s;
     update_requests := update_requests s |}.
Definition with_prog_image_size x (s : visual V) :=
  {| _data := _data s; _gamma := _gamma s;
     _interpolation_names := _interpolation_names s;
     _interpolation_fun := _interpolation_fun s;
     _interpolation := _interpolation s; _method := _method s;
     _grid := _grid s; _need_texture_upload := _need_texture_upload s;
     _need_vertex_update := _need_vertex_update s;
     _need_colortransform_update := _need_colortransform_update s;
     _need_interpolation_update := _need_interpolation_update s;
     _subdiv_position := _subdiv_position s;
     _subdiv_texcoord := _subdiv_texcoord s; _cmap := _cmap s;
     _data_lookup_fn := _data_lookup_fn s;
     frag_get_data := frag_get_data s;
     frag_color_transform := frag_color_transform s;
     prog_u_kernel := prog_u_kernel s; prog_image_size := x;
     update_requests := update_requests s |}.
Definition with_update_requests x (s : visual V) :=
  {| _data := _data s; _gamma := _gamma s;
     _interpolation_names := _interpolation_names s;
     _interpolation_fun := _interpolation_fun s;
     _interpolation := _interpolation s; _method := _method s;
     _grid := _grid s; _need_texture_upload := _need_texture_upload s;
     _need_vertex_update := _need_vertex_update s;
     _need_colortransform_update := _need_colortransform_update s;
     _need_interpolation_update := _need_interpolation_update s;
     _subdiv_position := _subdiv_position s;
     _subdiv_texcoord := _subdiv_texcoord s; _cmap := _cmap s;
     _data_lookup_fn := _data_lookup_fn s;
     frag_get_data := frag_get_data s;
     frag_color_transform := frag_color_transform s;
     prog_u_kernel := prog_u_kernel s;
     prog_image_size := prog_image_size s; update_requests := x |}.
Definition with__need_method_update x (vw : view) :=
  {| _need_method_update := x; _method_used := _method_used vw;
     get_transform := get_transform vw; prg_method := prg_method vw;
     prg_a_position := prg_a_position vw;
     prg_a_texcoord := prg_a_texcoord vw;
     prg_vert_transform := prg_vert_transform vw;
     prg_frag_transform := prg_frag_transform vw;
     prg_texture2D_LUT := prg_texture2D_LUT vw |}.
Definition with__method_used x (vw : view) :=
  {| _need_method_update := _need_method_update vw; _method_used := x;
     get_transform := get_transform vw; prg_method := prg_method vw;
     prg_a_position := prg_a_position vw;
     prg_a_texcoord := prg_a_texcoord vw;
     prg_vert_transform := prg_vert_transform vw;
     prg_frag_transform := prg_frag_transform vw;
     prg_texture2D_LUT := prg_texture2D_LUT vw |}.
Definition with_get_transform x (vw : view) :=
  {| _need_method_update := _need_method_update vw;
     _method_used := _method_used vw; get_transform := x;
     prg_method := prg_method vw; prg_a_position := prg_a_position vw;
     prg_a_texcoord := prg_a_texcoord vw;
     prg_vert_transform := prg_vert_transform vw;
     prg_frag_transform := prg_frag_transform vw;
     prg_texture2D_LUT := prg_texture2D_LUT vw |}.
Definition with_prg_method x (vw : view) :=
  {| _need_method_update := _need_method_update vw;
     _method_used := _method_used vw; get_transform := get_transform vw;
     prg_method := x; prg_a_position := prg_a_position vw;
     prg_a_texcoord := prg_a_texcoord vw;
     prg_vert_transform := prg_vert_transform vw;
     prg_frag_transform := prg_frag_transform vw;
     prg_texture2D_LUT := prg_texture2D_LUT vw |}.
Definition with_prg_a_position x (vw : view) :=
  {| _need_method_update := _need_method_update vw;
     _method_used := _method_used vw; get_transform := get_transform vw;
     prg_method := prg_method vw; prg_a_position := x;
     prg_a_texcoord := prg_a_texcoord vw;
     prg_vert_transform := prg_vert_transform vw;
     prg_frag_transform := prg_frag_transform vw;
     prg_texture2D_LUT := prg_texture2D_LUT vw |}.
Definition with_prg_a_texcoord x (vw : view) :=
  {| _need_method_update := _need_method_update vw;
     _method_used := _method_used vw; get_transform := get_transform vw;
     prg_method := prg_method vw; prg_a_position := prg_a_position vw;
     prg_a_texcoord := x; prg_vert_transform := prg_vert_transform vw;
     prg_frag_transform := prg_frag_transform vw;
     prg_texture2D_LUT := prg_texture2D_LUT vw |}.
Definition with_prg_vert_transform x (vw : view) :=
  {| _need_method_update := _need_method_update vw;
     _method_used := _method_used vw; get_transform := get_transform vw;
     prg_method := prg_method vw; prg_a_position := prg_a_position vw;
     prg_a_texcoord := prg_a_texcoord vw; prg_vert_transform := x;
     prg_frag_transform := prg_frag_transform vw;
     prg_texture2D_LUT := prg_texture2D_LUT vw |}.
Definition with_prg_frag_transform x (vw : view) :=
  {| _need_method_update := _need_method_update vw;
     _method_used := _method_used vw; get_transform := get_transform vw;
     prg_method := prg_method vw; prg_a_position := prg_a_position vw;
     prg_a_texcoord := prg_a_texcoord vw;
     prg_vert_transform := prg_vert_transform vw; prg_frag_transform := x;
     prg_texture2D_LUT := prg_texture2D_LUT vw |}.
Definition with_prg_texture2D_LUT x (vw : view) :=
  {| _need_method_update := _need_method_update vw;
     _method_used := _method_used vw; get_transform := get_transform vw;
     prg_method := prg_method vw; prg_a_position := prg_a_position vw;
     prg_a_texcoord := prg_a_texcoord vw;
     prg_vert_transform := prg_vert_transform vw;
     prg_frag_transform := prg_frag_transform vw; prg_texture2D_LUT := x |}.

(** [self.attr = x] inside a method of the visual. *)
Definition vis_assign (f : visual V -> visual V) : M (world V) unit :=
  modify (upd_vis f).

(** The view object [v]. *)
Definition the_view (v : nat) : M (world V) view :=
  fun w => match views w !! v with
           | Some vw => (Ok vw, w)
           | None => (Raise ReferenceError, w)
           end.

(** [view.attr = x] *)
Definition view_assign (v : nat) (f : view -> view) : M (world V) unit :=
  modify (upd_views (fun l => match l !! v with
                              | Some vw => <[v := f vw]> l
                              | None => l
                              end)).

End VisualUpdates.

(** ** Module-level colour transform builder *)

Definition _build_color_transform {V} (data : ndarray V)
    (clim : pyval V * pyval V) (gamma : V) (cmap : option colormap)
  : res (FunctionChain V) :=
  (* FIXME: This should probably be decided based on the texture internalformat *)
  match ScalableTexture2D.is_single_band data with
  | Raise e => Raise e
  | Ok true =>
      (* luminance data *)
      match cmap with
      | None => Raise (AttributeError "'NoneType' object has no attribute 'glsl_map'")
      | Some c =>
          let fclim := fn_setitem "clim" (SlotClim (fst clim) (snd clim))
                                  (mkFunction _apply_clim_float) in
          let fgamma := fn_setitem "gamma" (SlotGamma gamma)
                                   (mkFunction _apply_gamma_float) in
          Ok [mkFunction _c2l; fclim; fgamma; mkFunction (glsl_map c)]
      end
  | Ok false =>
      (* RGB/A image data (no colormap) *)
      let fclim := fn_setitem "clim" (SlotClim (fst clim) (snd clim))
                              (mkFunction _apply_clim) in
      let fgamma := fn_setitem "gamma" (SlotGamma gamma)
                               (mkFunction _apply_gamma) in
      Ok [mkFunction _null_color_transform; fclim; fgamma]
  end.

(** ** class ImageVisual *)

Definition ascii_lower (c : ascii) : ascii :=
  let n := nat_of_ascii c in
  if ((65 <=? n) && (n <=? 90))%nat then ascii_of_nat (n + 32) else c.

(** [s.lower()] *)
Fixpoint str_lower (s : string) : string :=
  match s with
  | EmptyString => EmptyString
  | String c s' => String (ascii_lower c) (str_lower s')
  end.

Fixpoint insert_sorted (x : string) (l : list string) : list string :=
  match l with
  | [] => [x]
  | y :: l' => if String.leb x y then x :: l else y :: insert_sorted x l'
  end.

(** [l.sort()] on strings *)
Definition sort_strings (l : list string) : list string :=
  fold_right insert_sorted [] l.

(** [x in l] on strings *)
Definition str_in (x : string) (l : list string) : bool :=
  existsb (String.eqb x) l.

(** [x == s] where [x] may be [None] *)
Definition opt_str_eqb (x : option string) (s : string) : bool :=
  match x with Some y => String.eqb y s | None => false end.

(** What [_prepare_draw] returns: [False], or nothing. *)
Inductive draw_ret : Type := RetFalse | RetNone.

Module ImageVisual.
Section Methods.
Context {V : Type} `{Arith V}.

Definition update : M (world V) unit :=
  vis_assign (fun s => with_update_requests (S (update_requests s)) s).

Definition _init_view (v : nat) : M (world V) unit :=
  (* Store some extra variables per-view *)
  view_assign v (with__need_method_update true) ;;
  view_assign v (with__method_used None).

Definition blank_view : view :=
  {| _need_method_update := false; _method_used := None;
     get_transform := NullTransform; prg_method := None;
     prg_a_position := None; prg_a_texcoord := None;
     prg_vert_transform := None; prg_frag_transform := None;
     prg_texture2D_LUT := None |}.

(** [view()]: a new view of the visual; its index is returned. *)
Definition view_ : M (world V) nat :=
  n ← gets (fun w => length (views w));
  modify (upd_views (fun l => (l ++ [blank_view])%list)) ;;
  _init_view n ;;
  mret n.

(** Property [size]. *)
Definition size : M (world V) (list nat) :=
  s ← gets vis;
  match _data s with
  | None => raise (AttributeError "'NoneType' object has no attribute 'shape'")
  | Some l => a ← load l; mret (rev (take 2 (nd_shape a)))
  end.

Definition set_data (image : loc) : M (world V) unit :=
  a ← load image;
  cast ← _should_cast_to_f32 (DtypeOf (nd_dtype a));
  data ← (if cast : bool then alloc (astype_float32 a) else mret image);
  a ← load data;
  s ← gets vis;
  old ← match _data s with
        | None => mret None
        | Some l => b ← load l; mret (Some (nd_shape b))
        end;
  when (bool_decide (old <> Some (nd_shape a)))
       (vis_assign (with__need_vertex_update true)) ;;
  vis_assign (with__data (Some data)) ;;
  vis_assign (with__need_texture_upload true).

(** [frag['color_transform'][i][name] = value] *)
Definition color_transform_setitem (i : nat) (name : string) (x : slot V)
  : M (world V) unit :=
  s ← gets vis;
  match frag_color_transform s with
  | None => raise (KeyError "color_transform")
  | Some chain =>
      match chain !! i with
      | None => raise (IndexError "list index out of range")
      | Some f =>
          vis_assign (with_frag_color_transform
                        (Some (<[i := fn_setitem name x f]> chain)))
      end
  end.

(** Property [clim] and its setter. *)
Definition clim : M (world V) (option (clim_t V)) :=
  gets (fun w => ScalableTexture2D.clim (tex w)).

Definition clim_setter (c : clim_arg V) : M (world V) unit :=
  need ← ScalableTexture2D.set_clim c;
  when need (vis_assign (with__need_texture_upload true)) ;;
  (* shortcut so we don't have to rebuild the whole color transform *)
  s ← gets vis;
  when (negb (_need_colortransform_update s))
       (t ← gets tex;
        cn ← lift_res (ScalableTexture2D.clim_normalized t);
        color_transform_setitem 1 "clim" (SlotClim (fst cn) (snd cn))) ;;
  update.

Definition cmap_setter (cmap : colormap) : M (world V) unit :=
  vis_assign (with__cmap (Some cmap)) ;;
  vis_assign (with__need_colortransform_update true) ;;
  update.

(** Set gamma used when rendering the image. *)
Definition gamma_setter (value : V) : M (world V) unit :=
  (if a_leb value (a_of_Z B64 0) then
     raise (ValueError "gamma must be > 0")
   else mret tt) ;;
  vis_assign (with__gamma (a_cast B64 value)) ;;
  (* shortcut so we don't have to rebuild the color transform *)
  s ← gets vis;
  when (negb (_need_colortransform_update s))
       (color_transform_setitem 2 "gamma" (SlotGamma (_gamma s))) ;;
  update.

Definition method_setter (m : string) : M (world V) unit :=
  s ← gets vis;
  when (negb (String.eqb (_method s) m))
       (vis_assign (with__method m) ;;
        vis_assign (with__need_vertex_update true) ;;
        update).

Definition interpolation_error (names : list string) : exn :=
  ValueError ("interpolation must be one of " ++ str_join ", " names).

Definition interpolation_setter (i : string) : M (world V) unit :=
  s ← gets vis;
  (if negb (str_in i (_interpolation_names s)) then
     raise (interpolation_error (_interpolation_names s))
   else mret tt) ;;
  when (negb (String.eqb (_interpolation s) i))
       (vis_assign (with__interpolation i) ;;
        vis_assign (with__need_interpolation_update true) ;;
        update).

(** [self._data_lookup_fn[name] = value]: the function object is the one
    stored in [_interpolation_fun] under the key [k]. *)
Definition lookup_fn_setitem (k name : string) (x : slot V) : M (world V) unit :=
  s ← gets vis;
  match assoc_get k (_interpolation_fun s) with
  | None => raise (KeyError k)
  | Some f =>
      vis_assign (with__interpolation_fun
                    (assoc_set k (fn_setitem name x f) (_interpolation_fun s)))
  end.

(** Rebuild the _data_lookup_fn for different interpolations. *)
Definition _build_interpolation : M (world V) unit :=
  log EvInterpolation ;;
  s ← gets vis;
  let interpolation := _interpolation s in
  match assoc_get interpolation (_interpolation_fun s) with
  | None => raise (KeyError interpolation)
  | Some _ =>
      vis_assign (with__data_lookup_fn (Some interpolation)) ;;
      vis_assign (with_frag_get_data (Some interpolation)) ;;
      (* only 'bilinear' uses 'linear' texture interpolation *)
      texture_interpolation ←
        (if String.eqb interpolation "bilinear" then mret "linear"
         else
           when (negb (String.eqb interpolation "nearest"))
                (vis_assign (with_prog_u_kernel true) ;;
                 sz ← size;
                 lookup_fn_setitem interpolation "shape" (SlotShape sz)) ;;
           mret "nearest");
      t ← gets tex;
      when (negb (String.eqb (tex_interpolation t) texture_interpolation))
           (tex_assign (with_tex_interpolation texture_interpolation)) ;;
      lookup_fn_setitem interpolation "texture" SlotTexture ;;
      vis_assign (with__need_interpolation_update false)
  end.

(** Rebuild the vertex buffers for the subdivide method. *)
Definition _build_vertex_data : M (world V) unit :=
  log EvVertex ;;
  s ← gets vis;
  let grid := _grid s in
  (if (snd grid =? 0)%nat || (fst grid =? 0)%nat
   then raise ZeroDivisionError else mret tt) ;;
  sz ← size;
  vis_assign (with__subdiv_position (Some (Vertices grid sz))) ;;
  vis_assign (with__subdiv_texcoord (Some (TexCoords grid))) ;;
  vis_assign (with__need_vertex_update false).

Definition _prepare_transforms (v : nat) : M (world V) unit :=
  vw ← the_view v;
  let trs := get_transform vw in
  let method := _method_used vw in
  if opt_str_eqb method "subdivide" then
    view_assign v (with_prg_vert_transform (Some trs)) ;;
    view_assign v (with_prg_frag_transform (Some NullTransform))
  else
    view_assign v (with_prg_vert_transform (Some NullTransform)) ;;
    view_assign v (with_prg_frag_transform (Some (inverse trs))).

(** Decide which method to use for *view* and configure it accordingly. *)
Definition _update_method (v : nat) : M (world V) unit :=
  log (EvMethod v) ;;
  s ← gets vis;
  vw ← the_view v;
  let method := _method s in
  let method :=
    if String.eqb method "auto" then
      if Linear (get_transform vw) then "subdivide" else "impostor"
    else method in
  view_assign v (with__method_used (Some method)) ;;
  (if String.eqb method "subdivide" then
     view_assign v (with_prg_method (Some 0)) ;;
     view_assign v (with_prg_a_position (Some BufSubdivPosition)) ;;
     view_assign v (with_prg_a_texcoord (Some BufSubdivTexcoord))
   else if String.eqb method "impostor" then
     view_assign v (with_prg_method (Some 1)) ;;
     view_assign v (with_prg_a_position (Some BufImpostorCoords)) ;;
     view_assign v (with_prg_a_texcoord (Some BufImpostorCoords))
   else
     raise (ValueError ("Unknown image draw method '" ++ method ++ "'"))) ;;
  sz ← size;
  vis_assign (with_prog_image_size (Some sz)) ;;
  view_assign v (with__need_method_update false) ;;
  _prepare_transforms v.

Definition _build_texture : M (world V) unit :=
  log EvTexture ;;
  s ← gets vis;
  match _data s with
  | None => raise (AttributeError "'NoneType' object has no attribute 'dtype'")
  | Some data => ScalableTexture2D.set_data data
  end ;;
  (* XXX: Does this *always* need a colortransform update? *)
  vis_assign (with__need_colortransform_update true) ;;
  vis_assign (with__need_texture_upload false).

Definition _compute_bounds (axis : nat) : M (world V) (nat * nat) :=
  if (1 <? axis)%nat then mret (0, 0)%nat
  else
    sz ← size;
    match sz !! axis with
    | Some n => mret (0%nat, n)
    | None => raise (IndexError "tuple index out of range")
    end.

(** The colour-transform step of [_prepare_draw]. *)
Definition rebuild_color_transform (v : nat) : M (world V) unit :=
  log EvColorTransform ;;
  s ← gets vis;
  a ← match _data s with
      | None => raise (AttributeError "'NoneType' object has no attribute 'ndim'")
      | Some l => load l
      end;
  t ← gets tex;
  cn ← lift_res (ScalableTexture2D.clim_normalized t);
  chain ← lift_res (_build_color_transform a cn (_gamma s) (_cmap s));
  vis_assign (with_frag_color_transform (Some chain)) ;;
  vis_assign (with__need_colortransform_update false) ;;
  view_assign v (with_prg_texture2D_LUT
                   (Some match _cmap s with
                         | Some c => if cmap_has_lut c then Some (cmap_name c)
                                     else None
                         | None => None
                         end)).

(** [dict(zip(keys, values))] *)
Definition dict_zip (keys : list string) (values : list (Function V))
  : list (string * Function V) :=
  fold_left (fun d kv => assoc_set (fst kv) (snd kv) d) (zip keys values) [].

(** The attributes of a visual object before [__init__] has run. *)
Definition blank_visual : visual V :=
  {| _data := None; _gamma := a_of_Z B64 1; _interpolation_names := [];
     _interpolation_fun := []; _interpolation := ""; _method := "";
     _grid := (1, 1)%nat; _need_texture_upload := false;
     _need_vertex_update := false; _need_colortransform_update := false;
     _need_interpolation_update := false; _subdiv_position := None;
     _subdiv_texcoord := None; _cmap := None; _data_lookup_fn := None;
     frag_get_data := None; frag_color_transform := None;
     prog_u_kernel := false; prog_image_size := None;
     update_requests := 0%nat |}.

(** [names] is the list of kernel names [load_spatial_filters()]
    returns. *)
Definition __init__ (names : list string) (data : option loc)
    (method : string) (grid : nat * nat) (cmap : colormap)
    (clim : clim_arg V) (gamma : V) (interpolation : string)
    (texture_format : option format_arg) : M (world V) unit :=
  vis_assign (with__data None) ;;
  vis_assign (with__gamma gamma) ;;
  vis_assign (with__interpolation_names names) ;;
  (* create interpolation shader functions for available interpolations *)
  let fun_ := map (fun n => mkFunction (_interpolation_template n)) names in
  vis_assign (with__interpolation_names (map str_lower names)) ;;
  vis_assign (with__interpolation_fun (dict_zip (map str_lower names) fun_)) ;;
  vis_assign (with__interpolation_names (sort_strings (map str_lower names))) ;;
  (* overwrite "nearest" and "bilinear" spatial-filters with "hardware"
     interpolation _data_lookup_fn *)
  vis_assign (fun s => with__interpolation_fun
                (assoc_set "nearest" (mkFunction _texture_lookup)
                           (_interpolation_fun s)) s) ;;
  vis_assign (fun s => with__interpolation_fun
                (assoc_set "bilinear" (mkFunction _texture_lookup)
                           (_interpolation_fun s)) s) ;;
  s ← gets vis;
  (if negb (str_in interpolation (_interpolation_names s)) then
     raise (interpolation_error (_interpolation_names s))
   else mret tt) ;;
  vis_assign (with__interpolation interpolation) ;;
  (* check texture interpolation *)
  let texture_interpolation :=
    if String.eqb interpolation "bilinear" then "linear" else "nearest" in
  vis_assign (with__method method) ;;
  vis_assign (with__grid grid) ;;
  vis_assign (with__need_texture_upload true) ;;
  vis_assign (with__need_vertex_update true) ;;
  vis_assign (with__need_colortransform_update true) ;;
  vis_assign (with__need_interpolation_update true) ;;
  ScalableTexture2D.new data texture_format texture_interpolation ;;
  vis_assign (with__subdiv_position None) ;;
  vis_assign (with__subdiv_texcoord None) ;;
  _init_view 0 ;;
  (* define _data_lookup_fn as None, will be setup in
     self._build_interpolation() *)
  vis_assign (with__data_lookup_fn None) ;;
  clim_setter clim ;;
  cmap_setter cmap ;;
  match data with
  | Some l => set_data l
  | None => mret tt
  end.

(** [ImageVisual(...)]: [__init__] on a new object, which is its own
    first view. *)
Definition new (names : list string) (data : option loc)
    (method : string) (grid : nat * nat) (cmap : colormap)
    (clim : clim_arg V) (gamma : V) (interpolation : string)
    (texture_format : option format_arg) : M (world V) unit :=
  vis_assign (fun _ => blank_visual) ;;
  modify (upd_views (fun _ => [blank_view])) ;;
  __init__ names data method grid cmap clim gamma interpolation texture_format.

Definition _prepare_draw (v : nat) : M (world V) draw_ret :=
  s ← gets vis;
  match _data s with
  | None => mret RetFalse
  | Some _ =>
      when (_need_interpolation_update s) _build_interpolation ;;
      s ← gets vis;
      when (_need_texture_upload s) _build_texture ;;
      s ← gets vis;
      when (_need_colortransform_update s) (rebuild_color_transform v) ;;
      s ← gets vis;
      when (_need_vertex_update s) _build_vertex_data ;;
      vw ← the_view v;
      when (_need_method_update vw) (_update_method v) ;;
      mret RetNone
  end.

End Methods.
End ImageVisual.

(** A world with no objects yet. *)
Definition empty_world {V} `{Arith V} : world V :=
  {| heap := []; warnings := []; trace := []; tex := blank_texture;
     vis := ImageVisual.blank_visual; views := [] |}.

(** The kernel names of vispy's spatial-filter asset. *)
Definition spatial_filter_names : list string :=
  ["Nearest"; "Bilinear"; "Hanning"; "Hamming"; "Hermite"; "Kaiser";
   "Quadric"; "Bicubic"; "CatRom"; "Mitchell"; "Spline16"; "Spline36";
   "Gaussian"; "Bessel"; "Sinc"; "Lanczos"; "Blackman"].

Definition viridis : colormap := {| cmap_name := "viridis"; cmap_has_lut := false |}.

(** ** Definitions used to state the properties *)

Section Statements.
Context {V : Type} `{Arith V}.

(** The channel count of a raster as the data model has it: 2-D rasters
    have one band, 3-D rasters as many as their last axis is long. *)
Definition channel_count (a : ndarray V) : option nat :=
  match nd_shape a with
  | [_; _] => Some 1%nat
  | [_; _; n] => Some n
  | _ => None
  end.

(** The channel variant that replaces the placeholder. *)
Definition channel_tag (n : nat) : string :=
  match n with
  | 1%nat => "r"
  | 3%nat => "rgb"
  | 4%nat => "rgba"
  | _ => ""
  end.

(** What the constructor learns from its [data] argument: the element
    type it records and the channel count of the placeholder array. *)
Definition data_info (w : world V) (data : option loc)
  : option (option dtype * nat) :=
  match data with
  | None => Some (None, 4%nat)
  | Some l =>
      match heap w !! l with
      | Some a =>
          Some (Some (nd_dtype a),
                if (ndim a =? 3)%nat then List.last (nd_shape a) 1%nat else 1%nat)
      | None => None
      end
  end.

(** The texture attributes [__init__] sets before resolving the format. *)
Definition init_texture (dt : option dtype) : texture V :=
  with__data_limits None
    (with__data_dtype dt
       (with__clim None
          (with__auto_texture_format false
             (with__allow_reformat false blank_texture)))).

(** The world in which the format is resolved: attributes initialised
    and the placeholder array allocated. *)
Definition init_world (w : world V) (dt : option dtype) (nc : nat) : world V :=
  upd_heap (fun h => (h ++ [np_zeros [1%nat; 1%nat; nc]])%list)
    (upd_tex (fun _ => init_texture dt) w).

(** The attributes set once the format [f] is known. *)
Definition finish_texture (f : option string) (interp : string) (nc : nat)
    (t : texture V) : texture V :=
  with_uploaded (Some (np_zeros [1%nat; 1%nat; nc]))
    (with_tex_interpolation interp
       (with_internalformat f
          (with__scale_texture_gpu (bool_decide (f <> None)) t))).

(** The channel substitution of [_get_gl_tex_format]. *)
Definition substitute (nc : nat) (tag : string) : string :=
  str_replace "r"%char (str_take nc "rgba") tag.

End Statements.

(** The stages of the colour pipeline, as the design names them. *)
Inductive stage : Type :=
| BandReduceLuminance
| ClampRescale
| GammaStage
| ColormapLookup
| IdentityStage
| Sampling.

Definition stage_of (g : glsl) : stage :=
  match g with
  | _c2l => BandReduceLuminance
  | _apply_clim_float | _apply_clim => ClampRescale
  | _apply_gamma_float | _apply_gamma => GammaStage
  | glsl_map _ => ColormapLookup
  | _null_color_transform => IdentityStage
  | _interpolation_template _ | _texture_lookup => Sampling
  end.

(** The topology of a chain: its sources in order, parameters aside. *)
Definition topology {V} (chain : FunctionChain V) : list glsl :=
  map fn_source chain.

(** The method [_update_method] settles on for a view. *)
Definition resolved_method (m : string) (tr : transform) : string :=
  if String.eqb m "auto" then
    if Linear tr then "subdivide" else "impostor"
  else m.

(** A view after [_update_method] has configured it for [subdivide]
    ([sub = true]) or [impostor]. *)
Definition configured_view (sub : bool) (vw : view) : view :=
  {| _need_method_update := false;
     _method_used := Some (if sub then "subdivide" else "impostor");
     get_transform := get_transform vw;
     prg_method := Some (if sub then 0 else 1);
     prg_a_position := Some (if sub then BufSubdivPosition else BufImpostorCoords);
     prg_a_texcoord := Some (if sub then BufSubdivTexcoord else BufImpostorCoords);
     prg_vert_transform :=
       Some (if sub then get_transform vw else NullTransform);
     prg_frag_transform :=
       Some (if sub then NullTransform else inverse (get_transform vw));
     prg_texture2D_LUT := prg_texture2D_LUT vw |}.

(** ** The rebuild schedule, as the design states it *)

Section Schedule.
Context {V : Type} `{Arith V}.

(** The dirty flag that belongs to a step. *)
Definition flag_of (w : world V) (e : event) : bool :=
  match e with
  | EvInterpolation => _need_interpolation_update (vis w)
  | EvTexture => _need_texture_upload (vis w)
  | EvColorTransform => _need_colortransform_update (vis w)
  | EvVertex => _need_vertex_update (vis w)
  | EvMethod u =>
      match views w !! u with
      | Some vw => _need_method_update vw
      | None => false
      end
  end.

(** The code a step runs when a draw is prepared for view [v]. *)
Definition step_of (v : nat) (e : event) : M (world V) unit :=
  match e with
  | EvInterpolation => ImageVisual._build_interpolation
  | EvTexture => ImageVisual._build_texture
  | EvColorTransform => ImageVisual.rebuild_color_transform v
  | EvVertex => ImageVisual._build_vertex_data
  | EvMethod u => ImageVisual._update_method u
  end.

(** The fixed order of the steps. *)
Definition draw_order (v : nat) : list event :=
  [EvInterpolation; EvTexture; EvColorTransform; EvVertex; EvMethod v].

(** Run the steps of [es] in order, each only if its flag is set when
    its turn comes. *)
Fixpoint run_steps (v : nat) (es : list event) : M (world V) unit :=
  match es with
  | [] => mret tt
  | e :: es' =>
      w ← get;
      when (flag_of w e) (step_of v e) ;;
      run_steps v es'
  end.

(** A computation relates the state it starts in to the state it ends
    in, however it ends. *)
Definition preserves {A} (R : world V -> world V -> Prop)
    (c : M (world V) A) : Prop :=
  forall w r w', c w = (r, w') -> R w w'.

(** A computation that returns normally ends in a state with [Q]. *)
Definition ensures {A} (Q : world V -> Prop) (c : M (world V) A) : Prop :=
  forall w a w', c w = (Ok a, w') -> Q w'.

(** Steps leave the visual, the views and the log alone: what texture
    methods and array operations do. *)
Definition same_visual (w w' : world V) : Prop :=
  vis w' = vis w /\ views w' = views w /\ trace w' = trace w.

(** Every flag other than those in [own] keeps its value. *)
Definition flags_kept (own : list event) (w w' : world V) : Prop :=
  forall e, ~ In e own -> flag_of w' e = flag_of w e.

(** No view disappears. *)
Definition views_kept (w w' : world V) : Prop :=
  forall u, is_Some (views w !! u) -> is_Some (views w' !! u).

(** What the body of a step may do: it logs nothing further, keeps the
    flags it does not own and keeps the views. *)
Definition step_frame (own : list event) (w w' : world V) : Prop :=
  trace w' = trace w /\ flags_kept own w w' /\ views_kept w w'.

(** What a whole step may do: it logs itself once, keeps the flags it
    does not own and keeps the views. *)
Definition step_rel (e : event) (own : list event) (w w' : world V) : Prop :=
  trace w' = (trace w ++ [e])%list /\ flags_kept own w w' /\ views_kept w w'.

(** The flags a step may write: its own, and for the texture step also
    the colour-transform flag. *)
Definition owned (e : event) : list event :=
  match e with
  | EvTexture => [EvTexture; EvColorTransform]
  | _ => [e]
  end.

(** A step that is due contributes itself to the log. *)
Definition seg (e : event) (b : bool) : list event := if b then [e] else [].

(** The steps a draw for view [v] is due to run from the flags in [w]:
    those whose flag is set, and the colour transform also when the
    texture is due, in the fixed order. *)
Definition scheduled (w : world V) (v : nat) : list event :=
  filter (fun e => flag_of w e = true \/
                   (e = EvColorTransform /\ flag_of w EvTexture = true))
         (draw_order v).

(** Whether assigning [c] as colour limits asks for a new upload: always
    for ["auto"], and for a pair when it leaves the recorded data limits
    (there are none under GPU-side scaling). *)
Definition clim_needs_upload (t : texture V) (c : clim_arg V) : bool :=
  match c with
  | ArgStr s => String.eqb s "auto"
  | ArgSeq [cmin; cmax] =>
      match _data_limits t with
      | Some (l0, l1) => a_ltb cmin l0 || a_ltb l1 cmax
      | None => false
      end
  | _ => false
  end.

End Schedule.

(** ** Concrete worlds *)

(** A 2x2 single-band uint8 raster. *)
Definition demo_image : ndarray spec_float :=
  {| nd_dtype := uint8; nd_shape := [2; 2]%nat;
     nd_buf := IntBuf [10; 20; 30; 50] |}.

(** A 2x2 single-band raster whose samples are all 5. *)
Definition flat_image : ndarray spec_float :=
  {| nd_dtype := uint8; nd_shape := [2; 2]%nat;
     nd_buf := IntBuf [5; 5; 5; 5] |}.

(** A 1x2 single-band float32 raster holding 1.0 and 3.0. *)
Definition float_image : ndarray spec_float :=
  {| nd_dtype := float32; nd_shape := [1; 2]%nat;
     nd_buf := FloatBuf [SF_of_Z B32 1; SF_of_Z B32 3] |}.

(** A 1x1 raster with three bands. *)
Definition rgb_image : ndarray spec_float :=
  {| nd_dtype := uint8; nd_shape := [1; 1; 3]%nat;
     nd_buf := IntBuf [1; 2; 3] |}.

(** The world after [ImageVisual(image, texture_format=fmt)] with the
    defaults for everything else. *)
Definition visual_of (image : ndarray spec_float) (fmt : option format_arg)
  : world spec_float :=
  snd ((l ← alloc image;
        ImageVisual.new spatial_filter_names (Some l) "auto" (1, 1)%nat
          viridis (ArgStr "auto") (SF_of_Z B64 1) "nearest" fmt) empty_world).

(** The visual of [demo_image], CPU-scaled, before and after its first
    draw, and after the same raster has been assigned once more. *)
Definition demo_world : world spec_float := visual_of demo_image None.

Definition demo_drawn : world spec_float :=
  snd (ImageVisual._prepare_draw 0 demo_world).

Definition demo_dirty : world spec_float :=
  snd (ImageVisual.set_data 0%nat demo_drawn).

(** The visual of [float_image], GPU-scaled, after its first draw. *)
Definition gpu_drawn : world spec_float :=
  snd (ImageVisual._prepare_draw 0
         (visual_of float_image (Some (FmtStr "r32f")))).

(** ** CPU scaling, as a function of the raster *)

Section Scaling.
Context {V : Type} `{Arith V}.

(** Samples wider than 32-bit float are narrowed first. *)
Definition narrowed (a : ndarray V) : ndarray V :=
  if decide (nd_dtype a = float64) then astype_float32 a else a.

(** The colour limits [set_data] settles on for a single-band raster. *)
Definition resolved_clim (t : texture V) (a : ndarray V) : res (V * V) :=
  match _clim t with
  | Some ClimAuto =>
      match np_min a, np_max a with
      | Ok lo, Ok hi => Ok (np_float32 lo, np_float32 hi)
      | Raise e, _ => Raise e
      | _, Raise e => Raise e
      end
  | Some (ClimPair c0 c1) => Ok (a_cast B32 c0, a_cast B32 c1)
  | None => Raise (TypeError "'NoneType' object is not subscriptable")
  end.

(** The format the scaled samples are computed in. *)
Definition scaled_fmt (a : ndarray V) : fmt :=
  result_type_f32 (nd_dtype (narrowed a)).

(** The samples as they enter the subtraction. *)
Definition scaled_samples (a : ndarray V) : list V :=
  samples_as (scaled_fmt a) (narrowed a).

(** What [_scale_data_on_cpu] returns, as an array value: the raster
    narrowed, shifted by the lower limit, then divided by the range if
    that is positive and flattened otherwise. *)
Definition cpu_scaled (a : ndarray V) (cmin cmax : V) : res (ndarray V) :=
  let a2 := sub_scalar (narrowed a) cmin in
  if a_ltb (a_of_Z B32 0) (a_sub B32 cmax cmin)
  then idiv_scalar a2 (a_sub B32 cmax cmin)
  else match corner_nonzero a2 with
       | Ok b => Ok (fill a2 (if b : bool then 1 else 0))
       | Raise e => Raise e
       end.

(** Whether the corner sample, after the lower limit has been
    subtracted from it, differs from zero. *)
Definition shifted_corner_nonzero (a : ndarray V) (cmin : V) : bool :=
  match scaled_samples a with
  | x :: _ =>
      negb (a_eqb (a_sub (scaled_fmt a) x (promote_f32 (scaled_fmt a) cmin))
                  (a_of_Z B32 0))
  | [] => false
  end.

(** Whether the corner sample of the raster itself differs from zero. *)
Definition corner_sample_nonzero (a : ndarray V) : bool :=
  match nd_buf a with
  | IntBuf (x :: _) => negb (x =? 0)%Z
  | FloatBuf (x :: _) => negb (a_eqb x (a_of_Z B32 0))
  | _ => false
  end.

(** No array object that exists in [w] is changed in [w']. *)
Definition heap_kept (w w' : world V) : Prop :=
  forall l a, heap w !! l = Some a -> heap w' !! l = Some a.

End Scaling.

(** ** The inverse of the normalisation, as the specification words it:
    a normalised limit [y] is mapped back through the range [lo, hi]. *)


(** ** More concrete worlds *)

(** The CPU-scaled visual of [flat_image], before and after its first
    draw. *)
Definition flat_world : world spec_float := visual_of flat_image None.


(** A world holding only an RGB raster. *)
Definition rgb_world : world spec_float := snd (alloc rgb_image empty_world).






(** ** Worlds reached by single mutator calls *)

(** [demo_drawn] after colour limits outside the recorded data limits
    have been assigned, and after the draw that follows. *)
Definition demo_relimited : world spec_float :=
  snd (ImageVisual.clim_setter (ArgSeq [SF_of_Z B32 0; SF_of_Z B32 100])
         demo_drawn).

Definition demo_relimited_drawn : world spec_float :=
  snd (ImageVisual._prepare_draw 0 demo_relimited).

(** [demo_drawn] after a method name that is none of the known ones has
    been assigned. *)
Definition demo_bogus : world spec_float :=
  snd (ImageVisual.method_setter "bogus" demo_drawn).

(** The view [demo_drawn] is drawn in. *)
Definition demo_view : view :=
  default ImageVisual.blank_view (views demo_drawn !! 0%nat).

(** The float32 value 5. *)
Definition five : spec_float := SF_of_Z B32 5.

(** ** Invariants and frames *)

(** Data limits are recorded only under CPU scaling. *)
Definition limits_only_on_cpu {V} (t : texture V) : Prop :=
  _scale_texture_gpu t = true -> _data_limits t = None.

Section Relations.
Context {V : Type}.

(** The texture object is left as it is. *)
Definition same_texture (w w' : world V) : Prop := tex w' = tex w.

(** The limits stay [None] once they are. *)
Definition no_limits_kept (w w' : world V) : Prop :=
  _data_limits (tex w) = None -> _data_limits (tex w') = None.

(** Relative to a scaling mode [g]: the mode and the invariant are kept. *)
Definition limits_rel (g : bool) (w w' : world V) : Prop :=
  _scale_texture_gpu (tex w) = g /\ limits_only_on_cpu (tex w) ->
  _scale_texture_gpu (tex w') = g /\ limits_only_on_cpu (tex w').

End Relations.

Section MoreRelations.
Context {V : Type}.

(** The texture-upload flag, the texture and the arrays are left as
    they are. *)
Definition upload_kept (w w' : world V) : Prop :=
  _need_texture_upload (vis w') = _need_texture_upload (vis w) /\
  tex w' = tex w /\ heap w' = heap w.

(** The shape of the raster the visual holds, if it holds one. *)
Definition data_shape (w : world V) : option (list nat) :=
  match _data (vis w) with
  | Some l => option_map nd_shape (heap w !! l)
  | None => None
  end.

(** Whether [_should_cast_to_f32] asks for a cast. *)
Definition wider_than_f32 (d : dtype) : bool :=
  is_floating d && (itemsize d >? 4).

End MoreRelations.

Section Kept.
Context {V : Type}.

(** A part of the world, picked by [proj], is left as it is. *)
Definition kept {A} (proj : world V -> A) (w w' : world V) : Prop :=
  proj w' = proj w.

(** What a user configures on the visual, with the number of redraw
    requests. *)
Definition settings (w : world V) :=
  (_data (vis w), _gamma (vis w), _interpolation_names (vis w),
   _interpolation (vis w), _method (vis w), _grid (vis w), _cmap (vis w),
   update_requests (vis w)).

(** How a view has been set up by the method step. *)
Definition method_config (vw : view) :=
  (_need_method_update vw, _method_used vw, get_transform vw, prg_method vw,
   prg_a_position vw, prg_a_texcoord vw, prg_vert_transform vw,
   prg_frag_transform vw).

Definition method_config_of (v : nat) (w : world V) :=
  option_map method_config (views w !! v).

(** Every view other than [v] is left as it is. *)
Definition other_views_kept (v : nat) (w w' : world V) : Prop :=
  forall u, u <> v -> views w' !! u = views w !! u.

(** The grid and the vertex flag. *)
Definition grid_and_vertex_flag (w : world V) :=
  (_grid (vis w), _need_vertex_update (vis w)).

(** The steps of a draw that come before the method step. *)
Definition visual_steps : list event :=
  [EvInterpolation; EvTexture; EvColorTransform; EvVertex].

End Kept.

(** The steps of a draw that come before the vertex step. *)
Definition early_steps : list event :=
  [EvInterpolation; EvTexture; EvColorTransform].

(** The interpolation catalogue of a visual and its shader functions. *)
Definition catalogue {V} (w : world V) :=
  (_interpolation_names (vis w), _interpolation_fun (vis w)).

(** What assigning a raster to the visual leaves alone. *)
Definition constructed {V} (w : world V) :=
  (_gamma (vis w), _method (vis w), _grid (vis w), _interpolation (vis w),
   _need_colortransform_update (vis w), _need_interpolation_update (vis w),
   frag_color_transform (vis w), _cmap (vis w), update_requests (vis w),
   views w, trace w, tex w).

(** The vertex flag is not cleared. *)
Definition vertex_flag_stays {V} (w w' : world V) : Prop :=
  _need_vertex_update (vis w) = true -> _need_vertex_update (vis w') = true.

(** ** The calls a user makes on a constructed visual *)

Inductive call (V : Type) : Type :=
| SetData (image : loc)
| SetClim (c : clim_arg V)
| SetCmap (c : colormap)
| SetGamma (g : V)
| SetMethod (m : string)
| SetInterpolation (i : string)
| NewView
| PrepareDraw (v : nat).
Arguments SetData {V} image.
Arguments SetClim {V} c.
Arguments SetCmap {V} c.
Arguments SetGamma {V} g.
Arguments SetMethod {V} m.
Arguments SetInterpolation {V} i.
Arguments NewView {V}.
Arguments PrepareDraw {V} v.

Definition run_call {V} `{Arith V} (c : call V) : M (world V) unit :=
  match c with
  | SetData image => ImageVisual.set_data image
  | SetClim c => ImageVisual.clim_setter c
  | SetCmap c => ImageVisual.cmap_setter c
  | SetGamma g => ImageVisual.gamma_setter g
  | SetMethod m => ImageVisual.method_setter m
  | SetInterpolation i => ImageVisual.interpolation_setter i
  | NewView => ImageVisual.view_ ;; mret tt
  | PrepareDraw v => ImageVisual._prepare_draw v ;; mret tt
  end.

(** The interpolation in use is in the catalogue, and every name of the
    catalogue has a shader function. *)
Definition interpolation_ready {V} (w : world V) : Prop :=
  str_in (_interpolation (vis w)) (_interpolation_names (vis w)) = true /\
  forall i, str_in i (_interpolation_names (vis w)) = true ->
            is_Some (assoc_get i (_interpolation_fun (vis w))).

(** The catalogue and the interpolation in use are left as they are,
    and no shader function is dropped. *)
Definition table_kept {V} (w w' : world V) : Prop :=
  _interpolation_names (vis w') = _interpolation_names (vis w) /\
  _interpolation (vis w') = _interpolation (vis w) /\
  forall k, is_Some (assoc_get k (_interpolation_fun (vis w))) ->
            is_Some (assoc_get k (_interpolation_fun (vis w'))).

(** The scaling mode, the data limits and the colour limits of the
    texture, with the texture-upload flag. *)
Definition upload_state {V} (w : world V) :=
  (_scale_texture_gpu (tex w), _data_limits (tex w), _clim (tex w),
   _need_texture_upload (vis w)).

(** A CPU-scaled visual that holds the raster [a] at [l] and is set up
    so that view [v] can be drawn: the interpolation has its function,
    there is a colormap, the grid has cells, the method is one of the
    three known ones, and either an upload is pending with some clim
    set, or an upload has recorded data limits and a clim pair. *)
Definition drawable {V} (v : nat) (l : loc) (a : ndarray V) (w : world V)
  : Prop :=
  _data (vis w) = Some l /\ heap w !! l = Some a /\
  _scale_texture_gpu (tex w) = false /\
  interpolation_ready w /\
  _cmap (vis w) <> None /\
  fst (_grid (vis w)) <> 0%nat /\ snd (_grid (vis w)) <> 0%nat /\
  is_Some (views w !! v) /\
  (_method (vis w) = "auto" \/ _method (vis w) = "subdivide" \/
   _method (vis w) = "impostor") /\
  ((_need_texture_upload (vis w) = true /\ _clim (tex w) <> None) \/
   (exists lo hi c0 c1,
      _data_limits (tex w) = Some (lo, hi) /\
      _clim (tex w) = Some (ClimPair c0 c1))).

(** ** More concrete worlds *)

(** A world holding only [demo_image]. *)
Definition demo_heap : world spec_float := snd (alloc demo_image empty_world).

(** A visual of [demo_image] whose grid has no rows. *)
Definition gridless_world : world spec_float :=
  snd (ImageVisual.new spatial_filter_names (Some 0%nat) "auto" (0, 1)%nat
         viridis (ArgStr "auto") (SF_of_Z B64 1) "nearest" None demo_heap).

(** The GPU-scaled visual of [float_image] before its first draw. *)
Definition gpu_world : world spec_float :=
  visual_of float_image (Some (FmtStr "r32f")).

(** * Verification *)
(** * Properties *)

(** ** Monad and heap lemmas *)

Lemma bind_Ok {S A B} (c : M S A) (f : A -> M S B) s a s' :
  c s = (Ok a, s') -> (c ≫= f) s = f a s'.
Proof. intros Hc. unfold mbind, M_bind. rewrite Hc. reflexivity. Qed.

Lemma bind_Raise {S A B} (c : M S A) (f : A -> M S B) s e s' :
  c s = (Raise e, s') -> (c ≫= f) s = (Raise e, s').
Proof. intros Hc. unfold mbind, M_bind. rewrite Hc. reflexivity. Qed.

Lemma load_Some {V} (w : world V) l a :
  heap w !! l = Some a -> load l w = (Ok a, w).
Proof. intros Hl. unfold load. rewrite Hl. reflexivity. Qed.

Lemma lookup_snoc {A} (h : list A) (a : A) : (h ++ [a])%list !! length h = Some a.
Proof. apply list_lookup_middle. reflexivity. Qed.

Lemma lookup_snoc_old {A} (h : list A) (a b : A) l :
  h !! l = Some b -> (h ++ [a])%list !! l = Some b.
Proof. intros Hl. apply lookup_app_l_Some. exact Hl. Qed.

(** ** Symbolic execution *)

Ltac solve_lookup :=
  cbn [heap upd_heap upd_tex upd_vis upd_views upd_warnings upd_trace];
  first [ eassumption
        | apply lookup_snoc
        | apply lookup_snoc_old; solve_lookup ].

(** One step of symbolic execution: run the head computation of a bind. *)
Ltac mstep :=
  first
    [ erewrite bind_Ok by (apply load_Some; solve_lookup)
    | erewrite bind_Ok by
        (first [ reflexivity | eassumption ]) ].

(** ** Format resolution *)

Section FormatResolution.
Context {V : Type} `{Arith V}.

Lemma _data_num_channels_count (w : world V) l a nc :
  heap w !! l = Some a -> channel_count a = Some nc ->
  ScalableTexture2D._data_num_channels (Some l) w = (Ok nc, w).
Proof.
  intros Hl Hc. unfold ScalableTexture2D._data_num_channels.
  erewrite bind_Ok by (apply load_Some; exact Hl).
  unfold channel_count in Hc. unfold ndim.
  destruct (nd_shape a) as [|r [|c [|n [|? ?]]]]; simplify_eq; reflexivity.
Qed.




Lemma _data_num_channels_None (w : world V) :
  ScalableTexture2D._data_num_channels None w = (Ok 4%nat, w).
Proof. reflexivity. Qed.

Lemma _data_num_channels_rep (w : world V) l nc :
  heap w !! l = Some (np_zeros [1%nat; 1%nat; nc]) ->
  ScalableTexture2D._data_num_channels (Some l) w = (Ok nc, w).
Proof.
  intros Hl. unfold ScalableTexture2D._data_num_channels.
  mstep. reflexivity.
Qed.

Lemma _create_rep_array_run (w : world V) data nc :
  ScalableTexture2D._data_num_channels data w = (Ok nc, w) ->
  ScalableTexture2D._create_rep_array data w =
  (Ok (length (heap w)),
   upd_heap (fun h => (h ++ [np_zeros [1%nat; 1%nat; nc]])%list) w).
Proof.
  intros Hn. unfold ScalableTexture2D._create_rep_array.
  mstep. reflexivity.
Qed.

Lemma _get_gl_tex_format_dtype (w : world V) d nc :
  ScalableTexture2D._get_gl_tex_format (Some (FmtType d)) nc w =
  (Raise
     (match ScalableTexture2D.dict_get d ScalableTexture2D._texture_dtype_format with
      | Some _ => descriptor_not_ordered
      | None => ValueError ("Can't determine internal texture format for '"
                            ++ dtype_str d ++ "'")
      end), w).
Proof.
  unfold ScalableTexture2D._get_gl_tex_format, _should_cast_to_f32.
  destruct d; reflexivity.
Qed.

Lemma Texture2D__init___run (w : world V) l a fmt interp :
  heap w !! l = Some a ->
  Texture2D__init__ l fmt interp w =
  (Ok tt, upd_tex (fun t => with_uploaded (Some a)
                     (with_tex_interpolation interp
                        (with_internalformat fmt t))) w).
Proof.
  intros Hl. unfold Texture2D__init__. mstep. reflexivity.
Qed.

Lemma init_prefix (w : world V) data dt nc
    (k : loc -> M (world V) unit) :
  data_info w data = Some (dt, nc) ->
  (tex_assign (fun _ => blank_texture) ;;
   tex_assign (with__allow_reformat false) ;;
   tex_assign (with__auto_texture_format false) ;;
   tex_assign (with__clim None) ;;
   dt ← match data with
        | Some l => a ← load l; mret (Some (nd_dtype a))
        | None => mret None
        end;
   tex_assign (with__data_dtype dt) ;;
   tex_assign (with__data_limits None) ;;
   data ← ScalableTexture2D._create_rep_array data;
   k data) w = k (length (heap w)) (init_world w dt nc).
Proof.
  intros Hd. unfold data_info in Hd.
  do 4 mstep.
  destruct data as [l|].
  - destruct (heap w !! l) as [a|] eqn:Hl; [|discriminate]. simplify_eq.
    erewrite bind_Ok; cycle 1.
    { erewrite bind_Ok by (apply load_Some; solve_lookup). reflexivity. }
    do 2 mstep.
    erewrite bind_Ok; cycle 1.
    { apply _create_rep_array_run. unfold ScalableTexture2D._data_num_channels.
      erewrite bind_Ok by (apply load_Some; solve_lookup). reflexivity. }
    reflexivity.
  - simplify_eq. do 3 mstep.
    erewrite bind_Ok; cycle 1.
    { apply _create_rep_array_run. reflexivity. }
    reflexivity.
Qed.

Lemma rep_lookup (w : world V) dt nc :
  heap (init_world w dt nc) !! length (heap w) = Some (np_zeros [1%nat; 1%nat; nc]).
Proof. apply lookup_snoc. Qed.

Lemma finish_run (w0 : world V) l nc f interp :
  heap w0 !! l = Some (np_zeros [1%nat; 1%nat; nc]) ->
  (tex_assign (with__scale_texture_gpu (bool_decide (f <> None))) ;;
   Texture2D__init__ l f interp) w0 =
  (Ok tt, upd_tex (finish_texture f interp nc) w0).
Proof.
  intros Hl. mstep. erewrite Texture2D__init___run by solve_lookup.
  reflexivity.
Qed.

Lemma new_run_None (w : world V) data dt nc interp :
  data_info w data = Some (dt, nc) ->
  ScalableTexture2D.new data None interp w =
  (Ok tt, upd_tex (finish_texture None interp nc) (init_world w dt nc)).
Proof.
  intros Hd. unfold ScalableTexture2D.new, ScalableTexture2D.__init__.
  erewrite init_prefix by exact Hd.
  unfold ScalableTexture2D._get_texture_format_for_data.
  mstep. apply finish_run, rep_lookup.
Qed.

Lemma new_run_dtype (w : world V) data dt nc d interp :
  data_info w data = Some (dt, nc) ->
  ScalableTexture2D.new data (Some (FmtType d)) interp w =
  (Raise
     (match ScalableTexture2D.dict_get d ScalableTexture2D._texture_dtype_format with
      | Some _ => descriptor_not_ordered
      | None => ValueError ("Can't determine internal texture format for '"
                            ++ dtype_str d ++ "'")
      end), init_world w dt nc).
Proof.
  intros Hd. unfold ScalableTexture2D.new, ScalableTexture2D.__init__.
  erewrite init_prefix by exact Hd.
  unfold ScalableTexture2D._get_texture_format_for_data,
    ScalableTexture2D._handle_auto_texture_format.
  pose proof (rep_lookup w dt nc) as Hrep.
  erewrite bind_Raise; [reflexivity|].
  erewrite bind_Ok by (apply _data_num_channels_rep; exact Hrep).
  mstep. erewrite bind_Raise by (apply _get_gl_tex_format_dtype). reflexivity.
Qed.

Lemma new_run_auto (w : world V) data dt nc interp :
  data_info w data = Some (dt, nc) ->
  ScalableTexture2D.new data (Some (FmtStr "auto")) interp w =
  (Raise descriptor_not_ordered,
   upd_tex (with__auto_texture_format true) (init_world w dt nc)).
Proof.
  intros Hd. unfold ScalableTexture2D.new, ScalableTexture2D.__init__.
  erewrite init_prefix by exact Hd.
  unfold ScalableTexture2D._get_texture_format_for_data,
    ScalableTexture2D._handle_auto_texture_format.
  pose proof (rep_lookup w dt nc) as Hrep.
  erewrite bind_Raise; [reflexivity|].
  erewrite bind_Ok by (apply _data_num_channels_rep; exact Hrep).
  cbn [String.eqb Ascii.eqb Bool.eqb].
  erewrite bind_Ok; cycle 1.
  { erewrite bind_Ok by (apply load_Some; exact Hrep). mstep. reflexivity. }
  erewrite bind_Raise
    by (exact (_get_gl_tex_format_dtype _ float64 nc)). reflexivity.
Qed.

Lemma new_run_str (w : world V) data dt nc s interp :
  data_info w data = Some (dt, nc) -> s <> "auto" ->
  ScalableTexture2D.new data (Some (FmtStr s)) interp w =
  (Ok tt, upd_tex (finish_texture (Some (substitute nc s)) interp nc)
            (init_world w dt nc)).
Proof.
  intros Hd Hs. unfold ScalableTexture2D.new, ScalableTexture2D.__init__.
  erewrite init_prefix by exact Hd.
  unfold ScalableTexture2D._get_texture_format_for_data,
    ScalableTexture2D._handle_auto_texture_format.
  pose proof (rep_lookup w dt nc) as Hrep.
  apply String.eqb_neq in Hs. rewrite Hs.
  erewrite bind_Ok; cycle 1.
  { erewrite bind_Ok by (apply _data_num_channels_rep; exact Hrep).
    mstep. unfold ScalableTexture2D._get_gl_tex_format. mstep. reflexivity. }
  apply finish_run. exact Hrep.
Qed.

Lemma data_info_raster (w : world V) l a :
  heap w !! l = Some a ->
  exists nc, data_info w (Some l) = Some (Some (nd_dtype a), nc).
Proof. intros Hl. unfold data_info. rewrite Hl. eauto. Qed.

(** C8 (what the code does).  An element type as the format request
    never yields a tag.  For every element type of the dtype-to-tag
    table, format resolution fails with [TypeError]: after the table has
    been consulted, [_should_cast_to_f32] is handed the scalar type and
    orders its [itemsize] attribute, which on a type is a descriptor,
    with 4.  For every element type outside the table it fails with the
    [ValueError] that plays the role of UnsupportedFormat.  The
    constructor fails in the same way, for a raster of any channel
    count, before anything has been uploaded and without a warning. *)
Theorem C8_element_type_request_fails (w : world V) l a d interp :
  heap w !! l = Some a ->
  let failure :=
    match ScalableTexture2D.dict_get d ScalableTexture2D._texture_dtype_format with
    | Some _ => descriptor_not_ordered
    | None => ValueError ("Can't determine internal texture format for '"
                          ++ dtype_str d ++ "'")
    end in
  (forall nc,
     ScalableTexture2D._get_gl_tex_format (Some (FmtType d)) nc w =
       (Raise failure, w)) /\
  exists w',
    ScalableTexture2D.new (Some l) (Some (FmtType d)) interp w =
      (Raise failure, w') /\
    uploaded (tex w') = None /\
    warnings w' = warnings w.
Proof.
  intros Hl failure. split.
  - intros nc. apply _get_gl_tex_format_dtype.
  - destruct (data_info_raster w l a Hl) as (nc & Hd).
    eexists. split; [apply (new_run_dtype _ _ _ _ d interp Hd)|].
    split; reflexivity.
Qed.

(** C3 (what the code does).  With the format request ["auto"] and no
    raster, the constructor neither falls back to CPU scaling nor warns:
    it has replaced the missing raster by the float64 placeholder array
    before the request is resolved, so the request becomes the scalar
    type [np.float64], and resolution fails with [TypeError] when
    [_should_cast_to_f32] orders the [itemsize] attribute of that type
    with 4.  The fallback branch is never reached from the constructor;
    reached directly with no data, it emits the fallback warning, but
    the format it hands on is [None], on which the channel substitution
    raises. *)
Theorem C3_auto_without_data_raises (w : world V) interp :
  (exists w',
     ScalableTexture2D.new None (Some (FmtStr "auto")) interp w =
       (Raise descriptor_not_ordered, w') /\
     _auto_texture_format (tex w') = true /\
     uploaded (tex w') = None /\
     warnings w' = warnings w /\
     heap w' = (heap w ++ [np_zeros [1; 1; 4]%nat])%list) /\
  ScalableTexture2D._get_texture_format_for_data None (Some (FmtStr "auto")) w =
  (Raise (AttributeError "'NoneType' object has no attribute 'replace'"),
   upd_warnings
     (fun l => (l ++ ["'texture_format' set to 'auto' but no data provided. Falling back to CPU scaling."])%list) w).
Proof.
  split; [|reflexivity].
  eexists. split.
  - apply (new_run_auto w None None 4%nat). reflexivity.
  - repeat split.
Qed.

(** The constructor enables GPU-side scaling exactly when a format is
    requested, whatever the data. *)
Lemma scale_texture_gpu_iff_requested (w w' : world V) data req interp :
  ScalableTexture2D.new data req interp w = (Ok tt, w') ->
  data_info w data <> None ->
  _scale_texture_gpu (tex w') = bool_decide (req <> None).
Proof.
  intros Hrun Hd.
  destruct (data_info w data) as [[dt nc]|] eqn:Hi; [clear Hd|congruence].
  destruct req as [[s|d]|].
  - destruct (String.eqb_spec s "auto") as [->|Hs].
    + rewrite (new_run_auto _ _ _ _ interp Hi) in Hrun. discriminate.
    + rewrite (new_run_str _ _ _ _ _ interp Hi Hs) in Hrun. simplify_eq. reflexivity.
  - rewrite (new_run_dtype _ _ _ _ d interp Hi) in Hrun. discriminate.
  - rewrite (new_run_None _ _ _ _ interp Hi) in Hrun. simplify_eq. reflexivity.
Qed.
End FormatResolution.

(** ** The colour-transform chain *)

Section ColorTransform.
Context {V : Type} `{Arith V}.

Lemma is_single_band_count (a : ndarray V) nc :
  channel_count a = Some nc ->
  ScalableTexture2D.is_single_band a = Ok (nc =? 1)%nat.
Proof.
  unfold channel_count, ScalableTexture2D.is_single_band, ndim.
  destruct (nd_shape a) as [|r [|c [|n [|? ?]]]]; intros; simplify_eq; reflexivity.
Qed.

(** C6. The chain built for a raster is determined by its band count:
    for one band it is band-reduce-to-luminance, clamp-and-rescale bound
    to clim, gamma bound to the exponent, colormap lookup, in that order;
    for three or four bands it is identity, clamp-and-rescale, gamma, and
    no colormap lookup. *)
Theorem C6_chain_by_band_count (a : ndarray V) (clim : pyval V * pyval V)
    (gamma : V) (c : colormap) (nc : nat) :
  channel_count a = Some nc ->
  (nc = 1%nat ->
   exists f0 fclim fgamma f3,
     _build_color_transform a clim gamma (Some c) = Ok [f0; fclim; fgamma; f3] /\
     topology [f0; fclim; fgamma; f3] =
       [_c2l; _apply_clim_float; _apply_gamma_float; glsl_map c] /\
     map stage_of (topology [f0; fclim; fgamma; f3]) =
       [BandReduceLuminance; ClampRescale; GammaStage; ColormapLookup] /\
     fn_slots fclim = [("clim", SlotClim (fst clim) (snd clim))] /\
     fn_slots fgamma = [("gamma", SlotGamma gamma)]) /\
  (nc = 3%nat \/ nc = 4%nat ->
   forall cmap, exists f0 fclim fgamma,
     _build_color_transform a clim gamma cmap = Ok [f0; fclim; fgamma] /\
     topology [f0; fclim; fgamma] =
       [_null_color_transform; _apply_clim; _apply_gamma] /\
     map stage_of (topology [f0; fclim; fgamma]) =
       [IdentityStage; ClampRescale; GammaStage] /\
     ~ In ColormapLookup (map stage_of (topology [f0; fclim; fgamma])) /\
     fn_slots fclim = [("clim", SlotClim (fst clim) (snd clim))] /\
     fn_slots fgamma = [("gamma", SlotGamma gamma)]).
Proof.
  intros Hc. unfold _build_color_transform.
  rewrite (is_single_band_count _ _ Hc). split.
  - intros ->. cbn. do 4 eexists. repeat split.
  - intros Hn cmap.
    assert ((nc =? 1)%nat = false) as -> by (destruct Hn as [-> | ->]; reflexivity).
    do 3 eexists. repeat split. cbn. intros [?|[?|[?|[]]]]; discriminate.
Qed.

End ColorTransform.

(** ** Render-method selection *)

Lemma lookup_insert_same {A} (l : list A) v x y :
  l !! v = Some y -> <[v := x]> l !! v = Some x.
Proof.
  intros Hl. apply list_lookup_insert_eq. eapply lookup_lt_Some. exact Hl.
Qed.

Lemma the_view_Some {V} (w : world V) v vw :
  views w !! v = Some vw -> the_view v w = (Ok vw, w).
Proof. intros Hv. unfold the_view. rewrite Hv. reflexivity. Qed.

Lemma view_assign_Some {V} (w : world V) v vw f :
  views w !! v = Some vw ->
  view_assign v f w = (Ok tt, upd_views (fun l => <[v := f vw]> l) w).
Proof.
  intros Hv. unfold view_assign, modify, upd_views. rewrite Hv. reflexivity.
Qed.

Ltac solve_view :=
  cbn [views upd_heap upd_tex upd_vis upd_views upd_warnings upd_trace];
  first [ eassumption
        | eapply lookup_insert_same; solve_view ].

Ltac vstep :=
  first
    [ erewrite bind_Ok by (apply load_Some; solve_lookup)
    | erewrite bind_Ok by (apply the_view_Some; solve_view)
    | erewrite bind_Ok by (apply view_assign_Some; solve_view)
    | erewrite bind_Ok by (first [ reflexivity | eassumption ]) ].

Section RenderMethod.
Context {V : Type} `{Arith V}.

Lemma size_run (w : world V) l a :
  _data (vis w) = Some l -> heap w !! l = Some a ->
  ImageVisual.size w = (Ok (rev (take 2 (nd_shape a))), w).
Proof.
  intros Hd Hl. unfold ImageVisual.size. vstep. rewrite Hd.
  vstep. reflexivity.
Qed.

Lemma _prepare_transforms_run (w : world V) v vw :
  views w !! v = Some vw ->
  ImageVisual._prepare_transforms v w =
  (Ok tt,
   upd_views (fun l =>
     <[v := if opt_str_eqb (_method_used vw) "subdivide"
            then with_prg_frag_transform (Some NullTransform)
                   (with_prg_vert_transform (Some (get_transform vw)) vw)
            else with_prg_frag_transform (Some (inverse (get_transform vw)))
                   (with_prg_vert_transform (Some NullTransform) vw)]> l) w).
Proof.
  intros Hv. unfold ImageVisual._prepare_transforms. vstep.
  destruct (opt_str_eqb _ _).
  - vstep. erewrite view_assign_Some by solve_view.
    f_equal. unfold upd_views; cbn. f_equal. apply list_insert_insert_eq.
  - vstep. erewrite view_assign_Some by solve_view.
    f_equal. unfold upd_views; cbn. f_equal. apply list_insert_insert_eq.
Qed.


Lemma _update_method_run (w : world V) v vw l a :
  views w !! v = Some vw -> _data (vis w) = Some l -> heap w !! l = Some a ->
  let m := resolved_method (_method (vis w)) (get_transform vw) in
  let w0 := upd_trace (fun t => (t ++ [EvMethod v])%list) w in
  ImageVisual._update_method v w =
  if String.eqb m "subdivide" then
    (Ok tt, upd_views (fun vs => <[v := configured_view true vw]> vs)
              (upd_vis (with_prog_image_size (Some (rev (take 2 (nd_shape a))))) w0))
  else if String.eqb m "impostor" then
    (Ok tt, upd_views (fun vs => <[v := configured_view false vw]> vs)
              (upd_vis (with_prog_image_size (Some (rev (take 2 (nd_shape a))))) w0))
  else
    (Raise (ValueError ("Unknown image draw method '" ++ m ++ "'")),
     upd_views (fun vs => <[v := with__method_used (Some m) vw]> vs) w0).
Proof.
  intros Hv Hd Hl. cbv zeta. unfold ImageVisual._update_method, resolved_method.
  do 3 vstep. cbn [vis upd_trace].
  set (m := if String.eqb (_method (vis w)) "auto" then _ else _).
  clearbody m. vstep.
  destruct (String.eqb m "subdivide") eqn:Hsub;
    [|destruct (String.eqb m "impostor") eqn:Himp].
  - erewrite bind_Ok; cycle 1. { do 2 vstep. apply view_assign_Some. solve_view. }
    erewrite bind_Ok by (apply (size_run _ l a); [exact Hd | solve_lookup]).
    do 2 vstep. erewrite _prepare_transforms_run by solve_view.
    apply String.eqb_eq in Hsub. rewrite Hsub. cbn. unfold upd_views, upd_vis, upd_trace; cbn.
    repeat rewrite list_insert_insert_eq. reflexivity.
  - erewrite bind_Ok; cycle 1. { do 2 vstep. apply view_assign_Some. solve_view. }
    erewrite bind_Ok by (apply (size_run _ l a); [exact Hd | solve_lookup]).
    do 2 vstep. erewrite _prepare_transforms_run by solve_view.
    apply String.eqb_eq in Himp. rewrite Himp. cbn. unfold upd_views, upd_vis, upd_trace; cbn.
    repeat rewrite list_insert_insert_eq. reflexivity.
  - erewrite bind_Raise; reflexivity.
Qed.

(** C7. Per view: with method ["auto"] the method used is subdivide
    exactly when the active transform is linear and impostor otherwise;
    an explicit subdivide or impostor is used as given; any other name
    fails with the [ValueError] that plays the role of UnknownMethod.
    For subdivide the forward transform goes to the vertex stage and the
    null transform to the fragment stage; for impostor the null transform
    goes to the vertex stage and the inverse of the active transform to
    the fragment stage. *)
Theorem C7_render_method_selection (w : world V) v vw l a :
  views w !! v = Some vw -> _data (vis w) = Some l -> heap w !! l = Some a ->
  let tr := get_transform vw in
  let m := _method (vis w) in
  ((m = "auto" /\ Linear tr = true) \/ m = "subdivide" ->
   exists w' vw',
     ImageVisual._update_method v w = (Ok tt, w') /\
     views w' !! v = Some vw' /\
     _method_used vw' = Some "subdivide" /\
     prg_method vw' = Some 0 /\
     prg_a_position vw' = Some BufSubdivPosition /\
     prg_a_texcoord vw' = Some BufSubdivTexcoord /\
     prg_vert_transform vw' = Some tr /\
     prg_frag_transform vw' = Some NullTransform) /\
  ((m = "auto" /\ Linear tr = false) \/ m = "impostor" ->
   exists w' vw',
     ImageVisual._update_method v w = (Ok tt, w') /\
     views w' !! v = Some vw' /\
     _method_used vw' = Some "impostor" /\
     prg_method vw' = Some 1 /\
     prg_a_position vw' = Some BufImpostorCoords /\
     prg_a_texcoord vw' = Some BufImpostorCoords /\
     prg_vert_transform vw' = Some NullTransform /\
     prg_frag_transform vw' = Some (inverse tr)) /\
  (m <> "auto" -> m <> "subdivide" -> m <> "impostor" ->
   exists w',
     ImageVisual._update_method v w =
     (Raise (ValueError ("Unknown image draw method '" ++ m ++ "'")), w')).
Proof.
  intros Hv Hd Hl tr m.
  pose proof (_update_method_run w v vw l a Hv Hd Hl) as Hrun.
  cbv zeta in Hrun. fold m tr in Hrun.
  repeat split.
  - intros Hm.
    assert (resolved_method m tr = "subdivide") as Hr.
    { unfold resolved_method. destruct Hm as [[-> ->]| ->]; reflexivity. }
    rewrite Hr in Hrun. cbn [String.eqb] in Hrun.
    eexists; exists (configured_view true vw). split; [exact Hrun|].
    split; [|repeat split].
    cbn. eapply lookup_insert_same. exact Hv.
  - intros Hm.
    assert (resolved_method m tr = "impostor") as Hr.
    { unfold resolved_method. destruct Hm as [[-> ->]| ->]; reflexivity. }
    rewrite Hr in Hrun.
    eexists; exists (configured_view false vw). split; [exact Hrun|].
    split; [|repeat split].
    cbn. eapply lookup_insert_same. exact Hv.
  - intros Ha Hs Hi.
    assert (resolved_method m tr = m) as Hr.
    { unfold resolved_method. apply String.eqb_neq in Ha. rewrite Ha. reflexivity. }
    rewrite Hr in Hrun.
    apply String.eqb_neq in Hs, Hi. rewrite Hs, Hi in Hrun.
    eexists. exact Hrun.
Qed.
End RenderMethod.

(** ** Frame reasoning *)

Section Frames.
Context {V : Type} `{Arith V}.
Context (R : world V -> world V -> Prop).
Context (R_refl : forall w, R w w).
Context (R_trans : forall w1 w2 w3, R w1 w2 -> R w2 w3 -> R w1 w3).

Lemma preserves_ret {A} (a : A) : preserves R (mret a).
Proof. intros w r w' Hr. inversion Hr; subst. apply R_refl. Qed.

Lemma preserves_raise {A} e : preserves R (raise e : M (world V) A).
Proof. intros w r w' Hr. inversion Hr; subst. apply R_refl. Qed.

Lemma preserves_gets {A} (f : world V -> A) : preserves R (gets f).
Proof. intros w r w' Hr. inversion Hr; subst. apply R_refl. Qed.

Lemma preserves_get : preserves R get.
Proof. intros w r w' Hr. inversion Hr; subst. apply R_refl. Qed.

Lemma preserves_lift_res {A} (x : res A) : preserves R (lift_res x).
Proof. intros w r w' Hr. inversion Hr; subst. apply R_refl. Qed.

Lemma preserves_load l : preserves R (load l).
Proof.
  intros w r w' Hr. unfold load in Hr.
  destruct (heap w !! l); inversion Hr; subst; apply R_refl.
Qed.

Lemma preserves_the_view v : preserves R (the_view v).
Proof.
  intros w r w' Hr. unfold the_view in Hr.
  destruct (views w !! v); inversion Hr; subst; apply R_refl.
Qed.

Lemma preserves_modify f : (forall w, R w (f w)) -> preserves R (modify f).
Proof. intros Hf w r w' Hr. inversion Hr; subst. apply Hf. Qed.

Lemma preserves_bind {A B} (c : M (world V) A) (f : A -> M (world V) B) :
  preserves R c -> (forall a, preserves R (f a)) -> preserves R (c ≫= f).
Proof.
  intros Hc Hf w r w' Hr. unfold mbind, M_bind in Hr.
  destruct (c w) as [[a|e] w1] eqn:Hcw.
  - eapply R_trans; [eapply Hc; exact Hcw | eapply Hf; exact Hr].
  - inversion Hr; subst. eapply Hc; exact Hcw.
Qed.

Lemma preserves_when b (c : M (world V) unit) :
  preserves R c -> preserves R (when b c).
Proof. intros Hc. destruct b; [exact Hc | apply preserves_ret]. Qed.

End Frames.

Lemma ensures_bind {V A B} (Q : world V -> Prop) (c : M (world V) A)
    (f : A -> M (world V) B) :
  (forall a, ensures Q (f a)) -> ensures Q (c ≫= f).
Proof.
  intros Hf w b w' Hr. unfold mbind, M_bind in Hr.
  destruct (c w) as [[a|e] w1]; [|discriminate].
  eapply Hf; exact Hr.
Qed.

Lemma ensures_raise {V A} (Q : world V -> Prop) e :
  ensures Q (raise e : M (world V) A).
Proof. intros w a w' Hr. discriminate. Qed.

Lemma ensures_modify {V} (Q : world V -> Prop) f :
  (forall w, Q (f w)) -> ensures Q (modify f).
Proof. intros Hf w a w' Hr. inversion Hr; subst. apply Hf. Qed.

(** Solve a frame goal by following the structure of the computation. *)
Ltac frame_step R Hrefl Htrans :=
  first
    [ apply (preserves_bind R Htrans); [|intros ?]
    | apply (preserves_ret R Hrefl)
    | apply (preserves_raise R Hrefl)
    | apply (preserves_gets R Hrefl)
    | apply (preserves_get R Hrefl)
    | apply (preserves_lift_res R Hrefl)
    | apply (preserves_load R Hrefl)
    | apply (preserves_the_view R Hrefl)
    | apply (preserves_when R Hrefl) ].

Ltac frame_case :=
  match goal with
  | |- preserves _ (match ?x with _ => _ end) => destruct x
  | |- preserves _ (if ?x then _ else _) => destruct x
  | |- preserves _ (let '(_, _) := ?x in _) => destruct x
  end.

(** ** Mutators *)

Section Mutators.
Context {V : Type} `{Arith V}.

Lemma set_clim_bad_string (w : world V) s :
  s <> "auto" ->
  ScalableTexture2D.set_clim (ArgStr s) w =
  (Raise (ValueError ("clim must be " ++ dq ++ "auto" ++ dq ++ " if a string")), w).
Proof.
  intros Hs. unfold ScalableTexture2D.set_clim.
  apply String.eqb_neq in Hs. rewrite Hs. reflexivity.
Qed.

Lemma set_clim_bad_arity (w : world V) c :
  (forall s, c <> ArgStr s) -> (forall a b, c <> ArgSeq [a; b]) ->
  ScalableTexture2D.set_clim c w =
  (Raise (ValueError "clim must have two elements"), w).
Proof.
  intros Hs Hp. unfold ScalableTexture2D.set_clim.
  destruct c as [s|l|x|]; try reflexivity.
  - exfalso. eapply Hs. reflexivity.
  - destruct l as [|a [|b [|? ?]]]; try reflexivity.
    exfalso. eapply Hp. reflexivity.
Qed.

Lemma set_clim_auto (w : world V) :
  ScalableTexture2D.set_clim (ArgStr "auto") w =
  (Ok true, upd_tex (with__clim (Some ClimAuto)) w).
Proof. reflexivity. Qed.

Lemma set_clim_pair (w : world V) cmin cmax :
  ScalableTexture2D.set_clim (ArgSeq [cmin; cmax]) w =
  (Ok match _data_limits (tex w) with
      | Some (l0, l1) => a_ltb cmin l0 || a_ltb l1 cmax
      | None => false
      end,
   upd_tex (with__clim (Some (ClimPair cmin cmax))) w).
Proof. reflexivity. Qed.

Lemma method_setter_run (w : world V) m :
  ImageVisual.method_setter m w =
  if String.eqb (_method (vis w)) m then (Ok tt, w)
  else (Ok tt,
        upd_vis (fun s => with_update_requests (S (update_requests s))
                            (with__need_vertex_update true (with__method m s))) w).
Proof.
  unfold ImageVisual.method_setter. vstep.
  destruct (String.eqb _ _); reflexivity.
Qed.

End Mutators.

(** ** Rejected and accepted mutator calls *)

Section Atomicity.
Context {V : Type} `{Arith V}.

(** C9 (as the code has it). A clim that is a string other than
    ["auto"], a clim without exactly two elements, a gamma that is not
    positive and an interpolation name outside the catalogue are
    rejected with a [ValueError] (the interpolation message lists the
    catalogue) and the world is left exactly as it was.  The method
    setter rejects nothing: any new name is stored and the vertex flag
    set; an unknown name fails only when the method step of a draw runs,
    with a message that does not list the valid names, after the
    view's method-used has been overwritten with it. *)
Theorem C9_rejected_mutators (w : world V) :
  (forall s, s <> "auto" ->
     ImageVisual.clim_setter (ArgStr s) w =
     (Raise (ValueError ("clim must be " ++ dq ++ "auto" ++ dq ++ " if a string")), w)) /\
  (forall c, (forall s, c <> ArgStr s) -> (forall a b, c <> ArgSeq [a; b]) ->
     ImageVisual.clim_setter c w =
     (Raise (ValueError "clim must have two elements"), w)) /\
  (forall value, a_leb value (a_of_Z B64 0) = true ->
     ImageVisual.gamma_setter value w =
     (Raise (ValueError "gamma must be > 0"), w)) /\
  (forall i, str_in i (_interpolation_names (vis w)) = false ->
     ImageVisual.interpolation_setter i w =
     (Raise (ValueError ("interpolation must be one of " ++
                         str_join ", " (_interpolation_names (vis w)))), w)) /\
  (forall m, m <> _method (vis w) ->
     exists w',
       ImageVisual.method_setter m w = (Ok tt, w') /\
       _method (vis w') = m /\
       _need_vertex_update (vis w') = true) /\
  (forall v vw l a,
     views w !! v = Some vw -> _data (vis w) = Some l -> heap w !! l = Some a ->
     let m := _method (vis w) in
     m <> "auto" -> m <> "subdivide" -> m <> "impostor" ->
     exists w' vw',
       ImageVisual._update_method v w =
       (Raise (ValueError ("Unknown image draw method '" ++ m ++ "'")), w') /\
       views w' !! v = Some vw' /\
       _method_used vw' = Some m /\
       _need_method_update vw' = _need_method_update vw).
Proof.
  repeat split.
  - intros s Hs. unfold ImageVisual.clim_setter.
    erewrite bind_Raise by (apply set_clim_bad_string; exact Hs). reflexivity.
  - intros c Hs Hp. unfold ImageVisual.clim_setter.
    erewrite bind_Raise by (apply set_clim_bad_arity; assumption). reflexivity.
  - intros value Hv. unfold ImageVisual.gamma_setter. rewrite Hv. reflexivity.
  - intros i Hi. unfold ImageVisual.interpolation_setter. vstep.
    rewrite Hi. reflexivity.
  - intros m Hm. rewrite method_setter_run.
    assert (String.eqb (_method (vis w)) m = false) as ->
      by (apply String.eqb_neq; congruence).
    eexists. split; [reflexivity|]. split; reflexivity.
  - intros v vw l a Hv Hd Hl m Ha Hs Hi.
    pose proof (_update_method_run w v vw l a Hv Hd Hl) as Hrun.
    cbv zeta in Hrun. unfold resolved_method in Hrun. fold m in Hrun.
    apply String.eqb_neq in Ha, Hs, Hi. rewrite Ha, Hs, Hi in Hrun.
    eexists. exists (with__method_used (Some m) vw). split; [exact Hrun|].
    split; [|split; reflexivity].
    cbn. eapply lookup_insert_same. exact Hv.
Qed.

End Atomicity.

(** ** What the steps of a draw touch *)

Section TextureFrame.
Context {V : Type} `{Arith V}.

Lemma same_visual_refl (w : world V) : same_visual w w.
Proof. repeat split. Qed.

Lemma same_visual_trans (w1 w2 w3 : world V) :
  same_visual w1 w2 -> same_visual w2 w3 -> same_visual w1 w3.
Proof.
  intros (? & ? & ?) (? & ? & ?). repeat split; congruence.
Qed.

Lemma same_visual_tex_assign f : preserves (same_visual (V:=V)) (tex_assign f).
Proof. apply preserves_modify. intros w. repeat split. Qed.

Lemma same_visual_alloc a : preserves (same_visual (V:=V)) (alloc a).
Proof. intros w r w' Hr. inversion Hr; subst. repeat split. Qed.

Lemma same_visual_store l a : preserves (same_visual (V:=V)) (store l a).
Proof. apply preserves_modify. intros w. repeat split. Qed.

Lemma same_visual_warn msg : preserves (same_visual (V:=V)) (warn msg).
Proof. apply preserves_modify. intros w. repeat split. Qed.

Ltac tex_frame :=
  repeat first
    [ apply same_visual_tex_assign
    | apply same_visual_alloc
    | apply same_visual_store
    | apply same_visual_warn
    | frame_step (@same_visual V) same_visual_refl same_visual_trans
    | frame_case ].

Lemma same_visual__scale_data_on_cpu data clim :
  preserves same_visual (ScalableTexture2D._scale_data_on_cpu data clim).
Proof. unfold ScalableTexture2D._scale_data_on_cpu. tex_frame. Qed.

Lemma same_visual_set_data data :
  preserves same_visual (ScalableTexture2D.set_data data).
Proof.
  unfold ScalableTexture2D.set_data, Texture2D_set_data.
  tex_frame; try apply same_visual__scale_data_on_cpu.
Qed.

Lemma same_visual_set_clim c :
  preserves same_visual (ScalableTexture2D.set_clim c).
Proof.
  unfold ScalableTexture2D.set_clim.
  destruct c; tex_frame.
Qed.

End TextureFrame.

Section StepFrame.
Context {V : Type} `{Arith V}.
Context (own : list event).

Lemma step_frame_refl (w : world V) : step_frame own w w.
Proof. repeat split; auto. intros u Hu; exact Hu. Qed.

Lemma step_frame_trans (w1 w2 w3 : world V) :
  step_frame own w1 w2 -> step_frame own w2 w3 -> step_frame own w1 w3.
Proof.
  intros (Ht1 & Hf1 & Hv1) (Ht2 & Hf2 & Hv2). repeat split.
  - congruence.
  - intros e He. rewrite Hf2, Hf1 by exact He. reflexivity.
  - intros u Hu. apply Hv2, Hv1, Hu.
Qed.

Lemma same_visual_step_frame (w w' : world V) :
  same_visual w w' -> step_frame own w w'.
Proof.
  intros (Hvis & Hviews & Htr). repeat split.
  - exact Htr.
  - intros e _. unfold flag_of. rewrite Hvis, Hviews. reflexivity.
  - intros u Hu. rewrite Hviews. exact Hu.
Qed.

Lemma step_frame_of_same_visual {A} (c : M (world V) A) :
  preserves (@same_visual V) c -> preserves (step_frame own) c.
Proof. intros Hc w r w' Hr. apply same_visual_step_frame. eapply Hc, Hr. Qed.

Lemma step_frame_tex_assign (f : texture V -> texture V) :
  preserves (step_frame own) (tex_assign f).
Proof. apply step_frame_of_same_visual, same_visual_tex_assign. Qed.

(** An assignment on the visual that leaves the flags outside [own]
    as they are. *)
Lemma step_frame_vis_assign (f : visual V -> visual V) :
  (forall w e, ~ In e own -> flag_of (upd_vis f w) e = flag_of w e) ->
  preserves (step_frame own) (vis_assign f).
Proof.
  intros Hf. apply preserves_modify. intros w. repeat split.
  - intros e He. apply Hf, He.
  - intros u Hu. exact Hu.
Qed.

Lemma views_kept_view_assign (w : world V) v f :
  views_kept w (upd_views (fun l => match l !! v with
                                    | Some vw => <[v := f vw]> l
                                    | None => l
                                    end) w).
Proof.
  intros u Hu. cbn. destruct (views w !! v) as [vw|]; [|exact Hu].
  apply lookup_lt_is_Some. rewrite length_insert.
  apply lookup_lt_is_Some. exact Hu.
Qed.

Lemma flag_view_assign (w : world V) v f e :
  (e = EvMethod v ->
   forall vw, views w !! v = Some vw ->
              _need_method_update (f vw) = _need_method_update vw) ->
  flag_of (upd_views (fun l => match l !! v with
                               | Some vw => <[v := f vw]> l
                               | None => l
                               end) w) e = flag_of w e.
Proof.
  intros Hf. destruct e as [| | | |u]; try reflexivity. cbn.
  destruct (views w !! v) as [vw|] eqn:Hv; [|reflexivity].
  destruct (decide (u = v)) as [->|Hne].
  - rewrite (lookup_insert_same _ _ _ _ Hv), Hv. apply Hf; auto.
  - rewrite list_lookup_insert_ne by congruence. reflexivity.
Qed.

(** An assignment on a view that leaves its method flag as it is. *)
Lemma step_frame_view_assign v (f : view -> view) :
  (forall vw, _need_method_update (f vw) = _need_method_update vw) ->
  preserves (step_frame own) (view_assign (V:=V) v f).
Proof.
  intros Hf. apply preserves_modify. intros w. repeat split.
  - intros e He. apply flag_view_assign. intros _ vw _. apply Hf.
  - apply views_kept_view_assign.
Qed.

(** An assignment to the method flag of a view by the step that owns it. *)
Lemma step_frame_view_assign_own v (f : view -> view) :
  In (EvMethod v) own -> preserves (step_frame own) (view_assign (V:=V) v f).
Proof.
  intros Hin. apply preserves_modify. intros w. repeat split.
  - intros e He. apply flag_view_assign. intros ->. contradiction.
  - apply views_kept_view_assign.
Qed.

(** A step is its log entry followed by its body. *)
Lemma step_log e (body : M (world V) unit) w r w' :
  preserves (step_frame own) body ->
  (log e ;; body) w = (r, w') ->
  trace w' = (trace w ++ [e])%list /\ flags_kept own w w' /\ views_kept w w'.
Proof.
  intros Hb Hr. apply Hb in Hr. destruct Hr as (Ht & Hf & Hv).
  repeat split; assumption.
Qed.

End StepFrame.

(** Flags after an assignment on the visual: settle by cases on the flag. *)
Ltac solve_flags :=
  let w := fresh "w" in let e := fresh "e" in let He := fresh "He" in
  intros w e He; destruct e; try reflexivity;
  exfalso; apply He; cbn; auto.

Ltac step_frame_prim own :=
  repeat
    match goal with
    | |- @preserves ?V _ _ _ =>
        first
          [ apply (@step_frame_tex_assign V own)
          | apply (@step_frame_vis_assign V own); solve_flags
          | apply (@step_frame_view_assign V own); intros ?; reflexivity
          | apply (@step_frame_view_assign_own V own); cbn; now auto
          | frame_step (@step_frame V own) (@step_frame_refl V own)
                       (@step_frame_trans V own)
          | frame_case
          | progress cbv zeta ]
    end.

Section Steps.
Context {V : Type} `{Arith V}.

Lemma step_frame_size own : preserves (step_frame own) (ImageVisual.size (V:=V)).
Proof. unfold ImageVisual.size. step_frame_prim own. Qed.

Lemma step_frame_lookup_fn_setitem own k name x :
  preserves (step_frame own) (ImageVisual.lookup_fn_setitem (V:=V) k name x).
Proof. unfold ImageVisual.lookup_fn_setitem. step_frame_prim own. Qed.

Lemma step_frame__prepare_transforms own v :
  preserves (step_frame own) (ImageVisual._prepare_transforms (V:=V) v).
Proof. unfold ImageVisual._prepare_transforms. step_frame_prim own. Qed.

Lemma step_frame_set_data own data :
  preserves (step_frame own) (ScalableTexture2D.set_data (V:=V) data).
Proof. apply step_frame_of_same_visual, same_visual_set_data. Qed.

Lemma step_frame_set_clim own c :
  preserves (step_frame own) (ScalableTexture2D.set_clim (V:=V) c).
Proof. apply step_frame_of_same_visual, same_visual_set_clim. Qed.

End Steps.

Ltac step_frame_auto own :=
  repeat
    match goal with
    | |- @preserves ?V _ _ _ =>
        first
          [ apply step_frame_size
          | apply step_frame_lookup_fn_setitem
          | apply step_frame__prepare_transforms
          | apply step_frame_set_data
          | apply step_frame_set_clim
          | apply (@step_frame_tex_assign V own)
          | apply (@step_frame_vis_assign V own); solve_flags
          | apply (@step_frame_view_assign V own); intros ?; reflexivity
          | apply (@step_frame_view_assign_own V own); cbn; now auto
          | frame_step (@step_frame V own) (@step_frame_refl V own)
                       (@step_frame_trans V own)
          | frame_case
          | progress cbv zeta ]
    end.

Section StepRelations.
Context {V : Type} `{Arith V}.

Ltac step_rel_start :=
  let w := fresh "w" in let r := fresh "r" in
  let w' := fresh "w'" in let Hr := fresh "Hr" in
  intros w r w' Hr; eapply step_log; [|exact Hr].

Lemma step_rel__build_interpolation :
  preserves (step_rel EvInterpolation (owned EvInterpolation))
    (ImageVisual._build_interpolation (V:=V)).
Proof.
  step_rel_start. step_frame_auto [EvInterpolation].
Qed.

Lemma step_rel__build_texture :
  preserves (step_rel EvTexture (owned EvTexture))
    (ImageVisual._build_texture (V:=V)).
Proof.
  step_rel_start. step_frame_auto [EvTexture; EvColorTransform].
Qed.

Lemma step_rel_rebuild_color_transform v :
  preserves (step_rel EvColorTransform (owned EvColorTransform))
    (ImageVisual.rebuild_color_transform (V:=V) v).
Proof. step_rel_start. step_frame_auto [EvColorTransform]. Qed.

Lemma step_rel__build_vertex_data :
  preserves (step_rel EvVertex (owned EvVertex))
    (ImageVisual._build_vertex_data (V:=V)).
Proof.
  step_rel_start. step_frame_auto [EvVertex].
Qed.

Lemma step_rel__update_method u :
  preserves (step_rel (EvMethod u) (owned (EvMethod u)))
    (ImageVisual._update_method (V:=V) u).
Proof.
  step_rel_start. step_frame_auto [EvMethod u].
Qed.

(** Every step logs itself and writes no flag it does not own. *)
Lemma step_rel_step_of v e :
  preserves (step_rel e (owned e)) (step_of (V:=V) v e).
Proof.
  destruct e; cbn [step_of].
  - apply step_rel__build_interpolation.
  - apply step_rel__build_texture.
  - apply step_rel_rebuild_color_transform.
  - apply step_rel__build_vertex_data.
  - apply step_rel__update_method.
Qed.

End StepRelations.

(** ** What a step has achieved when it returns *)

Ltac ensures_descend :=
  repeat first
    [ apply ensures_bind; intros ?
    | apply ensures_raise
    | progress cbv zeta
    | match goal with
      | |- ensures _ (match ?x with _ => _ end) => destruct x
      | |- ensures _ (if ?x then _ else _) => destruct x
      end ].

(** A tail of plain assignments: run it. *)
Ltac ensures_tail :=
  let w := fresh "w" in let a := fresh "a" in
  let w' := fresh "w'" in let Hr := fresh "Hr" in
  intros w a w' Hr;
  unfold vis_assign, tex_assign, view_assign, modify, mbind, M_bind, mret, M_ret
    in Hr;
  inversion Hr; subst; clear Hr.

Section Achieved.
Context {V : Type} `{Arith V}.

Lemma cleared__build_interpolation :
  ensures (fun w => flag_of w EvInterpolation = false)
    (ImageVisual._build_interpolation (V:=V)).
Proof.
  unfold ImageVisual._build_interpolation. ensures_descend.
  ensures_tail. reflexivity.
Qed.

Lemma cleared__build_texture :
  ensures (fun w => flag_of w EvTexture = false /\
                    flag_of w EvColorTransform = true)
    (ImageVisual._build_texture (V:=V)).
Proof.
  unfold ImageVisual._build_texture.
  do 3 (apply ensures_bind; intros ?).
  ensures_tail. split; reflexivity.
Qed.

Lemma cleared_rebuild_color_transform v :
  ensures (fun w => flag_of w EvColorTransform = false)
    (ImageVisual.rebuild_color_transform (V:=V) v).
Proof.
  unfold ImageVisual.rebuild_color_transform.
  do 6 (apply ensures_bind; intros ?).
  ensures_tail. reflexivity.
Qed.

Lemma cleared__build_vertex_data :
  ensures (fun w => flag_of w EvVertex = false)
    (ImageVisual._build_vertex_data (V:=V)).
Proof.
  unfold ImageVisual._build_vertex_data. ensures_descend.
  ensures_tail. reflexivity.
Qed.

Lemma cleared__update_method u :
  ensures (fun w => flag_of w (EvMethod u) = false)
    (ImageVisual._update_method (V:=V) u).
Proof.
  unfold ImageVisual._update_method.
  do 7 (apply ensures_bind; intros ?).
  intros w a' w' Hr.
  destruct (views w !! u) as [vw|] eqn:Hv.
  - erewrite bind_Ok in Hr by (apply view_assign_Some; exact Hv).
    erewrite _prepare_transforms_run in Hr by solve_view.
    inversion Hr; subst; clear Hr. cbn.
    erewrite lookup_insert_same by (eapply lookup_insert_same; exact Hv).
    destruct (opt_str_eqb _ _); reflexivity.
  - cbn. unfold mbind, M_bind, view_assign, modify, upd_views in Hr.
    rewrite Hv in Hr. cbn in Hr.
    unfold ImageVisual._prepare_transforms, mbind, M_bind, the_view in Hr.
    cbn in Hr. rewrite Hv in Hr. discriminate.
Qed.

(** Every step that returns has cleared its own flag. *)
Lemma cleared_step_of v e :
  ensures (fun w => flag_of w e = false) (step_of (V:=V) v e).
Proof.
  destruct e; cbn [step_of].
  - apply cleared__build_interpolation.
  - intros w a w' Hr. eapply cleared__build_texture. exact Hr.
  - apply cleared_rebuild_color_transform.
  - apply cleared__build_vertex_data.
  - apply cleared__update_method.
Qed.

End Achieved.

(** ** The draw follows the schedule *)

Lemma bind_gets {S A B} (f : S -> A) (k : A -> M S B) s :
  (gets f ≫= k) s = k (f s) s.
Proof. reflexivity. Qed.

Lemma bind_ext_on {S A B} (c : M S A) (f g : A -> M S B) s :
  (forall a s', c s = (Ok a, s') -> f a s' = g a s') ->
  (c ≫= f) s = (c ≫= g) s.
Proof.
  intros Hfg. unfold mbind, M_bind.
  destruct (c s) as [[a|e] s'] eqn:Hc; [apply Hfg; reflexivity | reflexivity].
Qed.

Section Draw.
Context {V : Type} `{Arith V}.

Lemma run_steps_cons {B} v e es (k : unit -> M (world V) B) w :
  (run_steps v (e :: es) ≫= k) w =
  (when (flag_of w e) (step_of v e) ≫= fun _ => run_steps v es ≫= k) w.
Proof.
  cbn [run_steps]. unfold mbind, M_bind, get.
  destruct (when (flag_of w e) (step_of v e) w) as [[[]|?] ?]; reflexivity.
Qed.

Lemma when_views_kept v b e (w w1 : world V) r :
  when b (step_of v e) w = (r, w1) -> views_kept w w1.
Proof.
  destruct b; cbn [when].
  - intros Hr. apply step_rel_step_of in Hr. apply Hr.
  - intros Hr. inversion Hr; subst. intros u Hu; exact Hu.
Qed.

Lemma _prepare_draw_no_data v (w : world V) :
  _data (vis w) = None -> ImageVisual._prepare_draw v w = (Ok RetFalse, w).
Proof.
  intros Hd. unfold ImageVisual._prepare_draw. rewrite bind_gets, Hd.
  reflexivity.
Qed.

Lemma _prepare_draw_schedule v (w : world V) :
  _data (vis w) <> None -> is_Some (views w !! v) ->
  ImageVisual._prepare_draw v w =
  (run_steps v (draw_order v) ;; mret RetNone) w.
Proof.
  intros Hd Hv. unfold ImageVisual._prepare_draw. rewrite bind_gets.
  destruct (_data (vis w)) as [l|]; [clear Hd|congruence].
  unfold draw_order.
  rewrite run_steps_cons. apply bind_ext_on. intros [] w1 Hr1.
  apply when_views_kept in Hr1. apply Hr1 in Hv. clear Hr1 w.
  rewrite bind_gets, run_steps_cons. apply bind_ext_on. intros [] w2 Hr2.
  apply when_views_kept in Hr2. apply Hr2 in Hv. clear Hr2 w1.
  rewrite bind_gets, run_steps_cons. apply bind_ext_on. intros [] w3 Hr3.
  apply when_views_kept in Hr3. apply Hr3 in Hv. clear Hr3 w2.
  rewrite bind_gets, run_steps_cons. apply bind_ext_on. intros [] w4 Hr4.
  apply when_views_kept in Hr4. apply Hr4 in Hv. clear Hr4 w3.
  rewrite run_steps_cons. destruct Hv as [vw Hv].
  erewrite bind_Ok by (apply the_view_Some; exact Hv).
  cbn [flag_of]. rewrite Hv. apply bind_ext_on. intros [] w5 _. reflexivity.
Qed.


Lemma bind_inv {S A B} (c : M S A) (f : A -> M S B) s r s' :
  (c ≫= f) s = (r, s') ->
  (exists a s1, c s = (Ok a, s1) /\ f a s1 = (r, s')) \/
  (exists e, c s = (Raise e, s') /\ r = Raise e).
Proof.
  unfold mbind, M_bind. destruct (c s) as [[a|e] s1]; intros Hr.
  - left. eauto.
  - right. inversion Hr; subst. eauto.
Qed.

(** One turn of the schedule. *)
Lemma when_step v e (w w1 : world V) r :
  when (flag_of w e) (step_of v e) w = (r, w1) ->
  trace w1 = (trace w ++ if flag_of w e then [e] else [])%list /\
  flags_kept (owned e) w w1 /\
  (forall a, r = Ok a -> flag_of w1 e = false) /\
  (forall a, r = Ok a -> e = EvTexture ->
     flag_of w1 EvColorTransform =
     flag_of w EvTexture || flag_of w EvColorTransform).
Proof.
  destruct (flag_of w e) eqn:Hf; cbn [when]; intros Hr.
  - pose proof (step_rel_step_of v e _ _ _ Hr) as (Ht & Hk & _).
    split; [exact Ht|]. split; [exact Hk|]. split.
    + intros a ->. eapply cleared_step_of. exact Hr.
    + intros a -> ->. cbn [step_of] in Hr.
      apply cleared__build_texture in Hr. destruct Hr as [_ ->].
      cbn in Hf. cbn. rewrite Hf. reflexivity.
  - inversion Hr; subst. split; [|split; [|split]].
    + rewrite app_nil_r. reflexivity.
    + intros e' _. reflexivity.
    + intros _ _. exact Hf.
    + intros _ _ ->. cbn in Hf. cbn. rewrite Hf. reflexivity.
Qed.

Lemma scheduled_segments (w : world V) v :
  scheduled w v =
  (seg EvInterpolation (flag_of w EvInterpolation) ++
   seg EvTexture (flag_of w EvTexture) ++
   seg EvColorTransform (flag_of w EvTexture || flag_of w EvColorTransform) ++
   seg EvVertex (flag_of w EvVertex) ++
   seg (EvMethod v) (flag_of w (EvMethod v)))%list.
Proof.
  unfold scheduled, draw_order.
  repeat rewrite filter_cons. rewrite filter_nil.
  destruct (flag_of w EvInterpolation), (flag_of w EvTexture),
    (flag_of w EvColorTransform), (flag_of w EvVertex),
    (flag_of w (EvMethod v));
    repeat case_decide; try reflexivity; exfalso; intuition congruence.
Qed.

(** The log of a draw: the steps started are an initial part of the
    schedule, the whole of it when the draw returns, and then every
    flag of the schedule is clear. *)
Lemma _prepare_draw_trace v (w w' : world V) r :
  _data (vis w) <> None -> is_Some (views w !! v) ->
  ImageVisual._prepare_draw v w = (r, w') ->
  exists done,
    trace w' = (trace w ++ done)%list /\
    done `prefix_of` scheduled w v /\
    (forall a, r = Ok a ->
       done = scheduled w v /\
       forall e, In e (draw_order v) -> flag_of w' e = false).
Proof.
  intros Hd Hv Hrun. rewrite _prepare_draw_schedule in Hrun by assumption.
  unfold draw_order in Hrun. rewrite scheduled_segments.
  set (s1 := seg EvInterpolation (flag_of w EvInterpolation)).
  set (s2 := seg EvTexture (flag_of w EvTexture)).
  set (s3 := seg EvColorTransform (flag_of w EvTexture || flag_of w EvColorTransform)).
  set (s4 := seg EvVertex (flag_of w EvVertex)).
  set (s5 := seg (EvMethod v) (flag_of w (EvMethod v))).
  (* interpolation *)
  rewrite run_steps_cons in Hrun.
  apply bind_inv in Hrun as [([] & w1 & H1 & Hrun)|(x & H1 & ->)];
    apply when_step in H1 as (T1 & K1 & C1 & _); fold s1 in T1.
  2: { exists s1. split; [exact T1|]. split; [|intros a Ha; discriminate].
       apply prefix_app_r. reflexivity. }
  assert (F2 : flag_of w1 EvTexture = flag_of w EvTexture)
    by (apply K1; cbn; intuition discriminate).
  assert (F3 : flag_of w1 EvColorTransform = flag_of w EvColorTransform)
    by (apply K1; cbn; intuition discriminate).
  assert (F4 : flag_of w1 EvVertex = flag_of w EvVertex)
    by (apply K1; cbn; intuition discriminate).
  assert (F5 : flag_of w1 (EvMethod v) = flag_of w (EvMethod v))
    by (apply K1; cbn; intuition discriminate).
  (* texture *)
  rewrite run_steps_cons in Hrun.
  apply bind_inv in Hrun as [([] & w2 & H2 & Hrun)|(x & H2 & ->)];
    apply when_step in H2 as (T2 & K2 & C2 & X2);
    rewrite F2 in T2; fold s2 in T2; rewrite T1 in T2.
  2: { exists (s1 ++ s2)%list. split; [rewrite T2, app_assoc; reflexivity|].
       split; [|intros a Ha; discriminate].
       apply prefix_app, prefix_app_r. reflexivity. }
  specialize (X2 tt eq_refl eq_refl). rewrite F2, F3 in X2.
  assert (G1 : flag_of w2 EvInterpolation = false)
    by (rewrite K2 by (cbn; intuition discriminate); eapply C1; reflexivity).
  assert (G4 : flag_of w2 EvVertex = flag_of w EvVertex)
    by (rewrite K2 by (cbn; intuition discriminate); exact F4).
  assert (G5 : flag_of w2 (EvMethod v) = flag_of w (EvMethod v))
    by (rewrite K2 by (cbn; intuition discriminate); exact F5).
  specialize (C2 tt eq_refl).
  (* colour transform *)
  rewrite run_steps_cons in Hrun.
  apply bind_inv in Hrun as [([] & w3 & H3 & Hrun)|(x & H3 & ->)];
    apply when_step in H3 as (T3 & K3 & C3 & _);
    rewrite X2 in T3; fold s3 in T3; rewrite T2 in T3.
  2: { exists (s1 ++ s2 ++ s3)%list.
       split; [rewrite T3, <- !app_assoc; reflexivity|].
       split; [|intros a Ha; discriminate].
       do 2 apply prefix_app. apply prefix_app_r. reflexivity. }
  assert (I1 : flag_of w3 EvInterpolation = false)
    by (rewrite K3 by (cbn; intuition discriminate); exact G1).
  assert (I2 : flag_of w3 EvTexture = false)
    by (rewrite K3 by (cbn; intuition discriminate); exact C2).
  assert (I4 : flag_of w3 EvVertex = flag_of w EvVertex)
    by (rewrite K3 by (cbn; intuition discriminate); exact G4).
  assert (I5 : flag_of w3 (EvMethod v) = flag_of w (EvMethod v))
    by (rewrite K3 by (cbn; intuition discriminate); exact G5).
  specialize (C3 tt eq_refl).
  (* vertex data *)
  rewrite run_steps_cons in Hrun.
  apply bind_inv in Hrun as [([] & w4 & H4 & Hrun)|(x & H4 & ->)];
    apply when_step in H4 as (T4 & K4 & C4 & _);
    rewrite I4 in T4; fold s4 in T4; rewrite T3 in T4.
  2: { exists (s1 ++ s2 ++ s3 ++ s4)%list.
       split; [rewrite T4, <- !app_assoc; reflexivity|].
       split; [|intros a Ha; discriminate].
       do 3 apply prefix_app. apply prefix_app_r. reflexivity. }
  assert (J1 : flag_of w4 EvInterpolation = false)
    by (rewrite K4 by (cbn; intuition discriminate); exact I1).
  assert (J2 : flag_of w4 EvTexture = false)
    by (rewrite K4 by (cbn; intuition discriminate); exact I2).
  assert (J3 : flag_of w4 EvColorTransform = false)
    by (rewrite K4 by (cbn; intuition discriminate); exact C3).
  assert (J5 : flag_of w4 (EvMethod v) = flag_of w (EvMethod v))
    by (rewrite K4 by (cbn; intuition discriminate); exact I5).
  specialize (C4 tt eq_refl).
  (* method *)
  rewrite run_steps_cons in Hrun.
  apply bind_inv in Hrun as [([] & w5 & H5 & Hrun)|(x & H5 & ->)];
    apply when_step in H5 as (T5 & K5 & C5 & _);
    rewrite J5 in T5; fold s5 in T5; rewrite T4 in T5.
  2: { exists (s1 ++ s2 ++ s3 ++ s4 ++ s5)%list.
       split; [rewrite T5, <- !app_assoc; reflexivity|].
       split; [reflexivity|intros a Ha; discriminate]. }
  cbn in Hrun. inversion Hrun; subst; clear Hrun.
  exists (s1 ++ s2 ++ s3 ++ s4 ++ s5)%list.
  split; [rewrite T5, <- !app_assoc; reflexivity|].
  split; [reflexivity|]. intros a _. split; [reflexivity|].
  intros e [<-|[<-|[<-|[<-|[<-|[]]]]]].
  - rewrite K5 by (cbn; intuition discriminate). exact J1.
  - rewrite K5 by (cbn; intuition discriminate). exact J2.
  - rewrite K5 by (cbn; intuition discriminate). exact J3.
  - rewrite K5 by (cbn; intuition discriminate). exact C4.
  - eapply C5. reflexivity.
Qed.

(** C4 (as the code has it). A draw with no raster returns [False] and
    changes nothing.  Otherwise it is the fixed schedule interpolation,
    texture, colour transform, vertex data, method, each step run only
    if its flag is set when its turn comes; the steps logged are an
    initial part of the schedule and, when the draw returns, all of it,
    with every flag clear.  Each step logs itself once, clears its own
    flag when it returns and writes no other flag, with one exception:
    the texture step also sets the colour-transform flag, so that a
    texture upload is always followed by a rebuild of the chain. *)
Theorem C4_draw_schedule (w : world V) v :
  is_Some (views w !! v) ->
  (_data (vis w) = None -> ImageVisual._prepare_draw v w = (Ok RetFalse, w)) /\
  (_data (vis w) <> None ->
     ImageVisual._prepare_draw v w =
       (run_steps v (draw_order v) ;; mret RetNone) w /\
     forall r w', ImageVisual._prepare_draw v w = (r, w') ->
       exists done,
         trace w' = (trace w ++ done)%list /\
         done `prefix_of` scheduled w v /\
         (forall a, r = Ok a ->
            done = scheduled w v /\
            forall e, In e (draw_order v) -> flag_of w' e = false)) /\
  (forall e w1 r w2, step_of v e w1 = (r, w2) ->
     trace w2 = (trace w1 ++ [e])%list /\
     (forall e', ~ In e' (owned e) -> flag_of w2 e' = flag_of w1 e') /\
     (forall a, r = Ok a -> flag_of w2 e = false) /\
     (forall a, r = Ok a -> e = EvTexture ->
        flag_of w2 EvColorTransform = true)).
Proof.
  intros Hv. split; [|split].
  - apply _prepare_draw_no_data.
  - intros Hd. split.
    + apply _prepare_draw_schedule; assumption.
    + intros r w' Hrun. eapply _prepare_draw_trace; eassumption.
  - intros e w1 r w2 Hr.
    pose proof (step_rel_step_of v e _ _ _ Hr) as (Ht & Hk & _).
    split; [exact Ht|]. split; [exact Hk|]. split.
    + intros a ->. eapply cleared_step_of. exact Hr.
    + intros a -> ->. cbn [step_of] in Hr.
      apply cleared__build_texture in Hr. apply Hr.
Qed.
End Draw.

(** ** Cheap updates of the colour chain *)

Lemma topology_insert {V} (chain : FunctionChain V) i name x f :
  chain !! i = Some f ->
  topology (<[i := fn_setitem name x f]> chain) = topology chain.
Proof.
  revert i. induction chain as [|g chain IH]; intros [|i] Hi; simplify_eq/=.
  - reflexivity.
  - unfold topology in *. cbn. f_equal. apply IH. exact Hi.
Qed.

Section CheapUpdates.
Context {V : Type} `{Arith V}.

Lemma color_transform_setitem_run i name (x : slot V) (w : world V) :
  ImageVisual.color_transform_setitem i name x w =
  match frag_color_transform (vis w) with
  | None => (Raise (KeyError "color_transform"), w)
  | Some chain =>
      match chain !! i with
      | None => (Raise (IndexError "list index out of range"), w)
      | Some f =>
          (Ok tt, upd_vis (with_frag_color_transform
                             (Some (<[i := fn_setitem name x f]> chain))) w)
      end
  end.
Proof.
  unfold ImageVisual.color_transform_setitem. rewrite bind_gets.
  destruct (frag_color_transform (vis w)) as [chain|]; [|reflexivity].
  destruct (chain !! i); reflexivity.
Qed.

(** A gamma assignment with the colour-transform flag clear: no flag
    changes, nothing is logged, and the chain keeps its topology; when
    accepted, the new exponent is bound into stage 2 of the chain. *)
Lemma gamma_setter_in_place (w w' : world V) g r :
  _need_colortransform_update (vis w) = false ->
  ImageVisual.gamma_setter g w = (r, w') ->
  trace w' = trace w /\
  (forall e, flag_of w' e = flag_of w e) /\
  option_map topology (frag_color_transform (vis w')) =
    option_map topology (frag_color_transform (vis w)) /\
  (forall a, r = Ok a ->
     exists chain f,
       frag_color_transform (vis w) = Some chain /\ chain !! 2%nat = Some f /\
       frag_color_transform (vis w') =
         Some (<[2%nat := fn_setitem "gamma" (SlotGamma (a_cast B64 g)) f]> chain)).
Proof.
  intros Hct Hrun. unfold ImageVisual.gamma_setter in Hrun.
  destruct (a_leb g (a_of_Z B64 0)).
  { inversion Hrun; subst. repeat split; intros; discriminate. }
  do 2 (erewrite bind_Ok in Hrun by reflexivity). rewrite bind_gets in Hrun.
  cbn [vis upd_vis _need_colortransform_update with__gamma] in Hrun.
  rewrite Hct in Hrun. cbn [negb when] in Hrun.
  apply bind_inv in Hrun as [([] & w1 & H1 & Hrun)|(x & H1 & ->)];
    rewrite color_transform_setitem_run in H1;
    cbn [vis upd_vis frag_color_transform with__gamma] in H1;
    destruct (frag_color_transform (vis w)) as [chain|] eqn:Hc;
    try destruct (chain !! 2%nat) as [f|] eqn:Hf; simplify_eq.
  - inversion Hrun; subst; clear Hrun. cbn.
    split; [reflexivity|]. split; [intros []; reflexivity|].
    split; [rewrite ?Hc; cbn; f_equal; apply topology_insert; exact Hf|].
    intros _ _. exists chain, f. rewrite ?Hc. auto.
  - cbn. rewrite ?Hc. repeat split; try (intros []; reflexivity).
    intros; discriminate.
  - cbn. rewrite ?Hc. repeat split; try (intros []; reflexivity).
    intros; discriminate.
Qed.


Lemma set_clim_outcome (w w1 : world V) c r :
  ScalableTexture2D.set_clim c w = (r, w1) ->
  same_visual w w1 /\
  match r with
  | Ok need => need = clim_needs_upload (tex w) c
  | Raise _ => w1 = w /\ clim_needs_upload (tex w) c = false
  end.
Proof.
  intros Hr. split; [eapply same_visual_set_clim; exact Hr|].
  unfold ScalableTexture2D.set_clim in Hr.
  destruct c as [s|l|x|]; cbn in Hr.
  - cbn. destruct (String.eqb s "auto"); cbn in Hr; inversion Hr; subst; auto.
  - destruct l as [|a [|b [|? ?]]]; cbn in Hr; inversion Hr; subst; cbn; auto.
  - inversion Hr; subst; auto.
  - inversion Hr; subst; auto.
Qed.

(** A clim assignment with the colour-transform flag clear: nothing is
    logged, the chain keeps its topology and the colour-transform flag
    stays clear; the only flag that can change is the texture-upload
    flag, which is set when the new limits ask for an upload; when the
    assignment returns, the normalised limits are bound into stage 1 of
    the chain. *)
Lemma clim_setter_in_place (w w' : world V) c r :
  _need_colortransform_update (vis w) = false ->
  ImageVisual.clim_setter c w = (r, w') ->
  trace w' = trace w /\
  (forall e, e <> EvTexture -> flag_of w' e = flag_of w e) /\
  flag_of w' EvTexture = flag_of w EvTexture || clim_needs_upload (tex w) c /\
  option_map topology (frag_color_transform (vis w')) =
    option_map topology (frag_color_transform (vis w)) /\
  (forall a, r = Ok a ->
     exists chain f n0 n1,
       frag_color_transform (vis w) = Some chain /\ chain !! 1%nat = Some f /\
       ScalableTexture2D.clim_normalized (tex w') = Ok (n0, n1) /\
       frag_color_transform (vis w') =
         Some (<[1%nat := fn_setitem "clim" (SlotClim n0 n1) f]> chain)).
Proof.
  intros Hct Hrun. unfold ImageVisual.clim_setter in Hrun.
  apply bind_inv in Hrun as [(need & w1 & H1 & Hrun)|(x & H1 & ->)];
    apply set_clim_outcome in H1 as ((Hvis & Hviews & Htr) & Hneed).
  2: { destruct Hneed as [-> ->]. rewrite orb_false_r.
       repeat split; intros; discriminate. }
  subst need.
  set (need := clim_needs_upload (tex w) c) in *.
  apply bind_inv in Hrun as [([] & w2 & H2 & Hrun)|(x & H2 & ->)].
  2: { destruct need; cbn in H2; discriminate. }
  assert (Hw2 : w2 = if need then upd_vis (with__need_texture_upload true) w1
                     else w1).
  { destruct need; cbn in H2; inversion H2; reflexivity. }
  clear H2.
  assert (Hf2 : forall e, e <> EvTexture -> flag_of w2 e = flag_of w e).
  { intros e He. subst w2. unfold flag_of.
    destruct need; cbn; rewrite ?Hvis, ?Hviews;
      destruct e; try reflexivity; congruence. }
  assert (Ht2 : flag_of w2 EvTexture = flag_of w EvTexture || need).
  { subst w2. destruct need; cbn; rewrite ?Hvis;
      rewrite ?orb_true_r, ?orb_false_r; reflexivity. }
  assert (Hc2 : frag_color_transform (vis w2) = frag_color_transform (vis w)).
  { subst w2. destruct need; cbn; rewrite Hvis; reflexivity. }
  assert (Htr2 : trace w2 = trace w).
  { subst w2. destruct need; cbn; exact Htr. }
  assert (Hx2 : tex w2 = tex w1).
  { subst w2. destruct need; reflexivity. }
  rewrite bind_gets in Hrun.
  assert (Hct2 : _need_colortransform_update (vis w2) = false).
  { rewrite <- Hct. apply (Hf2 EvColorTransform). discriminate. }
  rewrite Hct2 in Hrun. cbn [negb when] in Hrun.
  clear Hw2.
  apply bind_inv in Hrun as [([] & w3 & H3 & Hrun)|(x & H3 & ->)].
  - rewrite bind_gets in H3.
    apply bind_inv in H3 as [([n0 n1] & w3' & H3a & H3)|(x & H3a & ?)];
      [|discriminate].
    unfold lift_res in H3a. injection H3a as Hcn Hw. subst w3'.
    rewrite color_transform_setitem_run, Hc2 in H3.
    destruct (frag_color_transform (vis w)) as [chain|] eqn:Hc; [|discriminate].
    destruct (chain !! 1%nat) as [f|] eqn:Hf; [|discriminate].
    inversion H3; subst w3; clear H3.
    inversion Hrun; subst; clear Hrun. cbn.
    split; [exact Htr2|]. split.
    { intros e He. rewrite <- (Hf2 e He). destruct e; reflexivity. }
    split; [exact Ht2|]. split.
    { f_equal. apply topology_insert. exact Hf. }
    intros _ _. exists chain, f, n0, n1. repeat split; assumption.
  - assert (Hw3 : trace w' = trace w2 /\ vis w' = vis w2 /\ views w' = views w2).
    { rewrite bind_gets in H3.
      apply bind_inv in H3 as [([n0 n1] & w3' & H3a & H3)|(y & H3a & ?)].
      - unfold lift_res in H3a. inversion H3a; subst w3'.
        rewrite color_transform_setitem_run in H3.
        destruct (frag_color_transform (vis w2)) as [chain|]; [|inversion H3; auto].
        destruct (chain !! 1%nat); inversion H3; auto.
      - unfold lift_res in H3a. inversion H3a; auto. }
    destruct Hw3 as (Ht3 & Hv3 & Hvs3).
    split; [congruence|]. split.
    { intros e He. rewrite <- (Hf2 e He). unfold flag_of. rewrite Hv3, Hvs3.
      reflexivity. }
    split; [rewrite <- Ht2; unfold flag_of; rewrite Hv3; reflexivity|].
    split; [rewrite Hv3, Hc2; reflexivity|]. intros; discriminate.
Qed.

(** A draw rebuilds the chain only if the colour-transform flag or the
    texture-upload flag is set when it starts, and then it does, if it
    returns. *)
Lemma rebuild_criterion v (w w' : world V) r :
  _data (vis w) <> None -> is_Some (views w !! v) ->
  ImageVisual._prepare_draw v w = (r, w') ->
  exists done,
    trace w' = (trace w ++ done)%list /\
    (In EvColorTransform done ->
       flag_of w EvColorTransform = true \/ flag_of w EvTexture = true) /\
    (forall a, r = Ok a ->
       flag_of w EvColorTransform = true \/ flag_of w EvTexture = true ->
       In EvColorTransform done).
Proof.
  intros Hd Hv Hrun.
  destruct (_prepare_draw_trace v w w' r Hd Hv Hrun) as (done & Ht & Hp & Hok).
  exists done. split; [exact Ht|]. split.
  - intros Hin. apply list_elem_of_In in Hin.
    apply (elem_of_prefix _ _ _ Hin) in Hp. rename Hp into Hin'. clear Hin. rename Hin' into Hin.
    apply list_elem_of_filter in Hin as [[?|[_ ?]] _]; auto.
  - intros a Ha Hf. destruct (Hok a Ha) as [-> _].
    apply list_elem_of_In, list_elem_of_filter. split.
    + destruct Hf; auto.
    + unfold draw_order. apply list_elem_of_In. cbn. auto.
Qed.

Lemma cmap_setter_run (w : world V) cmap :
  exists w',
    ImageVisual.cmap_setter cmap w = (Ok tt, w') /\
    flag_of w' EvColorTransform = true.
Proof. eexists. split; reflexivity. Qed.

Lemma set_data_sets_texture_flag image :
  ensures (fun w => flag_of w EvTexture = true)
    (ImageVisual.set_data (V:=V) image).
Proof.
  unfold ImageVisual.set_data. ensures_descend; ensures_tail; reflexivity.
Qed.

(** C5 (as the code has it). With the colour-transform flag clear, a
    gamma or clim assignment does not touch the topology of the chain
    and does not set the colour-transform flag: it binds the new value
    into the existing stage in place.  A gamma assignment sets no flag
    at all.  A clim assignment sets the texture-upload flag when the
    limits are ["auto"] or leave the recorded data limits.  A draw
    rebuilds the chain exactly when it starts with the colour-transform
    flag or the texture-upload flag set; the colormap setter sets the
    former and every data assignment the latter. *)
Theorem C5_chain_rebuilds (w : world V) :
  (_need_colortransform_update (vis w) = false ->
   (forall g r w', ImageVisual.gamma_setter g w = (r, w') ->
      trace w' = trace w /\
      (forall e, flag_of w' e = flag_of w e) /\
      option_map topology (frag_color_transform (vis w')) =
        option_map topology (frag_color_transform (vis w)) /\
      (forall a, r = Ok a ->
         exists chain f,
           frag_color_transform (vis w) = Some chain /\
           chain !! 2%nat = Some f /\
           frag_color_transform (vis w') =
             Some (<[2%nat := fn_setitem "gamma" (SlotGamma (a_cast B64 g)) f]>
                     chain))) /\
   (forall c r w', ImageVisual.clim_setter c w = (r, w') ->
      trace w' = trace w /\
      (forall e, e <> EvTexture -> flag_of w' e = flag_of w e) /\
      flag_of w' EvTexture =
        flag_of w EvTexture || clim_needs_upload (tex w) c /\
      option_map topology (frag_color_transform (vis w')) =
        option_map topology (frag_color_transform (vis w)) /\
      (forall a, r = Ok a ->
         exists chain f n0 n1,
           frag_color_transform (vis w) = Some chain /\
           chain !! 1%nat = Some f /\
           ScalableTexture2D.clim_normalized (tex w') = Ok (n0, n1) /\
           frag_color_transform (vis w') =
             Some (<[1%nat := fn_setitem "clim" (SlotClim n0 n1) f]> chain)))) /\
  (forall v r w',
     _data (vis w) <> None -> is_Some (views w !! v) ->
     ImageVisual._prepare_draw v w = (r, w') ->
     exists done,
       trace w' = (trace w ++ done)%list /\
       (In EvColorTransform done ->
          flag_of w EvColorTransform = true \/ flag_of w EvTexture = true) /\
       (forall a, r = Ok a ->
          flag_of w EvColorTransform = true \/ flag_of w EvTexture = true ->
          In EvColorTransform done)) /\
  (forall cmap, exists w',
     ImageVisual.cmap_setter cmap w = (Ok tt, w') /\
     flag_of w' EvColorTransform = true) /\
  (forall image a w',
     ImageVisual.set_data image w = (Ok a, w') -> flag_of w' EvTexture = true).
Proof.
  split; [|split; [|split]].
  - intros Hct. split.
    + intros g r w' Hrun. eapply gamma_setter_in_place; eassumption.
    + intros c r w' Hrun. eapply clim_setter_in_place; eassumption.
  - intros v r w' Hd Hv Hrun. eapply rebuild_criterion; eassumption.
  - apply cmap_setter_run.
  - intros image a w' Hrun. eapply set_data_sets_texture_flag. exact Hrun.
Qed.
End CheapUpdates.

(** ** CPU scaling *)

Lemma insert_snoc {A} (h : list A) (x y : A) :
  <[length h := x]> (h ++ [y])%list = (h ++ [x])%list.
Proof.
  induction h as [|z h IH]; cbn; [reflexivity|]. f_equal. exact IH.
Qed.

Lemma mapM_res_Ok {A B} (f : A -> B) (l : list A) :
  mapM_res (fun x => Ok (f x)) l = Ok (map f l).
Proof.
  induction l as [|x l IH]; cbn; [reflexivity|]. rewrite IH. reflexivity.
Qed.

Section ScalingRun.
Context {V : Type} `{Arith V}.

Lemma heap_kept_refl (w : world V) : heap_kept w w.
Proof. intros l a Hl. exact Hl. Qed.

Lemma heap_kept_trans (w1 w2 w3 : world V) :
  heap_kept w1 w2 -> heap_kept w2 w3 -> heap_kept w1 w3.
Proof. intros H12 H23 l a Hl. apply H23, H12, Hl. Qed.

(** [_scale_data_on_cpu] leaves every existing array as it is, does not
    touch the texture, and returns a new array: the raster narrowed if
    needed, shifted by the lower limit, and then divided or flattened. *)
Lemma _scale_data_on_cpu_run (w : world V) data a cmin cmax :
  heap w !! data = Some a ->
  exists w' l',
    ScalableTexture2D._scale_data_on_cpu data (cmin, cmax) w =
      (match cpu_scaled a cmin cmax with
       | Ok _ => Ok l'
       | Raise e => Raise e
       end, w') /\
    heap_kept w w' /\ tex w' = tex w /\
    (forall up, cpu_scaled a cmin cmax = Ok up -> heap w' !! l' = Some up).
Proof.
  intros Hl. unfold cpu_scaled.
  set (a2 := sub_scalar (narrowed a) cmin).
  unfold ScalableTexture2D._scale_data_on_cpu.
  erewrite bind_Ok by (apply load_Some; exact Hl).
  assert (exists w1 l1,
    (if decide (nd_dtype a = float64)
     then alloc (astype_float32 a) else mret data) w = (Ok l1, w1) /\
    heap_kept w w1 /\ tex w1 = tex w /\ heap w1 !! l1 = Some (narrowed a))
    as (w1 & l1 & Hn & Hk1 & Ht1 & Hl1).
  { unfold narrowed. destruct (decide (nd_dtype a = float64)).
    - eexists _, _. split; [reflexivity|]. split; [|split].
      + intros l b Hb. cbn. apply lookup_snoc_old. exact Hb.
      + reflexivity.
      + apply lookup_snoc.
    - exists w, data. split; [reflexivity|]. split; [apply heap_kept_refl|].
      split; [reflexivity|exact Hl]. }
  erewrite bind_Ok by exact Hn.
  erewrite bind_Ok by (apply load_Some; exact Hl1).
  erewrite bind_Ok by reflexivity.
  cbn [fst snd]. fold a2.
  set (w2 := upd_heap (fun h => (h ++ [a2])%list) w1).
  set (l2 := length (heap w1)).
  assert (Hl2 : heap w2 !! l2 = Some a2) by apply lookup_snoc.
  assert (Hk2 : heap_kept w w2).
  { intros l b Hb. cbn. apply lookup_snoc_old, Hk1, Hb. }
  assert (Hst : forall x, heap_kept w (upd_heap (fun h => <[l2 := x]> h) w2) /\
                          heap (upd_heap (fun h => <[l2 := x]> h) w2) !! l2 = Some x).
  { intros x. unfold w2, l2. split.
    - intros l b Hb. cbn. rewrite insert_snoc. apply lookup_snoc_old, Hk1, Hb.
    - cbn. rewrite insert_snoc. apply lookup_snoc. }
  destruct (a_ltb (a_of_Z B32 0) (a_sub B32 cmax cmin)).
  - destruct (idiv_scalar a2 (a_sub B32 cmax cmin)) as [a3|e] eqn:Hdiv.
    + erewrite bind_Ok; cycle 1.
      { erewrite bind_Ok by (apply load_Some; exact Hl2).
        unfold lift_res. rewrite Hdiv. reflexivity. }
      eexists _, l2. split; [reflexivity|]. destruct (Hst a3) as [Hk3 Hl3].
      split; [exact Hk3|]. split; [exact Ht1|].
      intros up Hup. simplify_eq. exact Hl3.
    + erewrite bind_Raise; cycle 1.
      { erewrite bind_Ok by (apply load_Some; exact Hl2).
        unfold lift_res. rewrite Hdiv. reflexivity. }
      eexists _, l2. split; [reflexivity|].
      split; [exact Hk2|]. split; [exact Ht1|]. intros; discriminate.
  - destruct (corner_nonzero a2) as [b|e] eqn:Hcor.
    + erewrite bind_Ok; cycle 1.
      { erewrite bind_Ok by (apply load_Some; exact Hl2).
        unfold lift_res. rewrite Hcor. reflexivity. }
      eexists _, l2. split; [reflexivity|].
      destruct (Hst (fill a2 (if b then 1 else 0))) as [Hk3 Hl3].
      split; [exact Hk3|]. split; [exact Ht1|].
      intros up Hup. simplify_eq. exact Hl3.
    + erewrite bind_Raise; cycle 1.
      { erewrite bind_Ok by (apply load_Some; exact Hl2).
        unfold lift_res. rewrite Hcor. reflexivity. }
      eexists _, l2. split; [reflexivity|].
      split; [exact Hk2|]. split; [exact Ht1|]. intros; discriminate.
Qed.


(** [set_data] on a CPU-scaled texture with a single-band raster. *)
Lemma set_data_cpu_single (w : world V) data a cmin cmax up :
  heap w !! data = Some a ->
  _scale_texture_gpu (tex w) = false ->
  ScalableTexture2D.is_single_band a = Ok true ->
  resolved_clim (tex w) a = Ok (cmin, cmax) ->
  cpu_scaled a cmin cmax = Ok up ->
  exists w',
    ScalableTexture2D.set_data data w = (Ok tt, w') /\
    heap_kept w w' /\
    tex w' = with_uploaded (Some up)
               (with__data_limits (Some (cmin, cmax))
                  (with__clim (Some (ClimPair cmin cmax))
                     (with__data_dtype (Some (nd_dtype a)) (tex w)))).
Proof.
  intros Hl Hgpu Hsingle Hclim Hup. unfold ScalableTexture2D.set_data.
  erewrite bind_Ok by (apply load_Some; exact Hl).
  erewrite bind_Ok by reflexivity. rewrite bind_gets.
  cbn [tex upd_tex _clim with__data_dtype _scale_texture_gpu].
  rewrite Hgpu. unfold lift_res at 1. erewrite bind_Ok by (rewrite Hsingle; reflexivity).
  set (w0 := upd_tex (with__data_dtype (Some (nd_dtype a))) w).
  assert (Hl0 : heap w0 !! data = Some a) by exact Hl.
  destruct (_scale_data_on_cpu_run w0 data a cmin cmax Hl0)
    as (w1 & l1 & Hrun & Hk & Ht & Hl1).
  rewrite Hup in Hrun. specialize (Hl1 up Hup).
  unfold resolved_clim in Hclim.
  destruct (_clim (tex w)) as [[|c0 c1]|]; [| |discriminate].
  - destruct (np_min a) as [lo|]; [|discriminate].
    destruct (np_max a) as [hi|]; [|discriminate].
    simplify_eq.
    erewrite bind_Ok; cycle 1.
    { erewrite bind_Ok by reflexivity.
      cbn [negb]. erewrite bind_Ok by exact Hrun. reflexivity. }
    cbn [fst snd].
    do 2 (erewrite bind_Ok by reflexivity).
    unfold Texture2D_set_data.
    erewrite bind_Ok by (apply load_Some; cbn; exact Hl1).
    eexists. split; [reflexivity|]. split.
    + intros l b Hb. cbn. apply Hk. exact Hb.
    + cbn. rewrite Ht. reflexivity.
  - simplify_eq.
    erewrite bind_Ok; cycle 1.
    { erewrite bind_Ok by reflexivity.
      cbn [negb]. erewrite bind_Ok by exact Hrun. reflexivity. }
    cbn [fst snd].
    do 2 (erewrite bind_Ok by reflexivity).
    unfold Texture2D_set_data.
    erewrite bind_Ok by (apply load_Some; cbn; exact Hl1).
    eexists. split; [reflexivity|]. split.
    + intros l b Hb. cbn. apply Hk. exact Hb.
    + cbn. rewrite Ht. reflexivity.
Qed.
End ScalingRun.

(** ** IEEE facts *)

Lemma SFsub_diag prec emax (x : spec_float) :
  SFsub prec emax x x = S754_zero false \/ SFsub prec emax x x = S754_nan.
Proof.
  destruct x as [s|s| |s m e]; cbn.
  - left. destruct s; reflexivity.
  - right. destruct s; reflexivity.
  - right. reflexivity.
  - left. rewrite Z.sub_diag. reflexivity.
Qed.

(** The difference of a float and itself is never positive. *)
Lemma SFsub_diag_not_pos f (x : spec_float) :
  a_ltb (a_of_Z B32 0) (a_sub f x x) = false.
Proof.
  cbn. destruct (SFsub_diag (fmt_prec f) (fmt_emax f) x) as [-> | ->];
    reflexivity.
Qed.

(** Zero over zero: the quotient of that difference by itself is NaN. *)
Lemma SFdiv_diag_nan f (x : spec_float) :
  a_div f (a_sub f x x) (a_sub f x x) = Ok S754_nan.
Proof.
  cbn. destruct (SFsub_diag (fmt_prec f) (fmt_emax f) x) as [-> | ->];
    reflexivity.
Qed.

Lemma SF_minimum_diag x : SF_minimum x x = x.
Proof. unfold SF_minimum. destruct (is_nan x), (SFleb x x); reflexivity. Qed.

Lemma SF_maximum_diag x : SF_maximum x x = x.
Proof. unfold SF_maximum. destruct (is_nan x), (SFleb x x); reflexivity. Qed.

Lemma fold_left_diag {A} (op : A -> A -> A) (x : A) n :
  op x x = x -> fold_left op (replicate n x) x = x.
Proof.
  intros Hop. induction n as [|n IH]; cbn; [reflexivity|].
  rewrite Hop. exact IH.
Qed.

(** ** The uploaded samples *)

Section Uploaded.
Context {V : Type} `{Arith V}.

Lemma samples_as_length f (a : ndarray V) :
  length (samples_as f a) = buf_length (nd_buf a).
Proof.
  unfold samples_as, buf_length. destruct (nd_buf a) as [l|l].
  - apply length_map.
  - destruct (decide _); [reflexivity | apply length_map].
Qed.

Lemma narrowed_shape (a : ndarray V) : nd_shape (narrowed a) = nd_shape a.
Proof. unfold narrowed. destruct (decide _); reflexivity. Qed.

Lemma scaled_samples_length (a : ndarray V) :
  length (scaled_samples a) = buf_length (nd_buf a).
Proof.
  unfold scaled_samples. rewrite samples_as_length.
  unfold narrowed. destruct (decide _); [|reflexivity].
  cbn. apply samples_as_length.
Qed.

Lemma map_const {A B} (l : list A) (y : B) :
  map (fun _ => y) l = replicate (length l) y.
Proof. induction l as [|x l IH]; cbn; [reflexivity|]. rewrite IH. reflexivity. Qed.

Lemma dtype_fmt_fmt_dtype f : dtype_fmt (fmt_dtype f) = Some f.
Proof. destruct f; reflexivity. Qed.

End Uploaded.

(** What is uploaded for a single-band raster, in IEEE arithmetic:
    [(x - min) / (max - min)] sample by sample when the range is
    positive, and otherwise a flat buffer of ones or zeros, decided by
    the shifted corner sample. *)
Lemma cpu_scaled_ieee (a : ndarray spec_float) cmin cmax r c :
  nd_shape a = [r; c] \/ nd_shape a = [r; c; 1%nat] ->
  (0 < r)%nat -> (0 < c)%nat -> buf_length (nd_buf a) = (r * c)%nat ->
  let f := scaled_fmt a in
  cpu_scaled a cmin cmax =
  Ok {| nd_dtype := fmt_dtype f; nd_shape := nd_shape a;
        nd_buf := FloatBuf
          (if SFltb (SF_of_Z B32 0) (SFsub 24 128 cmax cmin) then
             map (fun x => SFdiv (fmt_prec f) (fmt_emax f)
                             (SFsub (fmt_prec f) (fmt_emax f) x (promote_f32 f cmin))
                             (promote_f32 f (SFsub 24 128 cmax cmin)))
                 (scaled_samples a)
           else
             replicate (r * c)
               (SF_of_Z f (if shifted_corner_nonzero a cmin then 1 else 0))) |}.
Proof.
  intros Hsh Hr Hc Hlen f. unfold cpu_scaled, sub_scalar.
  fold (scaled_fmt a). fold f.
  change (samples_as f (narrowed a)) with (scaled_samples a).
  rewrite narrowed_shape.
  change (a_ltb (a_of_Z B32 0) (a_sub B32 cmax cmin))
    with (SFltb (SF_of_Z B32 0) (SFsub 24 128 cmax cmin)).
  destruct (SFltb (SF_of_Z B32 0) (SFsub 24 128 cmax cmin)).
  - unfold idiv_scalar. cbn [nd_buf nd_dtype nd_shape].
    rewrite dtype_fmt_fmt_dtype.
    change (a_div f) with (fun x y => Ok (SFdiv (fmt_prec f) (fmt_emax f) x y)).
    cbv beta. rewrite mapM_res_Ok, map_map. reflexivity.
  - pose proof (scaled_samples_length a) as Hn. rewrite Hlen in Hn.
    unfold shifted_corner_nonzero. fold f.
    destruct (scaled_samples a) as [|x xs] eqn:Hxs.
    { cbn in Hn. nia. }
    assert (Hcor : corner_nonzero
              {| nd_dtype := fmt_dtype f; nd_shape := nd_shape a;
                 nd_buf := FloatBuf (map (fun x0 => a_sub f x0 (promote_f32 f cmin))
                                         (x :: xs)) |} =
            Ok (negb (a_eqb (a_sub f x (promote_f32 f cmin)) (a_of_Z B32 0)))).
    { unfold corner_nonzero. cbn [nd_shape nd_buf map].
      destruct Hsh as [-> | ->];
        destruct r; try lia; destruct c; try lia; reflexivity. }
    rewrite Hcor. unfold fill. cbn [nd_buf nd_dtype nd_shape].
    rewrite dtype_fmt_fmt_dtype. cbn [default].
    rewrite map_const, length_map, Hn. reflexivity.
Qed.

(** ** Claims about CPU scaling *)

Section SingleBand.
Context {V : Type} `{Arith V}.

Lemma is_single_band_shape (a : ndarray V) r c :
  nd_shape a = [r; c] \/ nd_shape a = [r; c; 1%nat] ->
  ScalableTexture2D.is_single_band a = Ok true.
Proof.
  unfold ScalableTexture2D.is_single_band, ndim.
  intros [-> | ->]; reflexivity.
Qed.

Lemma nonempty_buffer (a : ndarray V) r c :
  (0 < r)%nat -> (0 < c)%nat -> buf_length (nd_buf a) = (r * c)%nat ->
  (exists x l, nd_buf a = IntBuf (x :: l)) \/
  (exists x l, nd_buf a = FloatBuf (x :: l)).
Proof.
  intros Hr Hc Hlen. unfold buf_length in Hlen.
  destruct (nd_buf a) as [[|x l]|[|x l]]; cbn in Hlen; try nia; eauto.
Qed.

Lemma resolved_clim_Ok (t : texture V) (a : ndarray V) r c :
  (0 < r)%nat -> (0 < c)%nat -> buf_length (nd_buf a) = (r * c)%nat ->
  _clim t <> None ->
  exists cmin cmax, resolved_clim t a = Ok (cmin, cmax).
Proof.
  intros Hr Hc Hlen Hclim. unfold resolved_clim.
  destruct (_clim t) as [[|c0 c1]|]; [| |congruence].
  - unfold np_min, np_max.
    destruct (nonempty_buffer a r c Hr Hc Hlen) as [(x & l & ->)|(x & l & ->)];
      eauto.
  - eauto.
Qed.

End SingleBand.

(** C1 (as the code has it). For a single-band raster assigned to a
    CPU-scaled texture, with (min, max) the limits [set_data] settles
    on: when max - min > 0 every uploaded sample is (x - min)/(max - min)
    in the arithmetic NumPy selects, float64 rasters narrowed first;
    otherwise, in particular when max = min, the uploaded buffer is
    uniformly 1 if the corner sample minus min differs from zero and
    uniformly 0 if not.  The caller's array, like every array that
    existed before, is left as it was. *)
Theorem C1_cpu_scaling (w : world spec_float) data a r c :
  heap w !! data = Some a ->
  _scale_texture_gpu (tex w) = false ->
  nd_shape a = [r; c] \/ nd_shape a = [r; c; 1%nat] ->
  (0 < r)%nat -> (0 < c)%nat -> buf_length (nd_buf a) = (r * c)%nat ->
  _clim (tex w) <> None ->
  exists w' cmin cmax up,
    ScalableTexture2D.set_data data w = (Ok tt, w') /\
    resolved_clim (tex w) a = Ok (cmin, cmax) /\
    _clim (tex w') = Some (ClimPair cmin cmax) /\
    uploaded (tex w') = Some up /\
    nd_shape up = nd_shape a /\
    (let f := scaled_fmt a in
     nd_buf up = FloatBuf
       (if SFltb (SF_of_Z B32 0) (SFsub 24 128 cmax cmin) then
          map (fun x => SFdiv (fmt_prec f) (fmt_emax f)
                          (SFsub (fmt_prec f) (fmt_emax f) x (promote_f32 f cmin))
                          (promote_f32 f (SFsub 24 128 cmax cmin)))
              (scaled_samples a)
        else
          replicate (r * c)
            (SF_of_Z f (if shifted_corner_nonzero a cmin then 1 else 0)))) /\
    (cmax = cmin ->
     nd_buf up = FloatBuf
       (replicate (r * c)
          (SF_of_Z (scaled_fmt a)
             (if shifted_corner_nonzero a cmin then 1 else 0)))) /\
    heap w' !! data = Some a /\
    heap_kept w w'.
Proof.
  intros Hl Hgpu Hsh Hr Hc Hlen Hclim.
  destruct (resolved_clim_Ok (tex w) a r c Hr Hc Hlen Hclim) as (cmin & cmax & Hres).
  pose proof (cpu_scaled_ieee a cmin cmax r c Hsh Hr Hc Hlen) as Hup.
  cbv zeta in Hup.
  destruct (set_data_cpu_single w data a cmin cmax _ Hl Hgpu
              (is_single_band_shape a r c Hsh) Hres Hup) as (w' & Hrun & Hk & Ht).
  eexists w', cmin, cmax, _. split; [exact Hrun|]. split; [exact Hres|].
  rewrite Ht. cbn [_clim uploaded with_uploaded with__data_limits with__clim].
  split; [reflexivity|]. split; [reflexivity|]. split; [reflexivity|].
  split; [reflexivity|]. split.
  - intros ->. cbn [nd_buf].
    pose proof (SFsub_diag_not_pos B32 cmin) as Hnp.
    change (SFltb (SF_of_Z B32 0) (SFsub 24 128 cmin cmin) = false) in Hnp.
    rewrite Hnp.
    reflexivity.
  - split; [apply Hk, Hl | exact Hk].
Qed.

(** C10. On a CPU-scaled texture, after a single-band raster whose
    samples are all equal has been assigned with clim ["auto"], the
    recorded data limits are degenerate and reading [clim_normalized]
    divides zero by zero: it returns the pair (NaN, NaN), not an error
    and not a pair of numbers. *)
Theorem C10_degenerate_limits_give_nan (w : world spec_float) data a r c :
  heap w !! data = Some a ->
  _scale_texture_gpu (tex w) = false ->
  nd_shape a = [r; c] \/ nd_shape a = [r; c; 1%nat] ->
  (0 < r)%nat -> (0 < c)%nat ->
  (exists z, nd_buf a = IntBuf (replicate (r * c) z)) \/
  (exists x, nd_buf a = FloatBuf (replicate (r * c) x)) ->
  _clim (tex w) = Some ClimAuto ->
  exists w' lim,
    ScalableTexture2D.set_data data w = (Ok tt, w') /\
    _data_limits (tex w') = Some (lim, lim) /\
    _clim (tex w') = Some (ClimPair lim lim) /\
    ScalableTexture2D.clim_normalized (tex w') =
      Ok (PyNum S754_nan, PyNum S754_nan).
Proof.
  intros Hl Hgpu Hsh Hr Hc Hbuf Hclim.
  assert (Hlen : buf_length (nd_buf a) = (r * c)%nat).
  { destruct Hbuf as [[z ->]|[x ->]]; cbn; apply length_replicate. }
  assert (exists lim, resolved_clim (tex w) a = Ok (lim, lim)) as [lim Hres].
  { unfold resolved_clim. rewrite Hclim. unfold np_min, np_max.
    destruct (r * c)%nat as [|n] eqn:Hn; [nia|].
    destruct Hbuf as [[z ->]|[x ->]]; cbn [replicate].
    - rewrite !fold_left_diag by (apply Z.min_id || apply Z.max_id). eauto.
    - rewrite !fold_left_diag
        by (apply SF_minimum_diag || apply SF_maximum_diag). eauto. }
  pose proof (cpu_scaled_ieee a lim lim r c Hsh Hr Hc Hlen) as Hup.
  cbv zeta in Hup.
  destruct (set_data_cpu_single w data a lim lim _ Hl Hgpu
              (is_single_band_shape a r c Hsh) Hres Hup) as (w' & Hrun & _ & Ht).
  exists w', lim. split; [exact Hrun|]. rewrite Ht.
  split; [reflexivity|]. split; [reflexivity|].
  unfold ScalableTexture2D.clim_normalized, ScalableTexture2D.clim.
  cbn [_scale_texture_gpu _data_limits _clim with_uploaded with__data_limits
       with__clim with__data_dtype].
  rewrite Hgpu, (SFdiv_diag_nan B32 lim). reflexivity.
Qed.
(** ** Normalised colour limits *)













(** ** The properties at concrete rasters *)

(** A flat raster of fives is CPU-scaled with colour limits resolved
    from the data: its corner sample is not zero, the limits coincide,
    and every uploaded sample is 0. *)
Lemma C1_nonzero_corner_uploads_zero :
  heap flat_world !! 0%nat = Some flat_image /\
  _scale_texture_gpu (tex flat_world) = false /\
  corner_sample_nonzero flat_image = true /\
  resolved_clim (tex flat_world) flat_image = Ok (five, five) /\
  fst (ScalableTexture2D.set_data 0%nat flat_world) = Ok tt /\
  option_map nd_buf
    (uploaded (tex (snd (ScalableTexture2D.set_data 0%nat flat_world)))) =
    Some (FloatBuf (replicate 4 (SF_of_Z B32 0))).
Proof. vm_compute. repeat split; reflexivity. Qed.

Lemma C1_cpu_scaling_witness :
  heap demo_world !! 0%nat = Some demo_image /\
  _scale_texture_gpu (tex demo_world) = false /\
  exists w' cmin cmax up,
    ScalableTexture2D.set_data 0%nat demo_world = (Ok tt, w') /\
    resolved_clim (tex demo_world) demo_image = Ok (cmin, cmax) /\
    uploaded (tex w') = Some up /\
    nd_shape up = [2; 2]%nat /\
    heap w' !! 0%nat = Some demo_image.
Proof.
  split; [reflexivity|]. split; [reflexivity|].
  destruct (C1_cpu_scaling demo_world 0%nat demo_image 2 2)
    as (w' & cmin & cmax & up & H1 & H2 & H3 & H4 & H5 & H6 & H7 & H8 & H9).
  - reflexivity.
  - reflexivity.
  - left. reflexivity.
  - lia.
  - lia.
  - reflexivity.
  - vm_compute. discriminate.
  - exists w', cmin, cmax, up. repeat split; assumption.
Defined.



(** When the raster of a drawn visual is assigned again, only the
    texture flag is set; the texture step then sets the flag of the
    colour-transform step, and the draw runs both. *)
Lemma C4_texture_step_sets_colortransform_flag :
  flag_of demo_dirty EvTexture = true /\
  flag_of demo_dirty EvColorTransform = false /\
  fst (step_of 0 EvTexture demo_dirty) = Ok tt /\
  flag_of (snd (step_of 0 EvTexture demo_dirty)) EvColorTransform = true /\
  fst (ImageVisual._prepare_draw 0 demo_dirty) = Ok RetNone /\
  trace (snd (ImageVisual._prepare_draw 0 demo_dirty)) =
    (trace demo_dirty ++ [EvTexture; EvColorTransform])%list.
Proof. vm_compute. repeat split; reflexivity. Qed.

Lemma C4_draw_schedule_witness :
  is_Some (views demo_dirty !! 0%nat) /\
  _data (vis demo_dirty) <> None /\
  trace (snd (ImageVisual._prepare_draw 0 demo_dirty)) =
    (trace demo_dirty ++ scheduled demo_dirty 0)%list /\
  forall e, In e (draw_order 0) ->
    flag_of (snd (ImageVisual._prepare_draw 0 demo_dirty)) e = false.
Proof.
  assert (Hv : is_Some (views demo_dirty !! 0%nat))
    by (vm_compute; eexists; reflexivity).
  assert (Hd : _data (vis demo_dirty) <> None) by (vm_compute; discriminate).
  split; [exact Hv|]. split; [exact Hd|].
  destruct (C4_draw_schedule demo_dirty 0%nat Hv) as (_ & Hdraw & _).
  destruct (Hdraw Hd) as (_ & Hrun).
  destruct (Hrun (fst (ImageVisual._prepare_draw 0 demo_dirty))
                 (snd (ImageVisual._prepare_draw 0 demo_dirty)))
    as (done & Htr & _ & Hok).
  - apply surjective_pairing.
  - destruct (Hok RetNone) as (-> & Hflags); [vm_compute; reflexivity|].
    split; assumption.
Defined.

(** On a drawn CPU-scaled visual, assigning colour limits that leave
    the recorded data limits changes neither raster nor colormap, yet
    the next draw uploads the texture and rebuilds the chain. *)
Lemma C5_clim_change_rebuilds_chain :
  flag_of demo_drawn EvTexture = false /\
  flag_of demo_drawn EvColorTransform = false /\
  fst (ImageVisual.clim_setter (ArgSeq [SF_of_Z B32 0; SF_of_Z B32 100])
         demo_drawn) = Ok tt /\
  _data (vis demo_relimited) = _data (vis demo_drawn) /\
  heap demo_relimited = heap demo_drawn /\
  _cmap (vis demo_relimited) = _cmap (vis demo_drawn) /\
  trace demo_relimited = trace demo_drawn /\
  fst (ImageVisual._prepare_draw 0 demo_relimited) = Ok RetNone /\
  trace demo_relimited_drawn =
    (trace demo_drawn ++ [EvTexture; EvColorTransform])%list.
Proof. vm_compute. repeat split; reflexivity. Qed.

Lemma C5_chain_rebuilds_witness :
  _need_colortransform_update (vis demo_drawn) = false /\
  trace (snd (ImageVisual.gamma_setter (SF_of_Z B64 2) demo_drawn)) =
    trace demo_drawn /\
  option_map topology
    (frag_color_transform
       (vis (snd (ImageVisual.gamma_setter (SF_of_Z B64 2) demo_drawn)))) =
  option_map topology (frag_color_transform (vis demo_drawn)).
Proof.
  assert (Hf : _need_colortransform_update (vis demo_drawn) = false)
    by (vm_compute; reflexivity).
  split; [exact Hf|].
  destruct (C5_chain_rebuilds demo_drawn) as (Hin & _).
  destruct (Hin Hf) as (Hgamma & _).
  destruct (Hgamma (SF_of_Z B64 2)
              (fst (ImageVisual.gamma_setter (SF_of_Z B64 2) demo_drawn))
              (snd (ImageVisual.gamma_setter (SF_of_Z B64 2) demo_drawn)))
    as (Htr & _ & Htop & _).
  - apply surjective_pairing.
  - split; assumption.
Defined.

Lemma C6_chain_by_band_count_witness :
  channel_count demo_image = Some 1%nat /\
  channel_count rgb_image = Some 3%nat /\
  (exists f0 fclim fgamma f3,
     _build_color_transform demo_image
       (PyNum (SF_of_Z B32 0), PyNum (SF_of_Z B32 1)) (SF_of_Z B64 1)
       (Some viridis) = Ok [f0; fclim; fgamma; f3] /\
     topology [f0; fclim; fgamma; f3] =
       [_c2l; _apply_clim_float; _apply_gamma_float; glsl_map viridis]) /\
  (exists f0 fclim fgamma,
     _build_color_transform rgb_image
       (PyNum (SF_of_Z B32 0), PyNum (SF_of_Z B32 1)) (SF_of_Z B64 1)
       (Some viridis) = Ok [f0; fclim; fgamma] /\
     topology [f0; fclim; fgamma] =
       [_null_color_transform; _apply_clim; _apply_gamma]).
Proof.
  split; [reflexivity|]. split; [reflexivity|]. split.
  - destruct (C6_chain_by_band_count demo_image
                (PyNum (SF_of_Z B32 0), PyNum (SF_of_Z B32 1)) (SF_of_Z B64 1)
                viridis 1%nat eq_refl) as (H1 & _).
    destruct (H1 eq_refl) as (f0 & fclim & fgamma & f3 & Hb & Ht & _).
    exists f0, fclim, fgamma, f3. split; assumption.
  - destruct (C6_chain_by_band_count rgb_image
                (PyNum (SF_of_Z B32 0), PyNum (SF_of_Z B32 1)) (SF_of_Z B64 1)
                viridis 3%nat eq_refl) as (_ & H3).
    destruct (H3 (or_introl eq_refl) (Some viridis))
      as (f0 & fclim & fgamma & Hb & Ht & _).
    exists f0, fclim, fgamma. split; assumption.
Defined.

Lemma C7_render_method_selection_witness :
  views demo_drawn !! 0%nat = Some demo_view /\
  _method (vis demo_drawn) = "auto" /\
  Linear (get_transform demo_view) = true /\
  exists w' vw',
    ImageVisual._update_method 0%nat demo_drawn = (Ok tt, w') /\
    views w' !! 0%nat = Some vw' /\
    _method_used vw' = Some "subdivide" /\
    prg_vert_transform vw' = Some (get_transform demo_view) /\
    prg_frag_transform vw' = Some NullTransform.
Proof.
  assert (Hv : views demo_drawn !! 0%nat = Some demo_view)
    by (vm_compute; reflexivity).
  assert (Hm : _method (vis demo_drawn) = "auto") by (vm_compute; reflexivity).
  assert (Hl : Linear (get_transform demo_view) = true)
    by (vm_compute; reflexivity).
  assert (Hd : _data (vis demo_drawn) = Some 0%nat) by (vm_compute; reflexivity).
  assert (Hh : heap demo_drawn !! 0%nat = Some demo_image)
    by (vm_compute; reflexivity).
  split; [exact Hv|]. split; [exact Hm|]. split; [exact Hl|].
  destruct (C7_render_method_selection demo_drawn 0%nat demo_view 0%nat
              demo_image Hv Hd Hh) as (Hsub & _).
  destruct (Hsub (or_introl (conj Hm Hl)))
    as (w' & vw' & H1 & H2 & H3 & _ & _ & _ & H7 & H8).
  exists w', vw'. repeat split; assumption.
Defined.

Lemma C8_element_type_request_fails_witness :
  heap rgb_world !! 0%nat = Some rgb_image /\
  ScalableTexture2D.dict_get uint16 ScalableTexture2D._texture_dtype_format =
    Some "r16" /\
  (forall nc,
     ScalableTexture2D._get_gl_tex_format (Some (FmtType uint16)) nc rgb_world =
       (Raise descriptor_not_ordered, rgb_world)) /\
  exists w',
    ScalableTexture2D.new (Some 0%nat) (Some (FmtType uint16)) "nearest"
      rgb_world = (Raise descriptor_not_ordered, w').
Proof.
  split; [reflexivity|]. split; [reflexivity|].
  destruct (C8_element_type_request_fails rgb_world 0%nat rgb_image uint16
              "nearest" eq_refl) as (Hf & w' & Hn & _).
  split; [exact Hf|]. exists w'. exact Hn.
Defined.

(** A method name that is none of the known ones is stored without
    complaint, and the draw that follows does not complain either. *)
Lemma C9_unknown_method_is_stored :
  _method (vis demo_drawn) = "auto" /\
  fst (ImageVisual.method_setter "bogus" demo_drawn) = Ok tt /\
  _method (vis demo_bogus) = "bogus" /\
  _need_vertex_update (vis demo_drawn) = false /\
  _need_vertex_update (vis demo_bogus) = true /\
  fst (ImageVisual._prepare_draw 0 demo_bogus) = Ok RetNone.
Proof. vm_compute. repeat split; reflexivity. Qed.

Lemma C9_rejected_mutators_witness :
  ImageVisual.clim_setter (ArgStr "bogus") demo_drawn =
    (Raise (ValueError ("clim must be " ++ dq ++ "auto" ++ dq ++ " if a string")),
     demo_drawn) /\
  a_leb (SF_of_Z B64 0) (a_of_Z B64 0) = true /\
  ImageVisual.gamma_setter (SF_of_Z B64 0) demo_drawn =
    (Raise (ValueError "gamma must be > 0"), demo_drawn) /\
  str_in "cubic" (_interpolation_names (vis demo_drawn)) = false /\
  fst (ImageVisual.interpolation_setter "cubic" demo_drawn) =
    Raise (ValueError ("interpolation must be one of " ++
                       str_join ", " (_interpolation_names (vis demo_drawn)))) /\
  snd (ImageVisual.interpolation_setter "cubic" demo_drawn) = demo_drawn.
Proof.
  destruct (C9_rejected_mutators demo_drawn) as (Hstr & _ & Hgamma & Hint & _).
  assert (Hg : a_leb (SF_of_Z B64 0) (a_of_Z B64 0) = true)
    by (vm_compute; reflexivity).
  assert (Hi : str_in "cubic" (_interpolation_names (vis demo_drawn)) = false)
    by (vm_compute; reflexivity).
  split; [apply Hstr; discriminate|].
  split; [exact Hg|].
  split; [apply Hgamma; exact Hg|].
  split; [exact Hi|].
  rewrite (Hint "cubic" Hi). split; reflexivity.
Defined.

Lemma C10_degenerate_limits_give_nan_witness :
  heap flat_world !! 0%nat = Some flat_image /\
  _clim (tex flat_world) = Some ClimAuto /\
  exists w' lim,
    ScalableTexture2D.set_data 0%nat flat_world = (Ok tt, w') /\
    _data_limits (tex w') = Some (lim, lim) /\
    _clim (tex w') = Some (ClimPair lim lim) /\
    ScalableTexture2D.clim_normalized (tex w') =
      Ok (PyNum S754_nan, PyNum S754_nan).
Proof.
  split; [reflexivity|]. split; [reflexivity|].
  apply (C10_degenerate_limits_give_nan flat_world 0%nat flat_image 2 2).
  - reflexivity.
  - reflexivity.
  - left. reflexivity.
  - lia.
  - lia.
  - left. exists 5. reflexivity.
  - reflexivity.
Defined.

(** * Further properties of the code *)

(** ** Uploads that are not rescaled, and rasters that are refused *)

Section RawUploads.
Context {V : Type} `{Arith V}.

Lemma is_single_band_multi (a : ndarray V) r c n :
  nd_shape a = [r; c; n] -> n <> 1%nat ->
  ScalableTexture2D.is_single_band a = Ok false.
Proof.
  intros Hs Hn. unfold ScalableTexture2D.is_single_band, ndim. rewrite Hs. cbn.
  apply Nat.eqb_neq in Hn. rewrite Hn. reflexivity.
Qed.

(** X1. A raster with three axes whose last axis is not of length one
    (RGB, RGBA) is never rescaled, under either scaling mode: the
    array uploaded is the caller's array itself, no array is created or
    changed, clim ["auto"] becomes the pair (0, 1) and any other clim is
    kept as it is, and the data limits are that clim under CPU scaling
    and [None] under GPU scaling. *)
Theorem multiband_upload_is_raw (w : world V) data a r c n :
  heap w !! data = Some a -> nd_shape a = [r; c; n] -> n <> 1%nat ->
  exists w',
    ScalableTexture2D.set_data data w = (Ok tt, w') /\
    heap w' = heap w /\
    uploaded (tex w') = Some a /\
    _data_dtype (tex w') = Some (nd_dtype a) /\
    _clim (tex w') =
      match _clim (tex w) with
      | Some ClimAuto => Some (ClimPair (a_of_Z B32 0) (a_of_Z B32 1))
      | c => c
      end /\
    _data_limits (tex w') =
      (if _scale_texture_gpu (tex w) then None
       else match _clim (tex w') with
            | Some (ClimPair c0 c1) => Some (c0, c1)
            | _ => None
            end) /\
    _scale_texture_gpu (tex w') = _scale_texture_gpu (tex w) /\
    internalformat (tex w') = internalformat (tex w).
Proof.
  intros Hl Hs Hn. unfold ScalableTexture2D.set_data.
  mstep. mstep. rewrite bind_gets.
  cbn [tex upd_tex _clim with__data_dtype _scale_texture_gpu].
  unfold lift_res at 1.
  erewrite bind_Ok by (rewrite (is_single_band_multi a r c n Hs Hn); reflexivity).
  destruct (_clim (tex w)) as [[|c0 c1]|] eqn:Hc.
  - eexists. split.
    { mstep. cbn [fst snd]. mstep. mstep. unfold Texture2D_set_data. mstep.
      reflexivity. }
    cbn. repeat split; reflexivity.
  - eexists. split.
    { mstep. cbn [fst snd]. mstep. mstep. unfold Texture2D_set_data. mstep.
      reflexivity. }
    cbn. repeat split; reflexivity.
  - eexists. split.
    { mstep. cbn [fst snd]. mstep. mstep. unfold Texture2D_set_data. mstep.
      reflexivity. }
    cbn. repeat split; reflexivity.
Qed.

(** X2. Under GPU-side scaling a single-band raster is uploaded as it
    is: the array uploaded is the caller's array, no array is created
    or changed, the clim stored is the resolved pair narrowed to
    float32, and no data limits are recorded. *)
Theorem gpu_upload_is_raw (w : world V) data a r c cmin cmax :
  heap w !! data = Some a ->
  _scale_texture_gpu (tex w) = true ->
  nd_shape a = [r; c] \/ nd_shape a = [r; c; 1%nat] ->
  resolved_clim (tex w) a = Ok (cmin, cmax) ->
  exists w',
    ScalableTexture2D.set_data data w = (Ok tt, w') /\
    heap w' = heap w /\
    uploaded (tex w') = Some a /\
    _data_dtype (tex w') = Some (nd_dtype a) /\
    _clim (tex w') = Some (ClimPair cmin cmax) /\
    _data_limits (tex w') = None.
Proof.
  intros Hl Hgpu Hs Hclim. unfold ScalableTexture2D.set_data.
  mstep. mstep. rewrite bind_gets.
  cbn [tex upd_tex _clim with__data_dtype _scale_texture_gpu].
  rewrite Hgpu. unfold lift_res at 1.
  erewrite bind_Ok by (rewrite (is_single_band_shape a r c Hs); reflexivity).
  unfold resolved_clim in Hclim.
  destruct (_clim (tex w)) as [[|c0 c1]|]; [| |discriminate].
  - destruct (np_min a) as [lo|]; [|discriminate].
    destruct (np_max a) as [hi|]; [|discriminate]. simplify_eq.
    erewrite bind_Ok; cycle 1.
    { erewrite bind_Ok by reflexivity. cbn [negb]. reflexivity. }
    cbn [fst snd]. mstep. mstep. unfold Texture2D_set_data. mstep.
    eexists. split; [reflexivity|]. cbn. repeat split; reflexivity.
  - simplify_eq.
    erewrite bind_Ok; cycle 1.
    { erewrite bind_Ok by reflexivity. cbn [negb]. reflexivity. }
    cbn [fst snd]. mstep. mstep. unfold Texture2D_set_data. mstep.
    eexists. split; [reflexivity|]. cbn. repeat split; reflexivity.
Qed.

(** X3. Rasters [set_data] refuses.  A raster with fewer than two axes
    fails with [IndexError]; a single-band raster without samples fails
    under clim ["auto"] with NumPy's zero-size [ValueError]; a
    single-band raster fails with [TypeError] when no clim was ever
    set.  In each case the element type of the refused raster has
    already been recorded, and nothing else has changed. *)
Theorem upload_refusals (w : world V) data a :
  heap w !! data = Some a ->
  let w1 := upd_tex (with__data_dtype (Some (nd_dtype a))) w in
  ((length (nd_shape a) < 2)%nat ->
   ScalableTexture2D.set_data data w =
     (Raise (IndexError "tuple index out of range"), w1)) /\
  (ScalableTexture2D.is_single_band a = Ok true ->
   buf_length (nd_buf a) = 0%nat -> _clim (tex w) = Some ClimAuto ->
   ScalableTexture2D.set_data data w = (Raise (no_identity "minimum"), w1)) /\
  (ScalableTexture2D.is_single_band a = Ok true -> _clim (tex w) = None ->
   ScalableTexture2D.set_data data w =
     (Raise (TypeError "'NoneType' object is not subscriptable"), w1)).
Proof.
  intros Hl w1. split; [|split].
  - intros Hlen. unfold ScalableTexture2D.set_data.
    mstep. mstep. rewrite bind_gets. unfold lift_res at 1.
    erewrite bind_Raise; [reflexivity|].
    unfold ScalableTexture2D.is_single_band, ndim.
    destruct (nd_shape a) as [|x [|y l]]; cbn in Hlen |- *; try reflexivity; lia.
  - intros Hsingle Hempty Hclim. unfold ScalableTexture2D.set_data.
    mstep. mstep. rewrite bind_gets.
    cbn [tex upd_tex _clim with__data_dtype _scale_texture_gpu].
    rewrite Hclim. unfold lift_res at 1.
    erewrite bind_Ok by (rewrite Hsingle; reflexivity).
    erewrite bind_Raise; [reflexivity|].
    erewrite bind_Raise; [reflexivity|].
    erewrite bind_Raise; [reflexivity|].
    unfold lift_res, np_min. destruct (nd_buf a) as [[|x l]|[|x l]];
      cbn in Hempty; try discriminate; reflexivity.
  - intros Hsingle Hclim. unfold ScalableTexture2D.set_data.
    mstep. mstep. rewrite bind_gets.
    cbn [tex upd_tex _clim with__data_dtype _scale_texture_gpu].
    rewrite Hclim. unfold lift_res at 1.
    erewrite bind_Ok by (rewrite Hsingle; reflexivity).
    erewrite bind_Raise; [reflexivity|].
    erewrite bind_Raise; reflexivity.
Qed.

End RawUploads.

(** ** Frames for arbitrary relations *)

Lemma preserves_alloc {V} (R : world V -> world V -> Prop) (a : ndarray V) :
  (forall w, R w (upd_heap (fun h => (h ++ [a])%list) w)) ->
  preserves R (alloc a).
Proof. intros Ha w r w' Hr. inversion Hr; subst. apply Ha. Qed.

(** Follow the structure of a computation; [tac] settles what a single
    assignment does to the relation, [calls] the calls of methods. *)
Ltac frame_auto R Hrefl Htrans tac calls :=
  repeat first
    [ calls
    | frame_step R Hrefl Htrans
    | frame_case
    | progress cbv zeta
    | progress unfold tex_assign, vis_assign, view_assign, warn, log, store
    | apply (preserves_modify R); intros ?; tac
    | apply (preserves_alloc R); intros ?; tac ].

(** ** The texture keeps data limits only under CPU scaling *)

Section Limits.
Context {V : Type} `{Arith V}.

Lemma same_texture_refl (w : world V) : same_texture w w.
Proof. reflexivity. Qed.

Lemma same_texture_trans (w1 w2 w3 : world V) :
  same_texture w1 w2 -> same_texture w2 w3 -> same_texture w1 w3.
Proof. unfold same_texture. congruence. Qed.

Lemma same_texture__scale_data_on_cpu data clim :
  preserves (@same_texture V) (ScalableTexture2D._scale_data_on_cpu data clim).
Proof.
  unfold ScalableTexture2D._scale_data_on_cpu.
  frame_auto (@same_texture V) same_texture_refl same_texture_trans
    ltac:(reflexivity) ltac:(fail).
Qed.

Lemma no_limits_kept_refl (w : world V) : no_limits_kept w w.
Proof. intros Hw. exact Hw. Qed.

Lemma no_limits_kept_trans (w1 w2 w3 : world V) :
  no_limits_kept w1 w2 -> no_limits_kept w2 w3 -> no_limits_kept w1 w3.
Proof. unfold no_limits_kept. auto. Qed.

Lemma no_limits_kept___init__ data fmt allow interp :
  preserves (@no_limits_kept V) (ScalableTexture2D.__init__ data fmt allow interp).
Proof.
  unfold ScalableTexture2D.__init__, ScalableTexture2D._create_rep_array,
    ScalableTexture2D._get_texture_format_for_data,
    ScalableTexture2D._data_num_channels,
    ScalableTexture2D._handle_auto_texture_format,
    ScalableTexture2D._get_gl_tex_format, _should_cast_to_f32,
    Texture2D__init__.
  frame_auto (@no_limits_kept V) no_limits_kept_refl no_limits_kept_trans
    ltac:(first [ intros ?; assumption | intros ?; reflexivity ]) ltac:(fail).
Qed.

Lemma limits_rel_refl g (w : world V) : limits_rel g w w.
Proof. intros Hw. exact Hw. Qed.

Lemma limits_rel_trans g (w1 w2 w3 : world V) :
  limits_rel g w1 w2 -> limits_rel g w2 w3 -> limits_rel g w1 w3.
Proof. unfold limits_rel. auto. Qed.

Lemma limits_rel_same_texture g {A} (c : M (world V) A) :
  preserves (@same_texture V) c -> preserves (@limits_rel V g) c.
Proof.
  intros Hc w r w' Hr. apply Hc in Hr. unfold limits_rel.
  rewrite Hr. auto.
Qed.

(** X4. Data limits exist only under CPU scaling.  A texture that has
    just been constructed has no data limits, whatever the arguments
    and whether or not the constructor returns; [set_data] and
    [set_clim] never change the scaling mode and keep the invariant
    that a GPU-scaled texture has no data limits, again whether or not
    they return. *)
Theorem limits_only_under_cpu_scaling :
  (forall data fmt interp (w : world V) r w',
     ScalableTexture2D.new data fmt interp w = (r, w') ->
     _data_limits (tex w') = None) /\
  (forall data (w : world V) r w',
     limits_only_on_cpu (tex w) ->
     ScalableTexture2D.set_data data w = (r, w') ->
     limits_only_on_cpu (tex w') /\
     _scale_texture_gpu (tex w') = _scale_texture_gpu (tex w)) /\
  (forall c (w : world V) r w',
     limits_only_on_cpu (tex w) ->
     ScalableTexture2D.set_clim c w = (r, w') ->
     limits_only_on_cpu (tex w') /\
     _scale_texture_gpu (tex w') = _scale_texture_gpu (tex w)).
Proof.
  split; [|split].
  - intros data fmt interp w r w' Hr. unfold ScalableTexture2D.new in Hr.
    apply bind_inv in Hr. destruct Hr as [(a & w1 & H1 & H2)|(e & H1 & _)].
    + inversion H1; subst. apply no_limits_kept___init__ in H2.
      apply H2. reflexivity.
    + inversion H1.
  - intros data w r w' Hinv Hr.
    remember (_scale_texture_gpu (tex w)) as g eqn:Hg.
    cut (limits_rel g w w').
    { intros Hrel. destruct Hrel as [Hg' Hinv']; [split; auto|]. split; assumption. }
    revert Hr. generalize w r w'. clear.
    change (preserves (@limits_rel V g) (ScalableTexture2D.set_data (V:=V) data)).
    unfold ScalableTexture2D.set_data.
    apply (preserves_bind _ (limits_rel_trans g));
      [apply (preserves_load _ (limits_rel_refl g))|intros a].
    intros w r w' Hr.
    apply bind_inv in Hr. destruct Hr as [([] & w2 & H2 & Hr)|(e & H2 & _)];
      [|inversion H2].
    inversion H2; subst w2; clear H2. rewrite bind_gets in Hr.
    cbn [tex upd_tex _clim with__data_dtype _scale_texture_gpu] in Hr.
    intros [Hg Hinv].
    remember (_clim (tex w)) as cl0 eqn:Hcl. clear Hcl.
    rewrite Hg in Hr.
    cut (limits_rel g (upd_tex (with__data_dtype (Some (nd_dtype a))) w) w').
    { intros Hrel. apply Hrel. split; [exact Hg|exact Hinv]. }
    revert Hr. generalize (upd_tex (with__data_dtype (Some (nd_dtype a))) w).
    clear w Hg Hinv. revert r w'. intros r w' w. revert w r w'.
    match goal with
    | |- forall w r w', ?c w = (r, w') -> _ =>
        change (preserves (@limits_rel V g) c)
    end.
    unfold Texture2D_set_data.
    frame_auto (@limits_rel V g) (limits_rel_refl g) (limits_rel_trans g)
      ltac:(unfold limits_rel, limits_only_on_cpu;
            let Hg := fresh "Hg" in let Hi := fresh "Hi" in
            let Hgpu := fresh "Hgpu" in
            intros [Hg Hi]; split; [exact Hg|];
            intros Hgpu; cbn in Hgpu |- *;
            first [ apply Hi; exact Hgpu
                  | rewrite <- Hg, Hgpu; reflexivity ])
      ltac:(apply limits_rel_same_texture, same_texture__scale_data_on_cpu).
  - intros c w r w' Hinv Hr.
    assert (Hp : preserves (@limits_rel V (_scale_texture_gpu (tex w)))
                   (ScalableTexture2D.set_clim c)).
    { unfold ScalableTexture2D.set_clim.
      frame_auto (@limits_rel V (_scale_texture_gpu (tex w)))
        (limits_rel_refl (_scale_texture_gpu (tex w)))
        (limits_rel_trans (_scale_texture_gpu (tex w)))
        ltac:(unfold limits_rel, limits_only_on_cpu;
              let Hw := fresh "Hw" in intros Hw; exact Hw)
        ltac:(fail). }
    destruct (Hp w r w' Hr) as [Hg' Hinv']; [split; auto|]. split; assumption.
Qed.

End Limits.

(** ** Colour limits under GPU scaling *)

Section GpuClim.
Context {V : Type} `{Arith V}.

Lemma upload_kept_refl (w : world V) : upload_kept w w.
Proof. repeat split. Qed.

Lemma upload_kept_trans (w1 w2 w3 : world V) :
  upload_kept w1 w2 -> upload_kept w2 w3 -> upload_kept w1 w3.
Proof. intros (? & ? & ?) (? & ? & ?). repeat split; congruence. Qed.

(** X5. Under GPU-side scaling, assigning a pair of colour limits never
    asks for a new upload: the texture-upload flag keeps its value, no
    array changes, and the texture changes only in its clim, whether
    or not the setter returns. *)
Theorem gpu_clim_pair_needs_no_upload (w : world V) a b r w' :
  _scale_texture_gpu (tex w) = true -> limits_only_on_cpu (tex w) ->
  ImageVisual.clim_setter (ArgSeq [a; b]) w = (r, w') ->
  _need_texture_upload (vis w') = _need_texture_upload (vis w) /\
  tex w' = with__clim (Some (ClimPair a b)) (tex w) /\
  heap w' = heap w.
Proof.
  intros Hgpu Hinv Hr. unfold ImageVisual.clim_setter in Hr.
  erewrite bind_Ok in Hr by apply set_clim_pair.
  rewrite (Hinv Hgpu) in Hr. cbn [when] in Hr.
  erewrite bind_Ok in Hr by reflexivity.
  revert Hr.
  match goal with
  | |- ?c ?w1 = _ -> _ => assert (Hp : preserves (@upload_kept V) c)
  end.
  { unfold ImageVisual.color_transform_setitem, ImageVisual.update.
    frame_auto (@upload_kept V) upload_kept_refl upload_kept_trans
      ltac:(repeat split) ltac:(fail). }
  intros Hr. apply Hp in Hr. destruct Hr as (Hf & Ht & Hh).
  repeat split; assumption.
Qed.

End GpuClim.

(** ** Assigning a raster to the visual *)

Section VisualData.
Context {V : Type} `{Arith V}.

Lemma bind_lift_Ok {S A B} (a : A) (k : A -> M S B) :
  (x ← lift_res (Ok a); k x) = k a.
Proof. reflexivity. Qed.

(** X6. [ImageVisual.set_data] always returns for an existing array.
    It keeps a reference to the caller's array itself, unless the
    element type is a float wider than 32 bits: then it keeps a new
    float32 copy and warns once.  It sets the texture-upload flag, sets
    the vertex flag if the visual held no raster or one of another
    shape, and touches nothing else: no existing array, not the
    texture, no view, no other flag, and it requests no redraw. *)
Theorem set_data_keeps_reference_or_narrows (w : world V) image a :
  heap w !! image = Some a ->
  (forall l, _data (vis w) = Some l -> is_Some (heap w !! l)) ->
  exists w',
    ImageVisual.set_data image w = (Ok tt, w') /\
    (if wider_than_f32 (nd_dtype a)
     then _data (vis w') = Some (length (heap w)) /\
          heap w' = (heap w ++ [astype_float32 a])%list /\
          warnings w' = (warnings w ++ [F64_PRECISION_WARNING])%list
     else _data (vis w') = Some image /\
          heap w' = heap w /\
          warnings w' = warnings w) /\
    _need_texture_upload (vis w') = true /\
    _need_vertex_update (vis w') =
      _need_vertex_update (vis w) ||
      negb (bool_decide (data_shape w = Some (nd_shape a))) /\
    _need_colortransform_update (vis w') = _need_colortransform_update (vis w) /\
    _need_interpolation_update (vis w') = _need_interpolation_update (vis w) /\
    update_requests (vis w') = update_requests (vis w) /\
    frag_color_transform (vis w') = frag_color_transform (vis w) /\
    tex w' = tex w /\ views w' = views w /\ trace w' = trace w.
Proof.
  intros Hl Hold. unfold ImageVisual.set_data, data_shape.
  assert (Hcase : match _data (vis w) with
                  | Some l => exists b, heap w !! l = Some b
                  | None => True
                  end).
  { destruct (_data (vis w)) as [l|]; [|exact I].
    destruct (Hold l eq_refl) as [b Hb]. exists b. exact Hb. }
  clear Hold. unfold _should_cast_to_f32, wider_than_f32.
  cbn [element_type itemsize_gt]. cbv zeta.
  destruct (is_floating (nd_dtype a) && (itemsize (nd_dtype a) >? 4)) eqn:Hw;
    (destruct (_data (vis w)) as [l|] eqn:Hd;
     [destruct Hcase as [b Hb]; rewrite Hb; cbn [option_map]|]).
  - destruct (bool_decide (Some (nd_shape b) = Some (nd_shape a))) eqn:Hsh.
    + eexists. split.
      { mstep. rewrite bind_lift_Ok. cbv beta. rewrite Hw. mstep. mstep. mstep. rewrite bind_gets. cbn [vis upd_heap upd_warnings].
        rewrite Hd.
        erewrite bind_Ok; cycle 1.
        { erewrite bind_Ok by (apply load_Some; solve_lookup). reflexivity. }
        cbn [astype_float32 nd_shape]. rewrite bool_decide_not, Hsh. cbn [negb when].
        mstep. mstep. reflexivity. }
      cbn. rewrite orb_false_r. repeat split; reflexivity.
    + eexists. split.
      { mstep. rewrite bind_lift_Ok. cbv beta. rewrite Hw. mstep. mstep. mstep. rewrite bind_gets. cbn [vis upd_heap upd_warnings].
        rewrite Hd.
        erewrite bind_Ok; cycle 1.
        { erewrite bind_Ok by (apply load_Some; solve_lookup). reflexivity. }
        cbn [astype_float32 nd_shape]. rewrite bool_decide_not, Hsh. cbn [negb when].
        mstep. mstep. reflexivity. }
      cbn. rewrite orb_true_r. repeat split; reflexivity.
  - eexists. split.
    { mstep. rewrite bind_lift_Ok. cbv beta. rewrite Hw. mstep. mstep. mstep. rewrite bind_gets. cbn [vis upd_heap upd_warnings].
      rewrite Hd. mstep. cbn [when bool_decide decide_rel]. mstep. mstep. reflexivity. }
    cbn. rewrite orb_true_r. repeat split; reflexivity.
  - destruct (bool_decide (Some (nd_shape b) = Some (nd_shape a))) eqn:Hsh.
    + eexists. split.
      { mstep. rewrite bind_lift_Ok. cbv beta. rewrite Hw. mstep. mstep. mstep. rewrite bind_gets. rewrite Hd.
        erewrite bind_Ok; cycle 1.
        { erewrite bind_Ok by (apply load_Some; solve_lookup). reflexivity. }
        rewrite bool_decide_not, Hsh. cbn [negb when].
        mstep. mstep. reflexivity. }
      cbn. rewrite orb_false_r. repeat split; reflexivity.
    + eexists. split.
      { mstep. rewrite bind_lift_Ok. cbv beta. rewrite Hw. mstep. mstep. mstep. rewrite bind_gets. rewrite Hd.
        erewrite bind_Ok; cycle 1.
        { erewrite bind_Ok by (apply load_Some; solve_lookup). reflexivity. }
        rewrite bool_decide_not, Hsh. cbn [negb when].
        mstep. mstep. reflexivity. }
      cbn. rewrite orb_true_r. repeat split; reflexivity.
  - eexists. split.
    { mstep. rewrite bind_lift_Ok. cbv beta. rewrite Hw. mstep. mstep. mstep. rewrite bind_gets. rewrite Hd.
      mstep. cbn [when bool_decide decide_rel]. mstep. mstep. reflexivity. }
    cbn. rewrite orb_true_r. repeat split; reflexivity.
Qed.

End VisualData.

(** ** What a draw leaves alone *)

Lemma kept_refl {V A} (proj : world V -> A) (w : world V) : kept proj w w.
Proof. reflexivity. Qed.

Lemma kept_trans {V A} (proj : world V -> A) (w1 w2 w3 : world V) :
  kept proj w1 w2 -> kept proj w2 w3 -> kept proj w1 w3.
Proof. unfold kept. congruence. Qed.

Lemma bind_assoc {S A B C} (c : M S A) (f : A -> M S B) (g : B -> M S C) s :
  ((c ≫= f) ≫= g) s = (c ≫= fun a => f a ≫= g) s.
Proof.
  unfold mbind, M_bind. destruct (c s) as [[a|e] s1]; reflexivity.
Qed.

Section DrawFrames.
Context {V : Type} `{Arith V}.

Lemma run_steps_preserves (R : world V -> world V -> Prop) v es :
  (forall w, R w w) -> (forall w1 w2 w3, R w1 w2 -> R w2 w3 -> R w1 w3) ->
  (forall e, In e es -> preserves R (step_of v e)) ->
  preserves R (run_steps v es).
Proof.
  intros Hrefl Htrans. induction es as [|e es IH]; intros Hes; cbn [run_steps].
  - apply (preserves_ret R Hrefl).
  - apply (preserves_bind R Htrans); [apply (preserves_get R Hrefl)|intros w0].
    apply (preserves_bind R Htrans).
    + apply (preserves_when R Hrefl). apply Hes. left. reflexivity.
    + intros _. apply IH. intros e' He'. apply Hes. right. exact He'.
Qed.

Lemma run_steps_cons0 v e es (w : world V) :
  run_steps v (e :: es) w =
  (when (flag_of w e) (step_of v e) ≫= fun _ => run_steps v es) w.
Proof. reflexivity. Qed.

Lemma run_steps_app v es1 es2 (w : world V) :
  run_steps v (es1 ++ es2) w = (run_steps v es1 ;; run_steps v es2) w.
Proof.
  revert w. induction es1 as [|e es1 IH]; intros w; [reflexivity|].
  rewrite run_steps_cons. cbn [app]. rewrite run_steps_cons0.
  apply bind_ext_on. intros [] w1 _. apply IH.
Qed.

(** Steps whose flags are clear do nothing. *)
Lemma run_steps_clean v es (w : world V) :
  (forall e, In e es -> flag_of w e = false) ->
  run_steps v es w = (Ok tt, w).
Proof.
  induction es as [|e es IH]; intros Hes; [reflexivity|].
  rewrite run_steps_cons0.
  rewrite (Hes e) by (left; reflexivity). cbn [when].
  erewrite bind_Ok by reflexivity. apply IH.
  intros e' He'. apply Hes. right. exact He'.
Qed.

Lemma draw_order_split v : draw_order v = (visual_steps ++ [EvMethod v])%list.
Proof. reflexivity. Qed.

Ltac unfold_steps :=
  unfold step_of, ImageVisual._build_interpolation, ImageVisual._build_texture,
    ImageVisual.rebuild_color_transform, ImageVisual._build_vertex_data,
    ImageVisual._update_method, ImageVisual._prepare_transforms,
    ImageVisual.size, ImageVisual.lookup_fn_setitem,
    ScalableTexture2D.set_data, ScalableTexture2D._scale_data_on_cpu,
    Texture2D_set_data.

Lemma settings_kept_step_of v e :
  preserves (kept (@settings V)) (step_of v e).
Proof.
  destruct e; unfold_steps;
    frame_auto (kept (@settings V)) (kept_refl (@settings V))
      (kept_trans (@settings V)) ltac:(reflexivity) ltac:(fail).
Qed.

Lemma heap_kept__scale_data_on_cpu data clim :
  preserves (@heap_kept V) (ScalableTexture2D._scale_data_on_cpu data clim).
Proof.
  intros w r w' Hr. destruct (heap w !! data) as [a|] eqn:Hl.
  - destruct clim as [cmin cmax].
    destruct (_scale_data_on_cpu_run w data a cmin cmax Hl)
      as (w1 & l1 & Hrun & Hk & _). rewrite Hrun in Hr.
    inversion Hr; subst. exact Hk.
  - unfold ScalableTexture2D._scale_data_on_cpu in Hr.
    erewrite bind_Raise in Hr by (unfold load; rewrite Hl; reflexivity).
    inversion Hr; subst. apply heap_kept_refl.
Qed.

Lemma heap_kept_step_of v e :
  preserves (@heap_kept V) (step_of v e).
Proof.
  destruct e;
    unfold step_of, ImageVisual._build_interpolation, ImageVisual._build_texture,
      ImageVisual.rebuild_color_transform, ImageVisual._build_vertex_data,
      ImageVisual._update_method, ImageVisual._prepare_transforms,
      ImageVisual.size, ImageVisual.lookup_fn_setitem,
      ScalableTexture2D.set_data, Texture2D_set_data;
    frame_auto (@heap_kept V) (@heap_kept_refl V) (@heap_kept_trans V)
      ltac:(let l := fresh in let a := fresh in let Hl := fresh in
            intros l a Hl; exact Hl)
      ltac:(apply heap_kept__scale_data_on_cpu).
Qed.

Lemma other_views_kept_refl v (w : world V) : other_views_kept v w w.
Proof. intros u _. reflexivity. Qed.

Lemma other_views_kept_trans v (w1 w2 w3 : world V) :
  other_views_kept v w1 w2 -> other_views_kept v w2 w3 ->
  other_views_kept v w1 w3.
Proof. intros H12 H23 u Hu. rewrite H23, H12 by exact Hu. reflexivity. Qed.

Lemma other_views_kept_assign v f (w : world V) :
  other_views_kept v w
    (upd_views (fun l => match l !! v with
                         | Some vw => <[v := f vw]> l
                         | None => l
                         end) w).
Proof.
  intros u Hu. cbn. destruct (views w !! v); [|reflexivity].
  apply list_lookup_insert_ne. congruence.
Qed.

Lemma other_views_kept_step_of v e :
  (forall u, e = EvMethod u -> u = v) ->
  preserves (other_views_kept (V:=V) v) (step_of v e).
Proof.
  intros He. destruct e as [| | | |u]; [| | | |rewrite (He u eq_refl)];
    unfold_steps;
    frame_auto (other_views_kept (V:=V) v) (other_views_kept_refl v)
      (other_views_kept_trans v)
      ltac:(first [ apply other_views_kept_assign
                  | let u := fresh in let Hu := fresh in
                    intros u Hu; reflexivity ])
      ltac:(fail).
Qed.

Lemma views_kept_refl (w : world V) : views_kept w w.
Proof. intros u Hu. exact Hu. Qed.

Lemma views_kept_trans (w1 w2 w3 : world V) :
  views_kept w1 w2 -> views_kept w2 w3 -> views_kept w1 w3.
Proof. intros H12 H23 u Hu. apply H23, H12, Hu. Qed.

Lemma views_kept_step_of v e : preserves (@views_kept V) (step_of v e).
Proof. intros w r w' Hr. apply step_rel_step_of in Hr. apply Hr. Qed.

Lemma _prepare_draw_frame (v : nat) (w : world V) r w' :
  is_Some (views w !! v) ->
  ImageVisual._prepare_draw v w = (r, w') ->
  settings w' = settings w /\
  heap_kept w w' /\
  (forall u, u <> v -> views w' !! u = views w !! u) /\
  is_Some (views w' !! v).
Proof.
  intros Hv Hr. destruct (_data (vis w)) as [l|] eqn:Hd.
  - rewrite _prepare_draw_schedule in Hr by (try rewrite Hd; auto; congruence).
    apply bind_inv in Hr.
    assert (Hgoal : forall w1 r1, run_steps v (draw_order v) w = (r1, w1) ->
              settings w1 = settings w /\ heap_kept w w1 /\
              (forall u, u <> v -> views w1 !! u = views w !! u) /\
              is_Some (views w1 !! v)).
    { intros w1 r1 H1. split; [|split; [|split]].
      - eapply (run_steps_preserves (kept (@settings V))); [| | |exact H1].
        + apply kept_refl. + apply kept_trans.
        + intros e _. apply settings_kept_step_of.
      - eapply (run_steps_preserves (@heap_kept V)); [| | |exact H1].
        + apply heap_kept_refl. + apply heap_kept_trans.
        + intros e _. apply heap_kept_step_of.
      - eapply (run_steps_preserves (other_views_kept (V:=V) v)); [| | |exact H1].
        + apply other_views_kept_refl. + apply other_views_kept_trans.
        + intros e He. apply other_views_kept_step_of.
          intros u ->. cbn in He.
          destruct He as [He|[He|[He|[He|[He|[]]]]]]; congruence.
      - eapply (run_steps_preserves (@views_kept V)); [| | |exact H1|exact Hv].
        + apply views_kept_refl. + apply views_kept_trans.
        + intros e _. apply views_kept_step_of. }
    destruct Hr as [([] & w1 & H1 & H2)|(e & H1 & _)].
    + inversion H2; subst. eapply Hgoal. exact H1.
    + eapply Hgoal. exact H1.
  - rewrite _prepare_draw_no_data in Hr by exact Hd. inversion Hr; subst.
    repeat split; auto. apply heap_kept_refl.
Qed.

(** X7. Preparing a draw never changes what the user configured (the
    raster reference, gamma, the interpolation and its catalogue, the
    method, the grid, the colormap), requests no redraw, changes no
    array that existed before and touches no view other than the one
    drawn, whether or not it returns. *)
Theorem draw_keeps_settings (v : nat) (w : world V) r w' :
  is_Some (views w !! v) ->
  ImageVisual._prepare_draw v w = (r, w') ->
  settings w' = settings w /\
  heap_kept w w' /\
  (forall u, u <> v -> views w' !! u = views w !! u) /\
  is_Some (views w' !! v).
Proof. apply _prepare_draw_frame. Qed.

End DrawFrames.

(** ** Draws after the first *)

Section LaterDraws.
Context {V : Type} `{Arith V}.

(** X8. A draw that has returned leaves nothing to do: preparing the
    same view again returns at once and changes nothing. *)
Theorem redraw_changes_nothing v (w : world V) a w' :
  is_Some (views w !! v) -> _data (vis w) <> None ->
  ImageVisual._prepare_draw v w = (Ok a, w') ->
  ImageVisual._prepare_draw v w' = (Ok RetNone, w').
Proof.
  intros Hv Hd Hr.
  destruct (_prepare_draw_frame v w (Ok a) w' Hv Hr) as (Hs & _ & _ & Hv').
  destruct (_prepare_draw_trace v w w' (Ok a) Hd Hv Hr) as (done & _ & _ & Hok).
  destruct (Hok a eq_refl) as (_ & Hflags).
  assert (Hd' : _data (vis w') <> None).
  { unfold settings in Hs. inversion Hs. congruence. }
  rewrite _prepare_draw_schedule by assumption.
  erewrite bind_Ok by (apply run_steps_clean; exact Hflags).
  reflexivity.
Qed.

Lemma method_config_kept_assign v u f (w : world V) :
  (forall vw, method_config (f vw) = method_config vw) ->
  kept (method_config_of v) w
    (upd_views (fun l => match l !! u with
                         | Some vw => <[u := f vw]> l
                         | None => l
                         end) w).
Proof.
  intros Hf. unfold kept, method_config_of. cbn.
  destruct (views w !! u) as [vw|] eqn:Hu; [|reflexivity].
  destruct (decide (v = u)) as [->|Hne].
  - rewrite (lookup_insert_same _ _ _ _ Hu), Hu. cbn. f_equal. apply Hf.
  - rewrite list_lookup_insert_ne by congruence. reflexivity.
Qed.

Lemma method_config_kept_step_of v e :
  In e visual_steps ->
  preserves (kept (method_config_of (V:=V) v)) (step_of v e).
Proof.
  intros He. destruct e as [| | | |u];
    [| | | |cbn in He; destruct He as [He|[He|[He|[He|[]]]]]; discriminate];
    unfold step_of, ImageVisual._build_interpolation, ImageVisual._build_texture,
      ImageVisual.rebuild_color_transform, ImageVisual._build_vertex_data,
      ImageVisual.size, ImageVisual.lookup_fn_setitem,
      ScalableTexture2D.set_data, ScalableTexture2D._scale_data_on_cpu,
      Texture2D_set_data;
    frame_auto (kept (method_config_of (V:=V) v))
      (kept_refl (method_config_of (V:=V) v))
      (kept_trans (method_config_of (V:=V) v))
      ltac:(first [ reflexivity
                  | apply method_config_kept_assign; intros ?; reflexivity ])
      ltac:(fail).
Qed.

(** A view whose method flag is clear keeps its configuration through
    a draw, and the method step does not run. *)
Lemma drawn_view_keeps_method v (w : world V) r w' :
  is_Some (views w !! v) -> flag_of w (EvMethod v) = false ->
  ImageVisual._prepare_draw v w = (r, w') ->
  method_config_of v w' = method_config_of v w /\
  exists done, trace w' = (trace w ++ done)%list /\ ~ In (EvMethod v) done.
Proof.
  intros Hv Hf Hr. destruct (_data (vis w)) as [l|] eqn:Hd; cycle 1.
  { rewrite _prepare_draw_no_data in Hr by exact Hd. inversion Hr; subst.
    split; [reflexivity|]. exists []. rewrite app_nil_r. auto. }
  assert (Hd' : _data (vis w) <> None) by congruence.
  split.
  - rewrite _prepare_draw_schedule in Hr by assumption.
    rewrite draw_order_split in Hr.
    erewrite bind_ext_on in Hr; cycle 1.
    { intros a0 s' Ha. reflexivity. }
    unfold mbind at 1 in Hr. unfold M_bind in Hr.
    rewrite run_steps_app in Hr.
    destruct ((run_steps v visual_steps ≫= λ _ : (), run_steps v [EvMethod v]) w)
      as [r1 w1] eqn:H1.
    assert (Hk : kept (method_config_of v) w w1).
    { apply bind_inv in H1.
      assert (Hp : preserves (kept (method_config_of (V:=V) v))
                     (run_steps v visual_steps)).
      { apply run_steps_preserves; [apply kept_refl|apply kept_trans|].
        intros e He. apply method_config_kept_step_of. exact He. }
      destruct H1 as [([] & w2 & H2 & H3)|(e & H2 & _)].
      - pose proof (Hp _ _ _ H2) as Hk2.
        rewrite run_steps_clean in H3; [inversion H3; subst; exact Hk2|].
        intros e [<-|[]]. unfold flag_of in Hf |- *.
        unfold kept, method_config_of in Hk2.
        destruct (views w !! v) as [vw|], (views w2 !! v) as [vw2|];
          cbn in Hk2; try discriminate; [|reflexivity].
        inversion Hk2. congruence.
      - apply (Hp _ _ _ H2). }
    destruct r1; inversion Hr; subst; exact Hk.
  - destruct (_prepare_draw_trace v w w' r Hd' Hv Hr) as (done & Ht & Hpre & _).
    exists done. split; [exact Ht|]. intros Hin.
    apply list_elem_of_In in Hin.
    pose proof (elem_of_prefix _ _ _ Hin Hpre) as Hs.
    unfold scheduled in Hs. apply list_elem_of_filter in Hs.
    destruct Hs as [[Hs|[Hs _]] _]; congruence.
Qed.

(** X9. The render method of a view is settled at its first draw.
    After the method setter has been called on a visual whose view has
    been configured, the next draw of that view does not run the
    method step and leaves the view's method, buffers and transforms
    as they were, while the visual records the new name, known or
    not. *)
Theorem method_change_does_not_reach_a_drawn_view v (w : world V) vw m r w2 :
  views w !! v = Some vw -> _need_method_update vw = false ->
  (ImageVisual.method_setter m ;; ImageVisual._prepare_draw v) w = (r, w2) ->
  _method (vis w2) = m /\
  option_map method_config (views w2 !! v) = Some (method_config vw) /\
  exists done, trace w2 = (trace w ++ done)%list /\ ~ In (EvMethod v) done.
Proof.
  intros Hv Hf Hr.
  destruct (String.eqb (_method (vis w)) m) eqn:Hm.
  - erewrite bind_Ok in Hr by (rewrite method_setter_run, Hm; reflexivity).
    apply String.eqb_eq in Hm.
    destruct (drawn_view_keeps_method v w r w2) as (Hk & Hdone);
      [eauto| unfold flag_of; rewrite Hv; exact Hf | exact Hr |].
    destruct (_prepare_draw_frame v w r w2) as (Hs & _); [eauto|exact Hr|].
    split; [|split].
    + unfold settings in Hs. inversion Hs. congruence.
    + unfold method_config_of in Hk. rewrite Hk, Hv. reflexivity.
    + exact Hdone.
  - erewrite bind_Ok in Hr by (rewrite method_setter_run, Hm; reflexivity).
    set (w1 := upd_vis (fun s => with_update_requests (S (update_requests s))
                  (with__need_vertex_update true (with__method m s))) w) in *.
    destruct (drawn_view_keeps_method v w1 r w2) as (Hk & Hdone);
      [exists vw; exact Hv| unfold flag_of; cbn; rewrite Hv; exact Hf
      | exact Hr |].
    destruct (_prepare_draw_frame v w1 r w2) as (Hs & _);
      [exists vw; exact Hv|exact Hr|].
    split; [|split].
    + unfold settings in Hs. inversion Hs. reflexivity.
    + unfold method_config_of in Hk. rewrite Hk. cbn. rewrite Hv. reflexivity.
    + exact Hdone.
Qed.

End LaterDraws.

(** ** Further views, and a grid without cells *)

Section ViewsAndGrid.
Context {V : Type} `{Arith V}.

Lemma view__run (w : world V) :
  ImageVisual.view_ w =
  (Ok (length (views w)),
   upd_views (fun l => (l ++ [with__need_method_update true
                                ImageVisual.blank_view])%list) w).
Proof.
  unfold ImageVisual.view_. rewrite bind_gets.
  erewrite bind_Ok by reflexivity.
  unfold ImageVisual._init_view.
  erewrite bind_Ok; cycle 1.
  { erewrite bind_Ok by (apply view_assign_Some; cbn; apply lookup_snoc).
    apply view_assign_Some. cbn. rewrite insert_snoc. apply lookup_snoc. }
  cbn. unfold upd_views. cbn. rewrite !insert_snoc. reflexivity.
Qed.

(** X10. [view()] adds one view and leaves the visual and the other
    views as they are.  When nothing on the visual is dirty, the first
    draw of the new view runs the method step for it and no other
    step. *)
Theorem new_view_is_configured_on_its_first_draw (w : world V) :
  _data (vis w) <> None ->
  (forall e, In e visual_steps -> flag_of w e = false) ->
  exists w1,
    ImageVisual.view_ w = (Ok (length (views w)), w1) /\
    vis w1 = vis w /\ tex w1 = tex w /\ heap w1 = heap w /\
    length (views w1) = S (length (views w)) /\
    (forall u vw, views w !! u = Some vw -> views w1 !! u = Some vw) /\
    flag_of w1 (EvMethod (length (views w))) = true /\
    forall r w2,
      ImageVisual._prepare_draw (length (views w)) w1 = (r, w2) ->
      trace w2 = (trace w ++ [EvMethod (length (views w))])%list.
Proof.
  intros Hd Hclean. eexists. split; [apply view__run|].
  set (n := length (views w)).
  set (w1 := upd_views _ w).
  assert (Hn : views w1 !! n = Some (with__need_method_update true
                                       ImageVisual.blank_view)).
  { unfold w1, n. cbn. apply lookup_snoc. }
  split; [reflexivity|]. split; [reflexivity|]. split; [reflexivity|].
  split; [unfold w1; cbn; rewrite length_app; cbn; lia|].
  split; [intros u vw Hu; unfold w1; cbn; apply lookup_snoc_old; exact Hu|].
  split; [unfold flag_of; rewrite Hn; reflexivity|].
  intros r w2 Hr.
  rewrite _prepare_draw_schedule in Hr by (try exact Hd; rewrite Hn; eauto).
  rewrite draw_order_split in Hr.
  unfold mbind at 1 in Hr. unfold M_bind in Hr.
  rewrite run_steps_app in Hr.
  assert (Hclean1 : forall e, In e visual_steps -> flag_of w1 e = false).
  { intros e He. rewrite <- (Hclean e He).
    destruct e; try reflexivity.
    cbn in He. destruct He as [He|[He|[He|[He|[]]]]]; discriminate. }
  erewrite bind_Ok in Hr by (apply run_steps_clean; exact Hclean1).
  rewrite run_steps_cons0 in Hr.
  assert (Hf : flag_of w1 (EvMethod n) = true)
    by (unfold flag_of; rewrite Hn; reflexivity).
  rewrite Hf in Hr. cbn [when] in Hr.
  destruct (step_of n (EvMethod n) w1) as [r1 w3] eqn:Hstep.
  pose proof (step_rel_step_of n (EvMethod n) _ _ _ Hstep) as (Ht & _).
  unfold mbind, M_bind in Hr. rewrite Hstep in Hr.
  destruct r1 as [[]|e]; cbn in Hr; inversion Hr; subst; exact Ht.
Qed.

Lemma _build_vertex_data_zero_grid (w : world V) :
  fst (_grid (vis w)) = 0%nat \/ snd (_grid (vis w)) = 0%nat ->
  ImageVisual._build_vertex_data w =
  (Raise ZeroDivisionError, upd_trace (fun t => (t ++ [EvVertex])%list) w).
Proof.
  intros Hz. unfold ImageVisual._build_vertex_data.
  erewrite bind_Ok by reflexivity. rewrite bind_gets. cbn [vis upd_trace].
  erewrite bind_Raise; [reflexivity|].
  destruct Hz as [-> | ->]; cbn; rewrite ?orb_true_r; reflexivity.
Qed.

Lemma grid_and_vertex_flag_kept_step_of v e :
  In e early_steps ->
  preserves (kept (@grid_and_vertex_flag V)) (step_of v e).
Proof.
  intros He. destruct e as [| | | |u];
    try (cbn in He; destruct He as [He|[He|[He|[]]]]; discriminate);
    unfold step_of, ImageVisual._build_interpolation, ImageVisual._build_texture,
      ImageVisual.rebuild_color_transform,
      ImageVisual.size, ImageVisual.lookup_fn_setitem,
      ScalableTexture2D.set_data, ScalableTexture2D._scale_data_on_cpu,
      Texture2D_set_data;
    frame_auto (kept (@grid_and_vertex_flag V))
      (kept_refl (@grid_and_vertex_flag V))
      (kept_trans (@grid_and_vertex_flag V))
      ltac:(reflexivity) ltac:(fail).
Qed.

(** X11. The grid is not checked when it is set.  With a grid that has
    no rows or no columns, every draw whose vertex step is due fails
    (at the latest in the vertex step, with [ZeroDivisionError]); the
    vertex flag stays set, so the next draw fails in the same way. *)
Theorem zero_grid_fails_every_draw v (w : world V) r w' :
  is_Some (views w !! v) -> _data (vis w) <> None ->
  _need_vertex_update (vis w) = true ->
  fst (_grid (vis w)) = 0%nat \/ snd (_grid (vis w)) = 0%nat ->
  ImageVisual._prepare_draw v w = (r, w') ->
  (exists e, r = Raise e) /\
  _need_vertex_update (vis w') = true /\
  _grid (vis w') = _grid (vis w).
Proof.
  intros Hv Hd Hf Hz Hr.
  rewrite _prepare_draw_schedule in Hr by assumption.
  change (draw_order v) with (early_steps ++ [EvVertex; EvMethod v])%list in Hr.
  unfold mbind at 1 in Hr. unfold M_bind in Hr.
  rewrite run_steps_app in Hr.
  assert (Hp : preserves (kept (@grid_and_vertex_flag V))
                 (run_steps v early_steps)).
  { apply run_steps_preserves; [apply kept_refl|apply kept_trans|].
    intros e He. apply grid_and_vertex_flag_kept_step_of. exact He. }
  destruct (run_steps v early_steps w) as [r1 w1] eqn:H1.
  pose proof (Hp _ _ _ H1) as Hk. unfold kept, grid_and_vertex_flag in Hk.
  inversion Hk as [[Hg Hfl]].
  unfold mbind at 1 in Hr. unfold M_bind in Hr. rewrite H1 in Hr.
  destruct r1 as [[]|e].
  - rewrite run_steps_cons0 in Hr.
    assert (Hf1 : flag_of w1 EvVertex = true) by (cbn; congruence).
    rewrite Hf1 in Hr. cbn [when step_of] in Hr.
    erewrite bind_Raise in Hr
      by (apply _build_vertex_data_zero_grid; rewrite Hg; exact Hz).
    inversion Hr; subst. cbn. repeat split; eauto; congruence.
  - inversion Hr; subst. repeat split; eauto; congruence.
Qed.

End ViewsAndGrid.

(** ** Size and bounds *)

Section Bounds.
Context {V : Type} `{Arith V}.

(** X12. The bounds of the visual follow the raster: along axis 0 they
    run from 0 to the number of columns, along axis 1 from 0 to the
    number of rows, and along any further axis they are (0, 0), raster
    or not.  Without a raster the first two axes fail with
    [AttributeError]; for a raster with a single axis the second fails
    with [IndexError].  The world is never changed. *)
Theorem bounds_follow_the_raster_shape (w : world V) :
  (forall axis, (1 < axis)%nat ->
     ImageVisual._compute_bounds axis w = (Ok (0, 0)%nat, w)) /\
  (forall l a r c rest,
     _data (vis w) = Some l -> heap w !! l = Some a ->
     nd_shape a = r :: c :: rest ->
     ImageVisual.size w = (Ok [c; r], w) /\
     ImageVisual._compute_bounds 0 w = (Ok (0, c)%nat, w) /\
     ImageVisual._compute_bounds 1 w = (Ok (0, r)%nat, w)) /\
  (forall axis, (axis <= 1)%nat -> _data (vis w) = None ->
     ImageVisual._compute_bounds axis w =
       (Raise (AttributeError "'NoneType' object has no attribute 'shape'"), w)) /\
  (forall l a n,
     _data (vis w) = Some l -> heap w !! l = Some a -> nd_shape a = [n] ->
     ImageVisual._compute_bounds 0 w = (Ok (0, n)%nat, w) /\
     ImageVisual._compute_bounds 1 w =
       (Raise (IndexError "tuple index out of range"), w)).
Proof.
  split; [|split; [|split]].
  - intros axis Hax. unfold ImageVisual._compute_bounds.
    apply Nat.ltb_lt in Hax. rewrite Hax. reflexivity.
  - intros l a r c rest Hd Hl Hs.
    pose proof (size_run w l a Hd Hl) as Hsz. rewrite Hs in Hsz. cbn in Hsz.
    split; [exact Hsz|].
    unfold ImageVisual._compute_bounds. cbn [Nat.ltb Nat.leb].
    split; erewrite bind_Ok by exact Hsz; reflexivity.
  - intros axis Hax Hd. unfold ImageVisual._compute_bounds.
    assert (Hlt : (1 <? axis)%nat = false) by (apply Nat.ltb_ge; exact Hax).
    rewrite Hlt. erewrite bind_Raise; [reflexivity|].
    unfold ImageVisual.size. rewrite bind_gets, Hd. reflexivity.
  - intros l a n Hd Hl Hs.
    pose proof (size_run w l a Hd Hl) as Hsz. rewrite Hs in Hsz. cbn in Hsz.
    unfold ImageVisual._compute_bounds. cbn [Nat.ltb Nat.leb].
    split; erewrite bind_Ok by exact Hsz; reflexivity.
Qed.

End Bounds.

(** ** The interpolation catalogue *)

Lemma assoc_get_set {A} k k' (v : A) l :
  assoc_get k (assoc_set k' v l) =
  if String.eqb k k' then Some v else assoc_get k l.
Proof.
  induction l as [|[k0 v0] l IH]; cbn.
  - destruct (String.eqb k k'); reflexivity.
  - destruct (String.eqb_spec k' k0) as [->|Hne]; cbn.
    + destruct (String.eqb k k0); reflexivity.
    + destruct (String.eqb_spec k k0) as [->|H2].
      * destruct (String.eqb_spec k0 k'); [congruence|reflexivity].
      * exact IH.
Qed.

Lemma assoc_get_app {A} k (l1 l2 : list (string * A)) :
  assoc_get k (l1 ++ l2) =
  match assoc_get k l1 with Some v => Some v | None => assoc_get k l2 end.
Proof.
  induction l1 as [|[k0 v0] l1 IH]; cbn; [reflexivity|].
  destruct (String.eqb k k0); [reflexivity|exact IH].
Qed.

Lemma assoc_get_In {A} k (v : A) l : assoc_get k l = Some v -> In (k, v) l.
Proof.
  induction l as [|[k0 v0] l IH]; cbn; [discriminate|].
  destruct (String.eqb_spec k k0) as [->|Hne].
  - intros Hv. inversion Hv. left. reflexivity.
  - intros Hv. right. apply IH, Hv.
Qed.

Lemma assoc_get_is_Some {A} k (l : list (string * A)) :
  In k (map fst l) -> is_Some (assoc_get k l).
Proof.
  induction l as [|[k0 v0] l IH]; cbn; [intros []|].
  destruct (String.eqb_spec k k0) as [->|Hne]; [eauto|].
  intros [Hk|Hk]; [congruence|apply IH, Hk].
Qed.

Lemma assoc_get_fold {A} k (kvs : list (string * A)) d :
  assoc_get k (fold_left (fun d kv => assoc_set (fst kv) (snd kv) d) kvs d) =
  match assoc_get k (rev kvs) with
  | Some v => Some v
  | None => assoc_get k d
  end.
Proof.
  revert d. induction kvs as [|[k1 v1] kvs IH]; intros d; cbn; [reflexivity|].
  rewrite IH, assoc_get_app, assoc_get_set. cbn.
  destruct (assoc_get k (rev kvs)); [reflexivity|].
  destruct (String.eqb k k1); reflexivity.
Qed.

Lemma zip_map_map {A B C} (g : A -> B) (f : A -> C) l :
  zip (map g l) (map f l) = map (fun n => (g n, f n)) l.
Proof. induction l as [|x l IH]; cbn; [reflexivity|]. f_equal. exact IH. Qed.

Lemma insert_sorted_perm x l : Permutation (insert_sorted x l) (x :: l).
Proof.
  induction l as [|y l IH]; cbn; [reflexivity|].
  destruct (String.leb x y); [reflexivity|].
  etransitivity; [apply perm_skip, IH|apply perm_swap].
Qed.

(** [list.sort()] keeps the members of the list. *)
Lemma sort_strings_perm l : Permutation (sort_strings l) l.
Proof.
  induction l as [|x l IH]; cbn; [reflexivity|].
  etransitivity; [apply insert_sorted_perm|]. apply perm_skip, IH.
Qed.

Lemma str_in_In x l : str_in x l = true <-> In x l.
Proof.
  unfold str_in. rewrite existsb_exists. split.
  - intros (y & Hy & He). apply String.eqb_eq in He. subst. exact Hy.
  - intros Hx. exists x. split; [exact Hx|apply String.eqb_refl].
Qed.

Section Catalogue.
Context {V : Type} `{Arith V}.

(** The table [__init__] builds from the kernel names. *)
Lemma catalogue_table (names : list string) i :
  str_in i (sort_strings (map str_lower names)) = true ->
  exists f : Function V,
    assoc_get i
      (assoc_set "bilinear" (mkFunction _texture_lookup)
         (assoc_set "nearest" (mkFunction _texture_lookup)
            (ImageVisual.dict_zip (map str_lower names)
               (map (fun n => mkFunction (_interpolation_template n)) names))))
    = Some f /\
    fn_slots f = [] /\
    (i = "nearest" \/ i = "bilinear" -> fn_source f = _texture_lookup) /\
    (i <> "nearest" -> i <> "bilinear" ->
     exists n, In n names /\ str_lower n = i /\
               fn_source f = _interpolation_template n).
Proof.
  intros Hi. apply str_in_In in Hi.
  apply (Permutation_in _ (sort_strings_perm _)) in Hi.
  rewrite !assoc_get_set.
  destruct (String.eqb_spec i "bilinear") as [->|Hb].
  { eexists. split; [reflexivity|]. split; [reflexivity|].
    split; [reflexivity|]. intros _ Hc. congruence. }
  destruct (String.eqb_spec i "nearest") as [->|Hn].
  { eexists. split; [reflexivity|]. split; [reflexivity|].
    split; [reflexivity|]. intros Hc. congruence. }
  unfold ImageVisual.dict_zip. rewrite zip_map_map, assoc_get_fold. cbn.
  set (kvs := map (fun n => (str_lower n,
                             mkFunction (V:=V) (_interpolation_template n))) names).
  assert (Hsome : is_Some (assoc_get i (rev kvs))).
  { apply assoc_get_is_Some. rewrite map_rev. apply in_rev.
    rewrite rev_involutive. unfold kvs. rewrite map_map. cbn. exact Hi. }
  destruct Hsome as [f Hf]. rewrite Hf. exists f. split; [reflexivity|].
  apply assoc_get_In in Hf. apply in_rev in Hf. unfold kvs in Hf.
  apply in_map_iff in Hf. destruct Hf as (n & Hn' & Hin).
  inversion Hn'; subst. split; [reflexivity|].
  split; [intros [?|?]; congruence|].
  intros _ _. exists n. repeat split. exact Hin.
Qed.

End Catalogue.

(** ** The constructor of the visual *)


(** Projections of an updated world, as rewrite rules. *)
Lemma heap_upd_heap {V} f (w : world V) : heap (upd_heap f w) = f (heap w).
Proof. reflexivity. Qed.
Lemma heap_upd_warnings {V} f (w : world V) : heap (upd_warnings f w) = heap w.
Proof. reflexivity. Qed.
Lemma heap_upd_trace {V} f (w : world V) : heap (upd_trace f w) = heap w.
Proof. reflexivity. Qed.
Lemma heap_upd_tex {V} f (w : world V) : heap (upd_tex f w) = heap w.
Proof. reflexivity. Qed.
Lemma heap_upd_vis {V} f (w : world V) : heap (upd_vis f w) = heap w.
Proof. reflexivity. Qed.
Lemma heap_upd_views {V} f (w : world V) : heap (upd_views f w) = heap w.
Proof. reflexivity. Qed.
Lemma warnings_upd_heap {V} f (w : world V) : warnings (upd_heap f w) = warnings w.
Proof. reflexivity. Qed.
Lemma warnings_upd_warnings {V} f (w : world V) : warnings (upd_warnings f w) = f (warnings w).
Proof. reflexivity. Qed.
Lemma warnings_upd_trace {V} f (w : world V) : warnings (upd_trace f w) = warnings w.
Proof. reflexivity. Qed.
Lemma warnings_upd_tex {V} f (w : world V) : warnings (upd_tex f w) = warnings w.
Proof. reflexivity. Qed.
Lemma warnings_upd_vis {V} f (w : world V) : warnings (upd_vis f w) = warnings w.
Proof. reflexivity. Qed.
Lemma warnings_upd_views {V} f (w : world V) : warnings (upd_views f w) = warnings w.
Proof. reflexivity. Qed.
Lemma trace_upd_heap {V} f (w : world V) : trace (upd_heap f w) = trace w.
Proof. reflexivity. Qed.
Lemma trace_upd_warnings {V} f (w : world V) : trace (upd_warnings f w) = trace w.
Proof. reflexivity. Qed.
Lemma trace_upd_trace {V} f (w : world V) : trace (upd_trace f w) = f (trace w).
Proof. reflexivity. Qed.
Lemma trace_upd_tex {V} f (w : world V) : trace (upd_tex f w) = trace w.
Proof. reflexivity. Qed.
Lemma trace_upd_vis {V} f (w : world V) : trace (upd_vis f w) = trace w.
Proof. reflexivity. Qed.
Lemma trace_upd_views {V} f (w : world V) : trace (upd_views f w) = trace w.
Proof. reflexivity. Qed.
Lemma tex_upd_heap {V} f (w : world V) : tex (upd_heap f w) = tex w.
Proof. reflexivity. Qed.
Lemma tex_upd_warnings {V} f (w : world V) : tex (upd_warnings f w) = tex w.
Proof. reflexivity. Qed.
Lemma tex_upd_trace {V} f (w : world V) : tex (upd_trace f w) = tex w.
Proof. reflexivity. Qed.
Lemma tex_upd_tex {V} f (w : world V) : tex (upd_tex f w) = f (tex w).
Proof. reflexivity. Qed.
Lemma tex_upd_vis {V} f (w : world V) : tex (upd_vis f w) = tex w.
Proof. reflexivity. Qed.
Lemma tex_upd_views {V} f (w : world V) : tex (upd_views f w) = tex w.
Proof. reflexivity. Qed.
Lemma vis_upd_heap {V} f (w : world V) : vis (upd_heap f w) = vis w.
Proof. reflexivity. Qed.
Lemma vis_upd_warnings {V} f (w : world V) : vis (upd_warnings f w) = vis w.
Proof. reflexivity. Qed.
Lemma vis_upd_trace {V} f (w : world V) : vis (upd_trace f w) = vis w.
Proof. reflexivity. Qed.
Lemma vis_upd_tex {V} f (w : world V) : vis (upd_tex f w) = vis w.
Proof. reflexivity. Qed.
Lemma vis_upd_vis {V} f (w : world V) : vis (upd_vis f w) = f (vis w).
Proof. reflexivity. Qed.
Lemma vis_upd_views {V} f (w : world V) : vis (upd_views f w) = vis w.
Proof. reflexivity. Qed.
Lemma views_upd_heap {V} f (w : world V) : views (upd_heap f w) = views w.
Proof. reflexivity. Qed.
Lemma views_upd_warnings {V} f (w : world V) : views (upd_warnings f w) = views w.
Proof. reflexivity. Qed.
Lemma views_upd_trace {V} f (w : world V) : views (upd_trace f w) = views w.
Proof. reflexivity. Qed.
Lemma views_upd_tex {V} f (w : world V) : views (upd_tex f w) = views w.
Proof. reflexivity. Qed.
Lemma views_upd_vis {V} f (w : world V) : views (upd_vis f w) = views w.
Proof. reflexivity. Qed.
Lemma views_upd_views {V} f (w : world V) : views (upd_views f w) = f (views w).
Proof. reflexivity. Qed.

Ltac project_world :=
  repeat first
    [ rewrite heap_upd_heap
    | rewrite heap_upd_warnings
    | rewrite heap_upd_trace
    | rewrite heap_upd_tex
    | rewrite heap_upd_vis
    | rewrite heap_upd_views
    | rewrite warnings_upd_heap
    | rewrite warnings_upd_warnings
    | rewrite warnings_upd_trace
    | rewrite warnings_upd_tex
    | rewrite warnings_upd_vis
    | rewrite warnings_upd_views
    | rewrite trace_upd_heap
    | rewrite trace_upd_warnings
    | rewrite trace_upd_trace
    | rewrite trace_upd_tex
    | rewrite trace_upd_vis
    | rewrite trace_upd_views
    | rewrite tex_upd_heap
    | rewrite tex_upd_warnings
    | rewrite tex_upd_trace
    | rewrite tex_upd_tex
    | rewrite tex_upd_vis
    | rewrite tex_upd_views
    | rewrite vis_upd_heap
    | rewrite vis_upd_warnings
    | rewrite vis_upd_trace
    | rewrite vis_upd_tex
    | rewrite vis_upd_vis
    | rewrite vis_upd_views
    | rewrite views_upd_heap
    | rewrite views_upd_warnings
    | rewrite views_upd_trace
    | rewrite views_upd_tex
    | rewrite views_upd_vis
    | rewrite views_upd_views ].

Ltac project_world_in H :=
  repeat first
    [ rewrite heap_upd_heap in H
    | rewrite heap_upd_warnings in H
    | rewrite heap_upd_trace in H
    | rewrite heap_upd_tex in H
    | rewrite heap_upd_vis in H
    | rewrite heap_upd_views in H
    | rewrite warnings_upd_heap in H
    | rewrite warnings_upd_warnings in H
    | rewrite warnings_upd_trace in H
    | rewrite warnings_upd_tex in H
    | rewrite warnings_upd_vis in H
    | rewrite warnings_upd_views in H
    | rewrite trace_upd_heap in H
    | rewrite trace_upd_warnings in H
    | rewrite trace_upd_trace in H
    | rewrite trace_upd_tex in H
    | rewrite trace_upd_vis in H
    | rewrite trace_upd_views in H
    | rewrite tex_upd_heap in H
    | rewrite tex_upd_warnings in H
    | rewrite tex_upd_trace in H
    | rewrite tex_upd_tex in H
    | rewrite tex_upd_vis in H
    | rewrite tex_upd_views in H
    | rewrite vis_upd_heap in H
    | rewrite vis_upd_warnings in H
    | rewrite vis_upd_trace in H
    | rewrite vis_upd_tex in H
    | rewrite vis_upd_vis in H
    | rewrite vis_upd_views in H
    | rewrite views_upd_heap in H
    | rewrite views_upd_warnings in H
    | rewrite views_upd_trace in H
    | rewrite views_upd_tex in H
    | rewrite views_upd_vis in H
    | rewrite views_upd_views in H ].

Section Constructor.
Context {V : Type} `{Arith V}.

Ltac unfold_texture_init :=
  unfold ScalableTexture2D.new, ScalableTexture2D.__init__,
    ScalableTexture2D._create_rep_array,
    ScalableTexture2D._get_texture_format_for_data,
    ScalableTexture2D._data_num_channels,
    ScalableTexture2D._handle_auto_texture_format,
    ScalableTexture2D._get_gl_tex_format, _should_cast_to_f32,
    Texture2D__init__.

Ltac unfold_setters :=
  unfold ImageVisual._init_view, ImageVisual.clim_setter,
    ImageVisual.cmap_setter, ImageVisual.set_data,
    ImageVisual.color_transform_setitem, ImageVisual.update,
    ScalableTexture2D.set_clim, _should_cast_to_f32.

Lemma same_visual_new data fmt interp :
  preserves (same_visual (V:=V)) (ScalableTexture2D.new data fmt interp).
Proof.
  unfold_texture_init.
  frame_auto (same_visual (V:=V)) (same_visual_refl (V:=V))
    (same_visual_trans (V:=V)) ltac:(repeat split) ltac:(fail).
Qed.

Lemma new_unknown_interpolation
    names data method grid cmap clim gamma interp fmt (w : world V) :
  str_in interp (sort_strings (map str_lower names)) = false ->
  exists w',
    ImageVisual.new names data method grid cmap clim gamma interp fmt w =
      (Raise (ValueError ("interpolation must be one of " ++
                str_join ", " (sort_strings (map str_lower names)))), w') /\
    tex w' = tex w /\ heap w' = heap w /\ warnings w' = warnings w /\
    trace w' = trace w.
Proof.
  intros Hi. unfold ImageVisual.new, ImageVisual.__init__.
  eexists. split.
  - do 10 (erewrite bind_Ok by reflexivity).
    rewrite bind_gets.
    match goal with
    | |- context [_interpolation_names (vis ?w0)] => set (w1 := w0)
    end.
    change (_interpolation_names (vis w1))
      with (sort_strings (map str_lower names)).
    rewrite Hi. cbn [negb].
    erewrite bind_Raise; reflexivity.
  - repeat split.
Qed.

(** X13. The constructor checks the interpolation name before it
    creates the texture: a name outside the catalogue fails with the
    [ValueError] that lists the catalogue in ascending order, and
    neither the texture nor any array nor the warnings have been
    touched. *)
Theorem constructor_rejects_unknown_interpolation
    names data method grid cmap clim gamma interp fmt (w : world V) :
  str_in interp (sort_strings (map str_lower names)) = false ->
  exists w',
    ImageVisual.new names data method grid cmap clim gamma interp fmt w =
      (Raise (ValueError ("interpolation must be one of " ++
                str_join ", " (sort_strings (map str_lower names)))), w') /\
    tex w' = tex w /\ heap w' = heap w /\ warnings w' = warnings w /\
    trace w' = trace w.
Proof. apply new_unknown_interpolation. Qed.

Lemma new_catalogue
    names data method grid cmap clim gamma interp fmt (w : world V) r w' :
  ImageVisual.new names data method grid cmap clim gamma interp fmt w = (r, w') ->
  Permutation (_interpolation_names (vis w')) (map str_lower names) /\
  forall i, str_in i (_interpolation_names (vis w')) = true ->
    exists f,
      assoc_get i (_interpolation_fun (vis w')) = Some f /\
      fn_slots f = [] /\
      (i = "nearest" \/ i = "bilinear" -> fn_source f = _texture_lookup) /\
      (i <> "nearest" -> i <> "bilinear" ->
       exists n, In n names /\ str_lower n = i /\
                 fn_source f = _interpolation_template n).
Proof.
  intros Hr. unfold ImageVisual.new, ImageVisual.__init__ in Hr.
  do 10 (erewrite bind_Ok in Hr by reflexivity).
  rewrite bind_gets in Hr.
  match type of Hr with
  | context [_interpolation_names (vis ?w0)] => set (w1 := w0) in Hr
  end.
  change (_interpolation_names (vis w1))
    with (sort_strings (map str_lower names)) in Hr.
  assert (Hk : kept catalogue w1 w').
  { revert Hr. generalize w1 r w'.
    match goal with
    | |- forall w0 r0 w0', ?c w0 = (r0, w0') -> _ =>
        change (preserves (kept (@catalogue V)) c)
    end.
    unfold_texture_init. unfold_setters.
    frame_auto (kept (@catalogue V)) (kept_refl (@catalogue V))
      (kept_trans (@catalogue V)) ltac:(reflexivity) ltac:(fail). }
  unfold kept, catalogue in Hk. inversion Hk as [[Hn Hf]].
  rewrite Hn, Hf.
  split; [apply sort_strings_perm|]. apply catalogue_table.
Qed.

(** X14. Whatever else the constructor is given and however it ends,
    the visual it leaves has as its catalogue the lower-cased kernel
    names in some order, and a shader function for every name of the
    catalogue: the hardware lookup for "nearest" and "bilinear", and
    for any other name the filter template of a kernel whose
    lower-cased name it is.  No function has a variable bound yet. *)
Theorem constructor_builds_the_catalogue
    names data method grid cmap clim gamma interp fmt (w : world V) r w' :
  ImageVisual.new names data method grid cmap clim gamma interp fmt w = (r, w') ->
  Permutation (_interpolation_names (vis w')) (map str_lower names) /\
  forall i, str_in i (_interpolation_names (vis w')) = true ->
    exists f,
      assoc_get i (_interpolation_fun (vis w')) = Some f /\
      fn_slots f = [] /\
      (i = "nearest" \/ i = "bilinear" -> fn_source f = _texture_lookup) /\
      (i <> "nearest" -> i <> "bilinear" ->
       exists n, In n names /\ str_lower n = i /\
                 fn_source f = _interpolation_template n).
Proof. apply new_catalogue. Qed.

(** With a rebuild of the chain pending, the clim setter leaves the
    chain alone. *)
Lemma clim_setter_pending c (w : world V) a w' :
  _need_colortransform_update (vis w) = true ->
  ImageVisual.clim_setter c w = (Ok a, w') ->
  exists need : bool,
    vis w' = with_update_requests (S (update_requests (vis w)))
               (if need then with__need_texture_upload true (vis w)
                else vis w) /\
    views w' = views w /\ trace w' = trace w.
Proof.
  intros Hct Hr. unfold ImageVisual.clim_setter in Hr.
  apply bind_inv in Hr. destruct Hr as [(need & w1 & H1 & Hr)|(e & _ & He)];
    [|discriminate].
  apply same_visual_set_clim in H1. destruct H1 as (Hvis & Hviews & Htr).
  exists need. destruct need; cbn [when] in Hr.
  - erewrite bind_Ok in Hr by reflexivity. rewrite bind_gets in Hr.
    cbn [vis upd_vis _need_colortransform_update with__need_texture_upload] in Hr.
    rewrite Hvis, Hct in Hr. cbn [negb when] in Hr.
    erewrite bind_Ok in Hr by reflexivity.
    inversion Hr; subst. cbn. rewrite Hvis. repeat split; assumption.
  - erewrite bind_Ok in Hr by reflexivity. rewrite bind_gets in Hr.
    rewrite Hvis, Hct in Hr. cbn [negb when] in Hr.
    erewrite bind_Ok in Hr by reflexivity.
    inversion Hr; subst. cbn. rewrite Hvis. repeat split; assumption.
Qed.

Lemma constructed_kept_set_data image :
  preserves (kept (@constructed V)) (ImageVisual.set_data image).
Proof.
  unfold ImageVisual.set_data, _should_cast_to_f32.
  frame_auto (kept (@constructed V)) (kept_refl (@constructed V))
    (kept_trans (@constructed V)) ltac:(reflexivity) ltac:(fail).
Qed.

Lemma vertex_flag_stays_set_data image :
  preserves (vertex_flag_stays (V:=V)) (ImageVisual.set_data image).
Proof.
  unfold ImageVisual.set_data, _should_cast_to_f32.
  frame_auto (vertex_flag_stays (V:=V))
    (fun (w : world V) (Hw : _need_vertex_update (vis w) = true) => Hw)
    (fun (w1 w2 w3 : world V) (H12 : vertex_flag_stays w1 w2)
         (H23 : vertex_flag_stays w2 w3) Hw => H23 (H12 Hw))
    ltac:(first [ intros ?; assumption | intros ?; reflexivity ]) ltac:(fail).
Qed.

Lemma set_data_holds_a_raster image :
  ensures (fun w : world V => _data (vis w) <> None /\
                              _need_texture_upload (vis w) = true)
    (ImageVisual.set_data image).
Proof.
  unfold ImageVisual.set_data.
  do 7 (apply ensures_bind; intros ?).
  ensures_tail. cbn. split; [discriminate|reflexivity].
Qed.

Lemma new_outcome
    names data method grid cmap clim gamma interp fmt (w : world V) w' :
  ImageVisual.new names data method grid cmap clim gamma interp fmt w =
    (Ok tt, w') ->
  (forall e, In e (draw_order 0) -> flag_of w' e = true) /\
  frag_color_transform (vis w') = None /\
  update_requests (vis w') = 2%nat /\
  (_data (vis w') = None <-> data = None) /\
  _gamma (vis w') = gamma /\ _method (vis w') = method /\
  _grid (vis w') = grid /\ _interpolation (vis w') = interp /\
  _cmap (vis w') = Some cmap /\
  trace w' = trace w.
Proof.
  intros Hr. unfold ImageVisual.new, ImageVisual.__init__ in Hr.
  do 10 (erewrite bind_Ok in Hr by reflexivity).
  rewrite bind_gets in Hr.
  match type of Hr with
  | context [_interpolation_names (vis ?w0)] => set (w1 := w0) in Hr
  end.
  assert (F : (views w1, trace w1, _gamma (vis w1),
               frag_color_transform (vis w1), update_requests (vis w1),
               _data (vis w1)) =
              ([ImageVisual.blank_view], trace w, gamma, None, 0%nat, None))
    by reflexivity.
  clearbody w1. injection F as F1 F2 F3 F4 F5 F6.
  destruct (negb (str_in interp (_interpolation_names (vis w1)))).
  { erewrite bind_Raise in Hr by reflexivity. discriminate. }
  do 8 (erewrite bind_Ok in Hr by reflexivity).
  apply bind_inv in Hr. destruct Hr as [([] & w2 & H2 & Hr)|(e & _ & He)];
    [|discriminate].
  apply same_visual_new in H2. destruct H2 as (Hvis2 & Hviews2 & Htr2).
  project_world_in Hvis2. project_world_in Hviews2. project_world_in Htr2.
  rewrite F1 in Hviews2. rewrite F2 in Htr2.
  do 2 (erewrite bind_Ok in Hr by reflexivity).
  unfold ImageVisual._init_view in Hr.
  erewrite bind_Ok in Hr; cycle 1.
  { erewrite bind_Ok
      by (apply view_assign_Some; project_world; rewrite Hviews2; reflexivity).
    apply view_assign_Some. project_world. rewrite Hviews2. reflexivity. }
  erewrite bind_Ok in Hr by reflexivity.
  apply bind_inv in Hr. destruct Hr as [([] & w3 & H3 & Hr)|(e & _ & He)];
    [|discriminate].
  apply clim_setter_pending in H3;
    [|project_world; rewrite Hvis2; reflexivity].
  destruct H3 as (need & Hvis3 & Hviews3 & Htr3).
  project_world_in Hvis3. project_world_in Hviews3. project_world_in Htr3.
  rewrite Hviews2 in Hviews3. rewrite Htr2 in Htr3.
  erewrite bind_Ok in Hr by reflexivity.
  set (w4 := upd_vis _ (upd_vis _ (upd_vis _ w3))) in Hr.
  assert (Hfacts :
    _need_texture_upload (vis w4) = true /\
    _need_vertex_update (vis w4) = true /\
    _data (vis w4) = None /\
    constructed w4 =
      (gamma, method, grid, interp, true, true, None, Some cmap, 2%nat,
       [with__method_used None
          (with__need_method_update true ImageVisual.blank_view)],
       trace w, tex w3)).
  { unfold w4, constructed. project_world.
    rewrite Hvis3, Hviews3, Htr3, Hvis2.
    destruct need; cbn; rewrite ?F3, ?F4, ?F5, ?F6; repeat split. }
  clearbody w4. clear Hvis3 Hviews3 Htr3 Hvis2 Hviews2 Htr2.
  destruct Hfacts as (Hup & Hvx & Hdat & Hcon).
  assert (Hfin : _need_texture_upload (vis w') = true /\
                 _need_vertex_update (vis w') = true /\
                 (_data (vis w') = None <-> data = None) /\
                 constructed w' = constructed w4).
  { destruct data as [l|].
    - pose proof (constructed_kept_set_data l _ _ _ Hr) as Hk.
      pose proof (vertex_flag_stays_set_data l _ _ _ Hr Hvx) as Hv.
      pose proof (set_data_holds_a_raster l _ _ _ Hr) as (Hd & Hu).
      repeat split; try assumption; intros; congruence.
    - inversion Hr; subst. repeat split; auto. }
  destruct Hfin as (Hup' & Hvx' & Hdat' & Hcon').
  rewrite Hcon in Hcon'. unfold constructed in Hcon'.
  injection Hcon' as G1 G2 G3 G4 G5 G6 G7 G8 G9 G10 G11 G12.
  clear - Hup' Hvx' Hdat' G1 G2 G3 G4 G5 G6 G7 G8 G9 G10 G11.
  split.
  { intros e [<-|[<-|[<-|[<-|[<-|[]]]]]]; cbn.
    - exact G6.
    - exact Hup'.
    - exact G5.
    - exact Hvx'.
    - rewrite G10. reflexivity. }
  split; [exact G7|]. split; [exact G9|]. split; [exact Hdat'|].
  split; [exact G1|]. split; [exact G2|]. split; [exact G3|].
  split; [exact G4|]. split; [exact G8|exact G11].
Qed.

(** X15. When the constructor of the visual returns, all four dirty
    flags of the visual and the method flag of its own view are set, so
    the first draw runs every step; no colour-transform chain exists
    yet; two redraws have been requested; the visual holds a raster
    exactly when one was passed; and method, grid and gamma are stored
    as given, without any check: the constructor accepts a gamma the
    setter would refuse. *)
Theorem constructor_leaves_everything_dirty
    names data method grid cmap clim gamma interp fmt (w : world V) w' :
  ImageVisual.new names data method grid cmap clim gamma interp fmt w =
    (Ok tt, w') ->
  (forall e, In e (draw_order 0) -> flag_of w' e = true) /\
  frag_color_transform (vis w') = None /\
  update_requests (vis w') = 2%nat /\
  (_data (vis w') = None <-> data = None) /\
  _gamma (vis w') = gamma /\ _method (vis w') = method /\
  _grid (vis w') = grid /\ _interpolation (vis w') = interp /\
  _cmap (vis w') = Some cmap /\
  trace w' = trace w.
Proof. apply new_outcome. Qed.

End Constructor.

(** ** The interpolation step *)

Section InterpolationStep.
Context {V : Type} `{Arith V}.

Lemma lookup_fn_setitem_run k name (x : slot V) (w : world V) f :
  assoc_get k (_interpolation_fun (vis w)) = Some f ->
  ImageVisual.lookup_fn_setitem k name x w =
  (Ok tt, upd_vis (with__interpolation_fun
                     (assoc_set k (fn_setitem name x f)
                        (_interpolation_fun (vis w)))) w).
Proof.
  intros Hf. unfold ImageVisual.lookup_fn_setitem. rewrite bind_gets, Hf.
  reflexivity.
Qed.

Lemma filter_update (w : world V) ti :
  exists w1,
    when (negb (String.eqb (tex_interpolation (tex w)) ti))
         (tex_assign (with_tex_interpolation ti)) w = (Ok tt, w1) /\
    tex_interpolation (tex w1) = ti /\
    vis w1 = vis w /\ heap w1 = heap w /\ views w1 = views w /\
    trace w1 = trace w.
Proof.
  destruct (String.eqb (tex_interpolation (tex w)) ti) eqn:Ht; cbn [negb when].
  - exists w. apply String.eqb_eq in Ht. repeat split. exact Ht.
  - eexists. split; [reflexivity|]. repeat split.
Qed.

Lemma _build_interpolation_outcome (w : world V) :
  let i := _interpolation (vis w) in
  let kernel := negb (String.eqb i "bilinear") && negb (String.eqb i "nearest") in
  (forall f l a,
     assoc_get i (_interpolation_fun (vis w)) = Some f ->
     _data (vis w) = Some l -> heap w !! l = Some a ->
     exists w',
       ImageVisual._build_interpolation w = (Ok tt, w') /\
       trace w' = (trace w ++ [EvInterpolation])%list /\
       _data_lookup_fn (vis w') = Some i /\
       frag_get_data (vis w') = Some i /\
       tex_interpolation (tex w') =
         (if String.eqb i "bilinear" then "linear" else "nearest") /\
       prog_u_kernel (vis w') = prog_u_kernel (vis w) || kernel /\
       assoc_get i (_interpolation_fun (vis w')) =
         Some (fn_setitem "texture" SlotTexture
                 (if kernel
                  then fn_setitem "shape"
                         (SlotShape (rev (take 2 (nd_shape a)))) f
                  else f)) /\
       (forall k, k <> i ->
          assoc_get k (_interpolation_fun (vis w')) =
          assoc_get k (_interpolation_fun (vis w))) /\
       _need_interpolation_update (vis w') = false /\
       heap w' = heap w /\ views w' = views w) /\
  (assoc_get i (_interpolation_fun (vis w)) = None ->
   ImageVisual._build_interpolation w =
     (Raise (KeyError i), upd_trace (fun t => (t ++ [EvInterpolation])%list) w)).
Proof.
  cbv zeta. split.
  - intros f l a Hf Hd Hl. unfold ImageVisual._build_interpolation.
    erewrite bind_Ok by reflexivity. rewrite bind_gets.
    cbn [vis upd_trace]. rewrite Hf.
    do 2 (erewrite bind_Ok by reflexivity).
    set (i := _interpolation (vis w)) in *.
    set (w0 := upd_vis (with_frag_get_data (Some i)) _).
    assert (F0 : (trace w0, _data_lookup_fn (vis w0), frag_get_data (vis w0),
                  prog_u_kernel (vis w0), _interpolation_fun (vis w0),
                  heap w0, views w0, _data (vis w0)) =
                 ((trace w ++ [EvInterpolation])%list, Some i, Some i,
                  prog_u_kernel (vis w), _interpolation_fun (vis w),
                  heap w, views w, _data (vis w))) by reflexivity.
    clearbody w0. injection F0 as T0 L0 G0 K0 I0 P0 W0 D0.
    assert (Hstep : exists w1 ti,
      (if String.eqb i "bilinear" then mret "linear"
       else
         when (negb (String.eqb i "nearest"))
              (vis_assign (with_prog_u_kernel true) ;;
               sz ← ImageVisual.size;
               ImageVisual.lookup_fn_setitem i "shape" (SlotShape sz)) ;;
         mret "nearest") w0 = (Ok ti, w1) /\
      ti = (if String.eqb i "bilinear" then "linear" else "nearest") /\
      trace w1 = trace w0 /\ _data_lookup_fn (vis w1) = Some i /\
      frag_get_data (vis w1) = Some i /\
      prog_u_kernel (vis w1) =
        prog_u_kernel (vis w) ||
        negb (String.eqb i "bilinear") && negb (String.eqb i "nearest") /\
      _interpolation_fun (vis w1) =
        (if negb (String.eqb i "bilinear") && negb (String.eqb i "nearest")
         then assoc_set i (fn_setitem "shape"
                             (SlotShape (rev (take 2 (nd_shape a)))) f)
                        (_interpolation_fun (vis w))
         else _interpolation_fun (vis w)) /\
      heap w1 = heap w /\ views w1 = views w /\ tex w1 = tex w0).
    { destruct (String.eqb i "bilinear") eqn:Hb.
      - exists w0, "linear". rewrite orb_false_r. repeat split; assumption.
      - destruct (String.eqb i "nearest") eqn:Hn; cbn [negb when andb].
        + exists w0, "nearest". rewrite orb_false_r.
          repeat split; assumption.
        + eexists _, "nearest". split.
          { erewrite bind_Ok; [reflexivity|].
            erewrite bind_Ok by reflexivity.
            erewrite bind_Ok
              by (apply (size_run _ l a); project_world; cbn;
                  [rewrite D0; exact Hd | rewrite P0; exact Hl]).
            apply lookup_fn_setitem_run. project_world. cbn.
            rewrite I0. exact Hf. }
          project_world. cbn. rewrite orb_true_r, I0.
          repeat split; assumption. }
    destruct Hstep as (w1 & ti & Hrun1 & -> & T1 & L1 & G1 & K1 & I1 & P1 & W1 & X1).
    erewrite bind_Ok by exact Hrun1. rewrite bind_gets.
    destruct (filter_update w1
                (if String.eqb i "bilinear" then "linear" else "nearest"))
      as (w2 & Hrun2 & F2 & V2 & P2 & W2 & T2).
    erewrite bind_Ok by exact Hrun2.
    assert (Hget : exists g,
      assoc_get i (_interpolation_fun (vis w2)) = Some g /\
      g = (if negb (String.eqb i "bilinear") && negb (String.eqb i "nearest")
           then fn_setitem "shape" (SlotShape (rev (take 2 (nd_shape a)))) f
           else f)).
    { rewrite V2, I1.
      destruct (negb (String.eqb i "bilinear") && negb (String.eqb i "nearest")).
      - eexists. split; [|reflexivity].
        rewrite assoc_get_set, String.eqb_refl. reflexivity.
      - exists f. split; [exact Hf|reflexivity]. }
    destruct Hget as (g & Hg & ->).
    erewrite bind_Ok by (apply lookup_fn_setitem_run; exact Hg).
    eexists. split; [reflexivity|]. project_world. cbn.
    rewrite assoc_get_set, String.eqb_refl, V2, T2, T1, T0, L1, G1, K1, F2,
      P2, P1, W2, W1.
    repeat split.
    intros k Hk. rewrite assoc_get_set. apply String.eqb_neq in Hk.
    rewrite Hk, I1.
    destruct (negb (String.eqb i "bilinear") && negb (String.eqb i "nearest"));
      [|reflexivity].
    rewrite assoc_get_set, Hk. reflexivity.
  - intros Hf. unfold ImageVisual._build_interpolation.
    erewrite bind_Ok by reflexivity. rewrite bind_gets.
    cbn [vis upd_trace]. rewrite Hf. reflexivity.
Qed.

(** X16. The interpolation step.  With the current interpolation name
    in the table and a raster present, the step returns; it makes the
    function of that name the data lookup, sets the texture filter to
    "linear" for "bilinear" and to "nearest" for every other name,
    binds the texture to the function, and for a kernel filter (any name
    but "nearest" and "bilinear") also binds the kernel and the raster
    size, columns first; the other functions are left as they are and
    the flag is cleared.  With the name missing from the table the
    step fails with [KeyError] and changes nothing but the log. *)
Theorem interpolation_step (w : world V) :
  let i := _interpolation (vis w) in
  let kernel := negb (String.eqb i "bilinear") && negb (String.eqb i "nearest") in
  (forall f l a,
     assoc_get i (_interpolation_fun (vis w)) = Some f ->
     _data (vis w) = Some l -> heap w !! l = Some a ->
     exists w',
       ImageVisual._build_interpolation w = (Ok tt, w') /\
       trace w' = (trace w ++ [EvInterpolation])%list /\
       _data_lookup_fn (vis w') = Some i /\
       frag_get_data (vis w') = Some i /\
       tex_interpolation (tex w') =
         (if String.eqb i "bilinear" then "linear" else "nearest") /\
       prog_u_kernel (vis w') = prog_u_kernel (vis w) || kernel /\
       assoc_get i (_interpolation_fun (vis w')) =
         Some (fn_setitem "texture" SlotTexture
                 (if kernel
                  then fn_setitem "shape"
                         (SlotShape (rev (take 2 (nd_shape a)))) f
                  else f)) /\
       (forall k, k <> i ->
          assoc_get k (_interpolation_fun (vis w')) =
          assoc_get k (_interpolation_fun (vis w))) /\
       _need_interpolation_update (vis w') = false /\
       heap w' = heap w /\ views w' = views w) /\
  (assoc_get i (_interpolation_fun (vis w)) = None ->
   ImageVisual._build_interpolation w =
     (Raise (KeyError i), upd_trace (fun t => (t ++ [EvInterpolation])%list) w)).
Proof. apply _build_interpolation_outcome. Qed.

End InterpolationStep.

(** ** Invariants over the calls of a visual *)

Section Calls.
Context {V : Type} `{Arith V}.

Lemma table_kept_refl (w : world V) : table_kept w w.
Proof. repeat split. intros k Hk. exact Hk. Qed.

Lemma table_kept_trans (w1 w2 w3 : world V) :
  table_kept w1 w2 -> table_kept w2 w3 -> table_kept w1 w3.
Proof.
  intros (N1 & I1 & K1) (N2 & I2 & K2). repeat split; try congruence.
  intros k Hk. apply K2, K1, Hk.
Qed.

Lemma table_kept_lookup_fn_setitem k name (x : slot V) :
  preserves (table_kept (V:=V)) (ImageVisual.lookup_fn_setitem k name x).
Proof.
  intros w r w' Hr. unfold ImageVisual.lookup_fn_setitem in Hr.
  rewrite bind_gets in Hr.
  destruct (assoc_get k (_interpolation_fun (vis w))) as [f|] eqn:Hf.
  - inversion Hr; subst. repeat split. cbn. intros k' Hk'.
    rewrite assoc_get_set. destruct (String.eqb k' k); [eauto|exact Hk'].
  - inversion Hr; subst. apply table_kept_refl.
Qed.

Ltac table_frame :=
  frame_auto (table_kept (V:=V)) table_kept_refl table_kept_trans
    ltac:(repeat split; let k := fresh in let Hk := fresh in
          intros k Hk; exact Hk)
    ltac:(apply table_kept_lookup_fn_setitem).

Lemma table_kept__prepare_draw v :
  preserves (table_kept (V:=V)) (ImageVisual._prepare_draw v).
Proof.
  unfold ImageVisual._prepare_draw, ImageVisual._build_interpolation,
    ImageVisual._build_texture,
    ImageVisual.rebuild_color_transform, ImageVisual._build_vertex_data,
    ImageVisual._update_method, ImageVisual._prepare_transforms,
    ImageVisual.size, ScalableTexture2D.set_data,
    ScalableTexture2D._scale_data_on_cpu, Texture2D_set_data.
  table_frame.
Qed.

Lemma interpolation_setter_run i (w : world V) :
  ImageVisual.interpolation_setter i w =
  if negb (str_in i (_interpolation_names (vis w))) then
    (Raise (ImageVisual.interpolation_error (_interpolation_names (vis w))), w)
  else if String.eqb (_interpolation (vis w)) i then (Ok tt, w)
  else (Ok tt,
        upd_vis (fun s => with_update_requests (S (update_requests s))
                   (with__need_interpolation_update true
                      (with__interpolation i s))) w).
Proof.
  unfold ImageVisual.interpolation_setter. rewrite bind_gets.
  destruct (negb (str_in i (_interpolation_names (vis w)))); [reflexivity|].
  erewrite bind_Ok by reflexivity.
  destruct (String.eqb (_interpolation (vis w)) i); reflexivity.
Qed.

Lemma table_kept_run_call c :
  (forall i, c <> SetInterpolation i) ->
  preserves (table_kept (V:=V)) (run_call c).
Proof.
  intros Hc. destruct c as [l|c|c|g|m|i| |v]; cbn [run_call].
  - unfold ImageVisual.set_data, _should_cast_to_f32. table_frame.
  - unfold ImageVisual.clim_setter, ImageVisual.color_transform_setitem,
      ImageVisual.update, ScalableTexture2D.set_clim. table_frame.
  - unfold ImageVisual.cmap_setter, ImageVisual.update. table_frame.
  - unfold ImageVisual.gamma_setter, ImageVisual.color_transform_setitem,
      ImageVisual.update. table_frame.
  - unfold ImageVisual.method_setter, ImageVisual.update. table_frame.
  - exfalso. eapply Hc. reflexivity.
  - unfold ImageVisual.view_, ImageVisual._init_view. table_frame.
  - apply (preserves_bind _ table_kept_trans);
      [apply table_kept__prepare_draw|intros ?].
    apply (preserves_ret _ table_kept_refl).
Qed.

Lemma interpolation_ready_run_call c (w : world V) r w' :
  interpolation_ready w -> run_call c w = (r, w') -> interpolation_ready w'.
Proof.
  intros [Hin Hall] Hr.
  destruct (match c with SetInterpolation i => Some i | _ => None end)
    as [i|] eqn:Hc.
  - destruct c; try discriminate. inversion Hc; subst. cbn [run_call] in Hr.
    rewrite interpolation_setter_run in Hr.
    destruct (str_in i (_interpolation_names (vis w))) eqn:Hi; cbn [negb] in Hr.
    + destruct (String.eqb (_interpolation (vis w)) i).
      * inversion Hr; subst. split; assumption.
      * inversion Hr; subst. split; [exact Hi|exact Hall].
    + inversion Hr; subst. split; assumption.
  - assert (Hk : table_kept w w').
    { eapply table_kept_run_call; [|exact Hr].
      intros i ->. discriminate. }
    destruct Hk as (N & I & K). split.
    + rewrite N, I. exact Hin.
    + intros i Hi. rewrite N in Hi. apply K, Hall, Hi.
Qed.

Lemma interpolation_ready_new
    names data method grid cmap clim gamma interp fmt (w w' : world V) :
  ImageVisual.new names data method grid cmap clim gamma interp fmt w =
    (Ok tt, w') ->
  interpolation_ready w'.
Proof.
  intros Hr.
  destruct (new_catalogue _ _ _ _ _ _ _ _ _ _ _ _ Hr) as (Hperm & Hfun).
  pose proof (new_outcome _ _ _ _ _ _ _ _ _ _ _ Hr)
    as (_ & _ & _ & _ & _ & _ & _ & Hint & _).
  split.
  - rewrite Hint.
    destruct (str_in interp (sort_strings (map str_lower names))) eqn:Hi.
    + apply str_in_In. apply str_in_In in Hi.
      eapply Permutation_in; [symmetry; exact Hperm|].
      eapply Permutation_in; [apply sort_strings_perm|exact Hi].
    + destruct (new_unknown_interpolation names data method grid cmap clim
                  gamma interp fmt w Hi) as (w2 & Hr2 & _).
      rewrite Hr in Hr2. discriminate.
  - intros i Hi. destruct (Hfun i Hi) as (f & Hf & _). eauto.
Qed.

(** X17. A constructed visual always has a shader function for the
    interpolation in use.  The constructor, when it returns,
    establishes that the interpolation is in the catalogue and every
    catalogue name has a function; every later call (assigning a
    raster, clim, colormap, gamma, method or interpolation, adding a
    view, preparing a draw) keeps this, whether or not it returns; and
    under it the interpolation step of a visual that holds a raster
    returns. *)
Theorem interpolation_is_always_ready :
  (forall names data method grid cmap clim gamma interp fmt (w w' : world V),
     ImageVisual.new names data method grid cmap clim gamma interp fmt w =
       (Ok tt, w') ->
     interpolation_ready w') /\
  (forall c (w : world V) r w',
     interpolation_ready w -> run_call c w = (r, w') ->
     interpolation_ready w') /\
  (forall (w : world V) l a,
     interpolation_ready w -> _data (vis w) = Some l -> heap w !! l = Some a ->
     exists w', ImageVisual._build_interpolation w = (Ok tt, w')).
Proof.
  split; [|split].
  - intros names data method grid cmap clim gamma interp fmt w w'.
    apply interpolation_ready_new.
  - apply interpolation_ready_run_call.
  - intros w l a [Hin Hall] Hd Hl.
    destruct (Hall _ Hin) as [f Hf].
    destruct (_build_interpolation_outcome w) as (Hok & _).
    destruct (Hok f l a Hf Hd Hl) as (w' & Hrun & _).
    exists w'. exact Hrun.
Qed.

Lemma heap_kept_alloc_step (w : world V) (a : ndarray V) :
  heap_kept w (upd_heap (fun h => (h ++ [a])%list) w).
Proof. intros l b Hl. cbn. apply lookup_snoc_old. exact Hl. Qed.

Ltac heap_frame :=
  frame_auto (@heap_kept V) (@heap_kept_refl V) (@heap_kept_trans V)
    ltac:(first [ apply heap_kept_alloc_step
                | let l := fresh in let a := fresh in let Hl := fresh in
                  intros l a Hl; exact Hl ])
    ltac:(fail).

Lemma heap_kept__prepare_draw v :
  preserves (@heap_kept V) (ImageVisual._prepare_draw v).
Proof.
  unfold ImageVisual._prepare_draw.
  frame_auto (@heap_kept V) (@heap_kept_refl V) (@heap_kept_trans V)
    ltac:(fail)
    ltac:(first [ apply (heap_kept_step_of v EvInterpolation)
                | apply (heap_kept_step_of v EvTexture)
                | apply (heap_kept_step_of v EvColorTransform)
                | apply (heap_kept_step_of v EvVertex)
                | apply (heap_kept_step_of v (EvMethod v)) ]).
Qed.

Lemma heap_kept_run_call c : preserves (@heap_kept V) (run_call c).
Proof.
  destruct c as [l|c|c|g|m|i| |v]; cbn [run_call].
  - unfold ImageVisual.set_data, _should_cast_to_f32. heap_frame.
  - unfold ImageVisual.clim_setter, ImageVisual.color_transform_setitem,
      ImageVisual.update, ScalableTexture2D.set_clim. heap_frame.
  - unfold ImageVisual.cmap_setter, ImageVisual.update. heap_frame.
  - unfold ImageVisual.gamma_setter, ImageVisual.color_transform_setitem,
      ImageVisual.update. heap_frame.
  - unfold ImageVisual.method_setter, ImageVisual.update. heap_frame.
  - unfold ImageVisual.interpolation_setter, ImageVisual.update. heap_frame.
  - unfold ImageVisual.view_, ImageVisual._init_view. heap_frame.
  - apply (preserves_bind _ (@heap_kept_trans V));
      [apply heap_kept__prepare_draw|intros ?].
    apply (preserves_ret _ (@heap_kept_refl V)).
Qed.

Lemma heap_kept_new names data method grid cmap clim gamma interp fmt :
  preserves (@heap_kept V)
    (ImageVisual.new names data method grid cmap clim gamma interp fmt).
Proof.
  unfold ImageVisual.new, ImageVisual.__init__,
    ScalableTexture2D.new, ScalableTexture2D.__init__,
    ScalableTexture2D._create_rep_array,
    ScalableTexture2D._get_texture_format_for_data,
    ScalableTexture2D._data_num_channels,
    ScalableTexture2D._handle_auto_texture_format,
    ScalableTexture2D._get_gl_tex_format,
    Texture2D__init__,
    ImageVisual._init_view, ImageVisual.clim_setter,
    ImageVisual.cmap_setter, ImageVisual.set_data,
    ImageVisual.color_transform_setitem, ImageVisual.update,
    ScalableTexture2D.set_clim, _should_cast_to_f32.
  heap_frame.
Qed.

(** X18. No method of the visual writes into an array that exists
    when it is called: after the constructor or any later call,
    returned or not, every array that existed before is as it was.
    New arrays (float32 copies, scaled rasters, placeholders) are
    separate objects. *)
Theorem arrays_are_never_mutated :
  (forall names data method grid cmap clim gamma interp fmt (w : world V) r w',
     ImageVisual.new names data method grid cmap clim gamma interp fmt w =
       (r, w') ->
     heap_kept w w') /\
  (forall c (w : world V) r w', run_call c w = (r, w') -> heap_kept w w').
Proof.
  split.
  - intros names data method grid cmap clim gamma interp fmt w r w' Hr.
    eapply heap_kept_new. exact Hr.
  - intros c w r w' Hr. eapply heap_kept_run_call. exact Hr.
Qed.

End Calls.

(** ** Every draw of a CPU-scaled raster succeeds *)

Section DrawSucceeds.

Lemma table_kept_step_of v e :
  preserves (table_kept (V:=spec_float)) (step_of v e).
Proof.
  destruct e;
    unfold step_of, ImageVisual._build_interpolation, ImageVisual._build_texture,
      ImageVisual.rebuild_color_transform, ImageVisual._build_vertex_data,
      ImageVisual._update_method, ImageVisual._prepare_transforms,
      ImageVisual.size, ScalableTexture2D.set_data,
      ScalableTexture2D._scale_data_on_cpu, Texture2D_set_data;
    frame_auto (table_kept (V:=spec_float)) (@table_kept_refl spec_float)
      (@table_kept_trans spec_float)
      ltac:(repeat split; let k := fresh in let Hk := fresh in
            intros k Hk; exact Hk)
      ltac:(apply table_kept_lookup_fn_setitem).
Qed.

Lemma upload_state_kept_step_of v e :
  e <> EvTexture ->
  preserves (kept (@upload_state spec_float)) (step_of v e).
Proof.
  intros He. destruct e; [|congruence| | |];
    unfold step_of, ImageVisual._build_interpolation,
      ImageVisual.rebuild_color_transform, ImageVisual._build_vertex_data,
      ImageVisual._update_method, ImageVisual._prepare_transforms,
      ImageVisual.size, ImageVisual.lookup_fn_setitem;
    frame_auto (kept (@upload_state spec_float))
      (kept_refl (@upload_state spec_float))
      (kept_trans (@upload_state spec_float))
      ltac:(reflexivity) ltac:(fail).
Qed.

(** A step other than the texture step leaves a drawable visual
    drawable. *)
Lemma drawable_step_of v l a e (w : world spec_float) r w' :
  e <> EvTexture -> drawable v l a w -> step_of v e w = (r, w') ->
  drawable v l a w'.
Proof.
  intros He (Hd & Hl & Hgpu & [Hin Hall] & Hc & Hg0 & Hg1 & Hv & Hm & Hup) Hr.
  pose proof (settings_kept_step_of v e _ _ _ Hr) as Hs.
  pose proof (heap_kept_step_of v e _ _ _ Hr) as Hh.
  pose proof (views_kept_step_of v e _ _ _ Hr) as Hvk.
  pose proof (table_kept_step_of v e _ _ _ Hr) as (N & I & K).
  pose proof (upload_state_kept_step_of v e He _ _ _ Hr) as Hu.
  unfold kept, settings in Hs. injection Hs as S1 S2 S3 S4 S5 S6 S7 S8.
  unfold kept, upload_state in Hu. injection Hu as U1 U2 U3 U4.
  unfold drawable. rewrite S1, S5, S6, S7, U1, U2, U3, U4.
  repeat split; try assumption.
  - apply Hh, Hl.
  - rewrite N, I. exact Hin.
  - intros i Hi. rewrite N in Hi. apply K, Hall, Hi.
  - apply Hvk, Hv.
Qed.

Lemma interpolation_step_ok v l a (w : world spec_float) :
  drawable v l a w ->
  exists w', step_of v EvInterpolation w = (Ok tt, w') /\ drawable v l a w'.
Proof.
  intros Hdr. pose proof Hdr as (Hd & Hl & _ & [Hin Hall] & _).
  destruct (Hall _ Hin) as [f Hf].
  destruct (_build_interpolation_outcome w) as (Hok & _).
  destruct (Hok f l a Hf Hd Hl) as (w' & Hrun & _).
  exists w'. split; [exact Hrun|].
  eapply (drawable_step_of v l a EvInterpolation); [discriminate|exact Hdr|].
  exact Hrun.
Qed.

Lemma texture_step_ok v l a r c (w : world spec_float) :
  nd_shape a = [r; c] \/ nd_shape a = [r; c; 1%nat] ->
  (0 < r)%nat -> (0 < c)%nat -> buf_length (nd_buf a) = (r * c)%nat ->
  drawable v l a w -> flag_of w EvTexture = true ->
  exists w', step_of v EvTexture w = (Ok tt, w') /\ drawable v l a w'.
Proof.
  intros Hs Hr Hc Hlen
    (Hd & Hl & Hgpu & [Hin Hall] & Hcm & Hg0 & Hg1 & Hv & Hm & Hup) Hf.
  assert (Hclim : _clim (tex w) <> None).
  { destruct Hup as [[_ Hcl]|(lo & hi & c0 & c1 & _ & Hcl)];
      [exact Hcl|rewrite Hcl; discriminate]. }
  destruct (resolved_clim_Ok (tex w) a r c Hr Hc Hlen Hclim)
    as (cmin & cmax & Hres).
  pose proof (cpu_scaled_ieee a cmin cmax r c Hs Hr Hc Hlen) as Hcpu.
  cbv zeta in Hcpu.
  set (w0 := upd_trace (fun t => (t ++ [EvTexture])%list) w).
  destruct (set_data_cpu_single w0 l a cmin cmax _ Hl Hgpu
              (is_single_band_shape a r c Hs) Hres Hcpu)
    as (w1 & Hrun & Hk & Htex).
  pose proof (same_visual_set_data l _ _ _ Hrun) as (Hvis & Hviews & Htr).
  eexists. split.
  { cbn [step_of]. unfold ImageVisual._build_texture.
    erewrite bind_Ok by reflexivity. rewrite bind_gets.
    cbn [vis upd_trace]. rewrite Hd.
    erewrite bind_Ok by exact Hrun.
    erewrite bind_Ok by reflexivity. reflexivity. }
  unfold drawable. project_world. rewrite Hvis, Hviews, Htex.
  unfold w0. project_world. cbn.
  split; [exact Hd|]. split; [apply Hk; exact Hl|]. split; [exact Hgpu|].
  split.
  { unfold interpolation_ready. project_world. cbn. rewrite Hvis.
    unfold w0. project_world. split; assumption. }
  split; [exact Hcm|]. split; [exact Hg0|]. split; [exact Hg1|].
  split; [exact Hv|]. split; [exact Hm|].
  right. exists cmin, cmax, cmin, cmax. split; reflexivity.
Qed.

Lemma clim_normalized_ieee (t : texture spec_float) lo hi c0 c1 :
  _scale_texture_gpu t = false ->
  _data_limits t = Some (lo, hi) -> _clim t = Some (ClimPair c0 c1) ->
  exists n0 n1, ScalableTexture2D.clim_normalized t = Ok (PyNum n0, PyNum n1).
Proof.
  intros Hgpu Hlim Hclim.
  unfold ScalableTexture2D.clim_normalized, ScalableTexture2D.clim.
  rewrite Hgpu, Hlim, Hclim. cbn. eauto.
Qed.

Lemma colortransform_step_ok v l a r c (w : world spec_float) :
  nd_shape a = [r; c] \/ nd_shape a = [r; c; 1%nat] ->
  drawable v l a w -> flag_of w EvTexture = false ->
  exists w', step_of v EvColorTransform w = (Ok tt, w') /\ drawable v l a w'.
Proof.
  intros Hs Hdr Hf.
  pose proof Hdr as (Hd & Hl & Hgpu & _ & Hcm & _ & _ & Hv & _ & Hup).
  destruct Hup as [[Hflag _]|(lo & hi & c0 & c1 & Hlim & Hclim)].
  { cbn in Hf. congruence. }
  destruct (clim_normalized_ieee (tex w) lo hi c0 c1 Hgpu Hlim Hclim)
    as (n0 & n1 & Hcn).
  destruct (_cmap (vis w)) as [cm|] eqn:Hcmap; [|congruence].
  destruct Hv as [vw Hvw].
  assert (Hrun : exists w', step_of v EvColorTransform w = (Ok tt, w')).
  { cbn [step_of]. unfold ImageVisual.rebuild_color_transform.
    eexists.
    erewrite bind_Ok by reflexivity. rewrite bind_gets.
    cbn [vis upd_trace]. rewrite Hd.
    erewrite bind_Ok by (apply load_Some; exact Hl).
    rewrite bind_gets. cbn [tex upd_trace]. rewrite Hcn.
    erewrite bind_Ok by reflexivity.
    unfold _build_color_transform.
    rewrite (is_single_band_shape a r c Hs), Hcmap.
    erewrite bind_Ok by reflexivity.
    erewrite bind_Ok by reflexivity.
    erewrite bind_Ok by reflexivity.
    apply view_assign_Some. project_world. exact Hvw. }
  destruct Hrun as (w' & Hrun). exists w'. split; [exact Hrun|].
  eapply (drawable_step_of v l a EvColorTransform); [discriminate|exact Hdr|].
  exact Hrun.
Qed.

Lemma vertex_step_ok v l a r c (w : world spec_float) :
  nd_shape a = [r; c] \/ nd_shape a = [r; c; 1%nat] ->
  drawable v l a w ->
  exists w', step_of v EvVertex w = (Ok tt, w') /\ drawable v l a w'.
Proof.
  intros Hs Hdr.
  pose proof Hdr as (Hd & Hl & _ & _ & _ & Hg0 & Hg1 & _).
  assert (Hrun : exists w', step_of v EvVertex w = (Ok tt, w')).
  { cbn [step_of]. unfold ImageVisual._build_vertex_data.
    eexists.
    erewrite bind_Ok by reflexivity. rewrite bind_gets.
    cbn [vis upd_trace].
    apply Nat.eqb_neq in Hg0. apply Nat.eqb_neq in Hg1.
    rewrite Hg0, Hg1. cbn [orb].
    erewrite bind_Ok by reflexivity.
    erewrite bind_Ok by (apply (size_run _ l a); [exact Hd|exact Hl]).
    erewrite bind_Ok by reflexivity.
    erewrite bind_Ok by reflexivity. reflexivity. }
  destruct Hrun as (w' & Hrun). exists w'. split; [exact Hrun|].
  eapply (drawable_step_of v l a EvVertex); [discriminate|exact Hdr|].
  exact Hrun.
Qed.

Lemma method_step_ok v l a (w : world spec_float) :
  drawable v l a w ->
  exists w', step_of v (EvMethod v) w = (Ok tt, w') /\ drawable v l a w'.
Proof.
  intros Hdr.
  pose proof Hdr as (Hd & Hl & _ & _ & _ & _ & _ & [vw Hvw] & Hm & _).
  assert (Hrun : exists w', step_of v (EvMethod v) w = (Ok tt, w')).
  { cbn [step_of].
    pose proof (_update_method_run w v vw l a Hvw Hd Hl) as Hrun.
    cbv zeta in Hrun. unfold resolved_method in Hrun.
    destruct Hm as [Hm|[Hm|Hm]]; rewrite Hm in Hrun; cbn in Hrun.
    - destruct (Linear (get_transform vw)); cbn in Hrun; eauto.
    - eauto.
    - eauto. }
  destruct Hrun as (w' & Hrun). exists w'. split; [exact Hrun|].
  eapply (drawable_step_of v l a (EvMethod v)); [discriminate|exact Hdr|].
  exact Hrun.
Qed.

Lemma when_step_ok v l a e (w : world spec_float) :
  (flag_of w e = true ->
   exists w', step_of v e w = (Ok tt, w') /\ drawable v l a w') ->
  drawable v l a w ->
  exists w', when (flag_of w e) (step_of v e) w = (Ok tt, w') /\
             drawable v l a w'.
Proof.
  intros Hstep Hdr. destruct (flag_of w e) eqn:Hf; cbn [when].
  - apply Hstep. reflexivity.
  - exists w. split; [reflexivity|exact Hdr].
Qed.

Lemma _prepare_draw_ok v l a r c (w : world spec_float) :
  nd_shape a = [r; c] \/ nd_shape a = [r; c; 1%nat] ->
  (0 < r)%nat -> (0 < c)%nat -> buf_length (nd_buf a) = (r * c)%nat ->
  drawable v l a w ->
  exists w',
    ImageVisual._prepare_draw v w = (Ok RetNone, w') /\
    drawable v l a w'.
Proof.
  intros Hs Hr Hc Hlen Hdr.
  pose proof Hdr as (Hd & _ & _ & _ & _ & _ & _ & Hv & _).
  rewrite _prepare_draw_schedule by (try exact Hv; congruence).
  unfold draw_order.
  destruct (when_step_ok v l a EvInterpolation w) as (w1 & H1 & D1);
    [intros _; apply interpolation_step_ok; exact Hdr|exact Hdr|].
  destruct (when_step_ok v l a EvTexture w1) as (w2 & H2 & D2);
    [intros Hf; exact (texture_step_ok v l a r c w1 Hs Hr Hc Hlen D1 Hf)
    |exact D1|].
  assert (F2 : flag_of w2 EvTexture = false).
  { destruct (flag_of w1 EvTexture) eqn:Hf; cbn [when] in H2.
    - apply (cleared_step_of v EvTexture) in H2. exact H2.
    - inversion H2; subst. exact Hf. }
  destruct (when_step_ok v l a EvColorTransform w2) as (w3 & H3 & D3);
    [intros _; exact (colortransform_step_ok v l a r c w2 Hs D2 F2)
    |exact D2|].
  destruct (when_step_ok v l a EvVertex w3) as (w4 & H4 & D4);
    [intros _; exact (vertex_step_ok v l a r c w3 Hs D3)|exact D3|].
  destruct (when_step_ok v l a (EvMethod v) w4) as (w5 & H5 & D5);
    [intros _; apply method_step_ok; exact D4|exact D4|].
  exists w5. split; [|exact D5].
  erewrite bind_Ok; [reflexivity|].
  rewrite run_steps_cons0. erewrite bind_Ok by exact H1.
  rewrite run_steps_cons0. erewrite bind_Ok by exact H2.
  rewrite run_steps_cons0. erewrite bind_Ok by exact H3.
  rewrite run_steps_cons0. erewrite bind_Ok by exact H4.
  rewrite run_steps_cons0. erewrite bind_Ok by exact H5.
  reflexivity.
Qed.

(** X21. In IEEE arithmetic, preparing a draw of a CPU-scaled visual
    that holds a single-band raster with at least one sample always
    returns, whatever is dirty: provided the interpolation has its
    function, a colormap and some clim are set, the grid has cells and
    the method is one of "auto", "subdivide" and "impostor".  It runs
    exactly the steps that are due, leaves every flag clear, and leaves
    the visual ready for the next draw. *)
Theorem cpu_draw_always_succeeds v l (a : ndarray spec_float) r c (w : world spec_float) :
  nd_shape a = [r; c] \/ nd_shape a = [r; c; 1%nat] ->
  (0 < r)%nat -> (0 < c)%nat -> buf_length (nd_buf a) = (r * c)%nat ->
  drawable v l a w ->
  exists w',
    ImageVisual._prepare_draw v w = (Ok RetNone, w') /\
    trace w' = (trace w ++ scheduled w v)%list /\
    (forall e, In e (draw_order v) -> flag_of w' e = false) /\
    drawable v l a w'.
Proof.
  intros Hs Hr Hc Hlen Hdr.
  destruct (_prepare_draw_ok v l a r c w Hs Hr Hc Hlen Hdr) as (w' & Hrun & Hdr').
  pose proof Hdr as (Hd & _ & _ & _ & _ & _ & _ & Hv & _).
  assert (Hd' : _data (vis w) <> None) by congruence.
  destruct (_prepare_draw_trace v w w' _ Hd' Hv Hrun) as (done & Ht & _ & Hok).
  destruct (Hok RetNone eq_refl) as (-> & Hflags).
  exists w'. split; [exact Hrun|]. split; [exact Ht|].
  split; [exact Hflags|exact Hdr'].
Qed.

End DrawSucceeds.

(** ** Format requests *)


Section FormatRequests.
Context {V : Type} `{Arith V}.


(** The constructor of the visual up to the construction of its
    texture, for a name of the catalogue. *)
Lemma new_reaches_the_texture
    names data method grid cmap clim gamma interp fmt (w : world V) e wt :
  str_in interp (sort_strings (map str_lower names)) = true ->
  (forall w0 : world V,
     heap w0 = heap w -> warnings w0 = warnings w ->
     exists w1,
       ScalableTexture2D.new data fmt
         (if String.eqb interp "bilinear" then "linear" else "nearest") w0 =
         (Raise e, w1) /\
       wt w1) ->
  exists w',
    ImageVisual.new names data method grid cmap clim gamma interp fmt w =
      (Raise e, w') /\
    wt w'.
Proof.
  intros Hi Htex. unfold ImageVisual.new, ImageVisual.__init__.
  match goal with
  | |- exists w', ?c w = _ /\ _ =>
      assert (Hrun : exists w0 k,
                c w = (ScalableTexture2D.new data fmt
                         (if String.eqb interp "bilinear" then "linear"
                          else "nearest") ≫= k) w0 /\
                heap w0 = heap w /\ warnings w0 = warnings w)
  end.
  { do 10 (erewrite bind_Ok by reflexivity).
    rewrite bind_gets.
    match goal with
    | |- context [_interpolation_names (vis ?w0)] => set (w1 := w0)
    end.
    change (_interpolation_names (vis w1))
      with (sort_strings (map str_lower names)).
    rewrite Hi. cbn [negb].
    do 8 (erewrite bind_Ok by reflexivity).
    eexists _, _. split; [reflexivity|]. split; reflexivity. }
  destruct Hrun as (w0 & k & -> & Hh & Hw).
  destruct (Htex w0 Hh Hw) as (w1 & Hnew & Hwt).
  exists w1. split; [|exact Hwt].
  erewrite bind_Raise by exact Hnew. reflexivity.
Qed.

Lemma data_info_heap (w w0 : world V) data :
  heap w0 = heap w -> data_info w0 data = data_info w data.
Proof. intros Hh. unfold data_info. rewrite Hh. reflexivity. Qed.

(** X22. GPU-side scaling cannot be requested through ["auto"] or
    through an element type.  With the format request ["auto"], or an
    element type of the format table, and an interpolation of the
    catalogue, the constructor of the visual always fails with
    [TypeError]: with or without a raster, whatever its element type
    and its shape.  It fails while the texture is constructed, without
    a warning, before anything has been uploaded, and every array that
    existed is as it was. *)
Theorem gpu_scaling_needs_a_format_string
    names data method grid cmap clim gamma interp fmt (w : world V) :
  str_in interp (sort_strings (map str_lower names)) = true ->
  (forall l, data = Some l -> is_Some (heap w !! l)) ->
  fmt = FmtStr "auto" \/
  (exists d, fmt = FmtType d /\
     is_Some (ScalableTexture2D.dict_get d
                ScalableTexture2D._texture_dtype_format)) ->
  exists w',
    ImageVisual.new names data method grid cmap clim gamma interp (Some fmt) w =
      (Raise descriptor_not_ordered, w') /\
    warnings w' = warnings w /\
    uploaded (tex w') = None /\
    heap_kept w w'.
Proof.
  intros Hi Hdata Hfmt.
  assert (Hd : exists dt nc, data_info w data = Some (dt, nc)).
  { unfold data_info. destruct data as [l|]; [|eauto].
    destruct (Hdata l eq_refl) as [a ->]. eauto. }
  destruct Hd as (dt & nc & Hd).
  apply (new_reaches_the_texture names data method grid cmap clim gamma interp
           (Some fmt) w descriptor_not_ordered
           (fun w' => warnings w' = warnings w /\ uploaded (tex w') = None /\
                      heap_kept w w') Hi).
  intros w0 Hh Hw.
  assert (Hd0 : data_info w0 data = Some (dt, nc))
    by (rewrite (data_info_heap w w0 data Hh); exact Hd).
  destruct Hfmt as [->|(d & -> & [tag Htag])].
  - rewrite (new_run_auto w0 data dt nc _ Hd0).
    eexists. split; [reflexivity|]. split; [exact Hw|].
    split; [reflexivity|].
    intros l a Hl. cbn [heap upd_tex init_world upd_heap]. rewrite Hh.
    apply lookup_snoc_old. exact Hl.
  - rewrite (new_run_dtype w0 data dt nc d _ Hd0), Htag.
    eexists. split; [reflexivity|]. split; [exact Hw|].
    split; [reflexivity|].
    intros l a Hl. cbn [heap upd_tex init_world upd_heap]. rewrite Hh.
    apply lookup_snoc_old. exact Hl.
Qed.


End FormatRequests.

(** ** Clim "auto" on a drawn CPU-scaled visual *)

Section AutoAfterDraw.

(** X24. On a CPU-scaled visual that has been drawn (data limits
    recorded, no rebuild of the chain pending), assigning clim "auto"
    fails: the setter stores "auto", sets the texture-upload flag and
    then raises [ValueError] while normalising the limits for the
    in-place update, before it requests a redraw.  The visual is left
    drawable all the same: in IEEE arithmetic the next draw returns
    and leaves a numeric pair as clim. *)
Theorem auto_clim_after_a_draw_fails_halfway
    v l (a : ndarray spec_float) r c (w : world spec_float) lo hi :
  nd_shape a = [r; c] \/ nd_shape a = [r; c; 1%nat] ->
  (0 < r)%nat -> (0 < c)%nat -> buf_length (nd_buf a) = (r * c)%nat ->
  drawable v l a w ->
  _data_limits (tex w) = Some (lo, hi) ->
  _need_colortransform_update (vis w) = false ->
  exists w1 w2 c0 c1,
    ImageVisual.clim_setter (ArgStr "auto") w =
      (Raise (ValueError "too many values to unpack (expected 2)"), w1) /\
    _clim (tex w1) = Some ClimAuto /\
    _need_texture_upload (vis w1) = true /\
    update_requests (vis w1) = update_requests (vis w) /\
    frag_color_transform (vis w1) = frag_color_transform (vis w) /\
    ImageVisual._prepare_draw v w1 = (Ok RetNone, w2) /\
    _clim (tex w2) = Some (ClimPair c0 c1).
Proof.
  intros Hs Hr Hc Hlen Hdr Hlim Hct.
  pose proof Hdr as (Hd & Hl & Hgpu & Hready & Hcm & Hg0 & Hg1 & Hv & Hm & _).
  set (w1 := upd_vis (with__need_texture_upload true)
               (upd_tex (with__clim (Some ClimAuto)) w)).
  assert (Hrun : ImageVisual.clim_setter (ArgStr "auto") w =
            (Raise (ValueError "too many values to unpack (expected 2)"), w1)).
  { unfold ImageVisual.clim_setter.
    erewrite bind_Ok by apply set_clim_auto. cbn [when].
    erewrite bind_Ok by reflexivity. rewrite bind_gets.
    cbn [vis upd_vis upd_tex _need_colortransform_update
         with__need_texture_upload]. rewrite Hct. cbn [negb when].
    erewrite bind_Raise; [reflexivity|].
    rewrite bind_gets. erewrite bind_Raise; [reflexivity|].
    unfold lift_res, ScalableTexture2D.clim_normalized, ScalableTexture2D.clim.
    cbn [tex upd_vis upd_tex _scale_texture_gpu _data_limits _clim with__clim].
    rewrite Hgpu, Hlim. reflexivity. }
  assert (Hdr1 : drawable v l a w1).
  { unfold drawable, w1. project_world. cbn.
    repeat split; try assumption; try apply Hready.
    left. split; [reflexivity|discriminate]. }
  destruct (_prepare_draw_ok v l a r c w1 Hs Hr Hc Hlen Hdr1)
    as (w2 & Hdraw & Hdr2).
  assert (Hd1 : _data (vis w1) <> None) by (unfold w1; cbn; congruence).
  assert (Hv1 : is_Some (views w1 !! v)) by exact Hv.
  destruct (_prepare_draw_trace v w1 w2 _ Hd1 Hv1 Hdraw) as (done & _ & _ & Hok).
  destruct (Hok RetNone eq_refl) as (_ & Hflags).
  pose proof Hdr2 as (_ & _ & _ & _ & _ & _ & _ & _ & _ & Hup).
  destruct Hup as [[Hflag _]|(lo2 & hi2 & c0 & c1 & _ & Hclim2)].
  { specialize (Hflags EvTexture). cbn in Hflags.
    rewrite Hflags in Hflag by auto. discriminate. }
  exists w1, w2, c0, c1. split; [exact Hrun|].
  repeat split; try reflexivity; assumption.
Qed.

End AutoAfterDraw.

(** ** The further properties at concrete rasters *)

Lemma multiband_upload_is_raw_witness :
  heap rgb_world !! 0%nat = Some rgb_image /\
  exists w',
    ScalableTexture2D.set_data 0%nat rgb_world = (Ok tt, w') /\
    heap w' = heap rgb_world /\
    uploaded (tex w') = Some rgb_image.
Proof.
  split; [reflexivity|].
  destruct (multiband_upload_is_raw rgb_world 0%nat rgb_image 1 1 3)
    as (w' & H1 & H2 & H3 & _).
  - reflexivity.
  - reflexivity.
  - lia.
  - exists w'. repeat split; assumption.
Defined.

Lemma gpu_upload_is_raw_witness :
  heap gpu_world !! 0%nat = Some float_image /\
  _scale_texture_gpu (tex gpu_world) = true /\
  exists w',
    ScalableTexture2D.set_data 0%nat gpu_world = (Ok tt, w') /\
    heap w' = heap gpu_world /\
    uploaded (tex w') = Some float_image /\
    _clim (tex w') = Some (ClimPair (SF_of_Z B32 1) (SF_of_Z B32 3)) /\
    _data_limits (tex w') = None.
Proof.
  assert (Hl : heap gpu_world !! 0%nat = Some float_image)
    by (vm_compute; reflexivity).
  assert (Hg : _scale_texture_gpu (tex gpu_world) = true)
    by (vm_compute; reflexivity).
  split; [exact Hl|]. split; [exact Hg|].
  destruct (gpu_upload_is_raw gpu_world 0%nat float_image 1 2
              (SF_of_Z B32 1) (SF_of_Z B32 3) Hl Hg)
    as (w' & H1 & H2 & H3 & _ & H5 & H6).
  - left. reflexivity.
  - vm_compute. reflexivity.
  - exists w'. repeat split; assumption.
Defined.

Lemma upload_refusals_witness :
  heap demo_heap !! 0%nat = Some demo_image /\
  _clim (tex demo_heap) = None /\
  ScalableTexture2D.set_data 0%nat demo_heap =
  (Raise (TypeError "'NoneType' object is not subscriptable"),
   upd_tex (with__data_dtype (Some uint8)) demo_heap).
Proof.
  split; [reflexivity|]. split; [reflexivity|].
  destruct (upload_refusals demo_heap 0%nat demo_image eq_refl) as (_ & _ & H3).
  apply H3; reflexivity.
Defined.

Lemma gpu_clim_pair_needs_no_upload_witness :
  _scale_texture_gpu (tex gpu_drawn) = true /\
  _need_texture_upload
    (vis (snd (ImageVisual.clim_setter
                 (ArgSeq [SF_of_Z B32 0; SF_of_Z B32 100]) gpu_drawn))) =
  _need_texture_upload (vis gpu_drawn).
Proof.
  assert (Hg : _scale_texture_gpu (tex gpu_drawn) = true)
    by (vm_compute; reflexivity).
  split; [exact Hg|].
  destruct (gpu_clim_pair_needs_no_upload gpu_drawn (SF_of_Z B32 0)
              (SF_of_Z B32 100)
              (fst (ImageVisual.clim_setter
                      (ArgSeq [SF_of_Z B32 0; SF_of_Z B32 100]) gpu_drawn))
              (snd (ImageVisual.clim_setter
                      (ArgSeq [SF_of_Z B32 0; SF_of_Z B32 100]) gpu_drawn))
              Hg) as (H1 & _).
  - intros _. vm_compute. reflexivity.
  - apply surjective_pairing.
  - exact H1.
Defined.

Lemma set_data_keeps_reference_or_narrows_witness :
  heap demo_drawn !! 0%nat = Some demo_image /\
  exists w',
    ImageVisual.set_data 0%nat demo_drawn = (Ok tt, w') /\
    _data (vis w') = Some 0%nat /\
    heap w' = heap demo_drawn /\
    _need_texture_upload (vis w') = true /\
    update_requests (vis w') = update_requests (vis demo_drawn).
Proof.
  assert (Hl : heap demo_drawn !! 0%nat = Some demo_image)
    by (vm_compute; reflexivity).
  split; [exact Hl|].
  destruct (set_data_keeps_reference_or_narrows demo_drawn 0%nat demo_image Hl)
    as (w' & H1 & H2 & H3 & _ & _ & _ & H7 & _).
  - intros l Hd.
    assert (El : l = 0%nat) by (vm_compute in Hd; congruence).
    rewrite El. eexists. exact Hl.
  - change (wider_than_f32 (nd_dtype demo_image)) with false in H2.
    destruct H2 as (H2a & H2b & _).
    exists w'. repeat split; assumption.
Defined.

Lemma draw_keeps_settings_witness :
  is_Some (views demo_dirty !! 0%nat) /\
  settings (snd (ImageVisual._prepare_draw 0 demo_dirty)) = settings demo_dirty.
Proof.
  assert (Hv : is_Some (views demo_dirty !! 0%nat))
    by (vm_compute; eexists; reflexivity).
  split; [exact Hv|].
  destruct (draw_keeps_settings 0%nat demo_dirty
              (fst (ImageVisual._prepare_draw 0 demo_dirty))
              (snd (ImageVisual._prepare_draw 0 demo_dirty)) Hv)
    as (H1 & _).
  - apply surjective_pairing.
  - exact H1.
Defined.

Lemma redraw_changes_nothing_witness :
  ImageVisual._prepare_draw 0 demo_world = (Ok RetNone, demo_drawn) /\
  ImageVisual._prepare_draw 0 demo_drawn = (Ok RetNone, demo_drawn).
Proof.
  assert (Hr : ImageVisual._prepare_draw 0 demo_world = (Ok RetNone, demo_drawn))
    by (vm_compute; reflexivity).
  split; [exact Hr|].
  apply (redraw_changes_nothing 0%nat demo_world RetNone demo_drawn).
  - vm_compute. eexists. reflexivity.
  - vm_compute. discriminate.
  - exact Hr.
Defined.

Lemma method_change_does_not_reach_a_drawn_view_witness :
  views demo_drawn !! 0%nat = Some demo_view /\
  _need_method_update demo_view = false /\
  _method_used demo_view = Some "subdivide" /\
  _method (vis (snd ((ImageVisual.method_setter "impostor" ;;
                      ImageVisual._prepare_draw 0) demo_drawn))) = "impostor" /\
  option_map method_config
    (views (snd ((ImageVisual.method_setter "impostor" ;;
                  ImageVisual._prepare_draw 0) demo_drawn)) !! 0%nat) =
  Some (method_config demo_view).
Proof.
  assert (Hv : views demo_drawn !! 0%nat = Some demo_view)
    by (vm_compute; reflexivity).
  assert (Hf : _need_method_update demo_view = false)
    by (vm_compute; reflexivity).
  split; [exact Hv|]. split; [exact Hf|].
  split; [vm_compute; reflexivity|].
  destruct (method_change_does_not_reach_a_drawn_view 0%nat demo_drawn
              demo_view "impostor"
              (fst ((ImageVisual.method_setter "impostor" ;;
                     ImageVisual._prepare_draw 0) demo_drawn))
              (snd ((ImageVisual.method_setter "impostor" ;;
                     ImageVisual._prepare_draw 0) demo_drawn)) Hv Hf)
    as (H1 & H2 & _).
  - apply surjective_pairing.
  - split; assumption.
Defined.

Lemma new_view_is_configured_on_its_first_draw_witness :
  _data (vis demo_drawn) <> None /\
  exists w1,
    ImageVisual.view_ demo_drawn = (Ok 1%nat, w1) /\
    length (views w1) = 2%nat /\
    trace (snd (ImageVisual._prepare_draw 1 w1)) =
      (trace demo_drawn ++ [EvMethod 1])%list.
Proof.
  assert (Hd : _data (vis demo_drawn) <> None) by (vm_compute; discriminate).
  split; [exact Hd|].
  destruct (new_view_is_configured_on_its_first_draw demo_drawn Hd)
    as (w1 & H1 & _ & _ & _ & H5 & _ & _ & H8).
  - intros e He. vm_compute in He.
    destruct He as [<-|[<-|[<-|[<-|[]]]]]; vm_compute; reflexivity.
  - exists w1. split; [exact H1|]. split; [exact H5|].
    apply (H8 (fst (ImageVisual._prepare_draw 1 w1))). apply surjective_pairing.
Defined.

Lemma zero_grid_fails_every_draw_witness :
  _grid (vis gridless_world) = (0, 1)%nat /\
  _need_vertex_update (vis gridless_world) = true /\
  (exists e, fst (ImageVisual._prepare_draw 0 gridless_world) = Raise e) /\
  _need_vertex_update
    (vis (snd (ImageVisual._prepare_draw 0 gridless_world))) = true.
Proof.
  assert (Hg : _grid (vis gridless_world) = (0, 1)%nat)
    by (vm_compute; reflexivity).
  assert (Hf : _need_vertex_update (vis gridless_world) = true)
    by (vm_compute; reflexivity).
  split; [exact Hg|]. split; [exact Hf|].
  destruct (zero_grid_fails_every_draw 0%nat gridless_world
              (fst (ImageVisual._prepare_draw 0 gridless_world))
              (snd (ImageVisual._prepare_draw 0 gridless_world)))
    as (H1 & H2 & _).
  - vm_compute. eexists. reflexivity.
  - vm_compute. discriminate.
  - exact Hf.
  - left. rewrite Hg. reflexivity.
  - apply surjective_pairing.
  - split; assumption.
Defined.

Lemma bounds_follow_the_raster_shape_witness :
  ImageVisual._compute_bounds 0 demo_drawn = (Ok (0, 2)%nat, demo_drawn) /\
  ImageVisual._compute_bounds 1 demo_drawn = (Ok (0, 2)%nat, demo_drawn) /\
  ImageVisual._compute_bounds 2 empty_world =
    (Ok (0, 0)%nat, empty_world (V:=spec_float)).
Proof.
  destruct (bounds_follow_the_raster_shape demo_drawn) as (_ & H2 & _).
  destruct (H2 0%nat demo_image 2%nat 2%nat [])
    as (_ & Hx & Hy); [vm_compute; reflexivity..|].
  destruct (bounds_follow_the_raster_shape (empty_world (V:=spec_float)))
    as (H1 & _).
  split; [exact Hx|]. split; [exact Hy|]. apply H1. lia.
Defined.

Lemma constructor_rejects_unknown_interpolation_witness :
  str_in "cubic" (sort_strings (map str_lower spatial_filter_names)) = false /\
  exists w',
    ImageVisual.new spatial_filter_names (Some 0%nat) "auto" (1, 1)%nat viridis
      (ArgStr "auto") (SF_of_Z B64 1) "cubic" None demo_heap =
    (Raise (ValueError ("interpolation must be one of " ++
              str_join ", " (sort_strings (map str_lower spatial_filter_names)))),
     w') /\
    tex w' = tex demo_heap.
Proof.
  assert (Hi : str_in "cubic"
                 (sort_strings (map str_lower spatial_filter_names)) = false)
    by (vm_compute; reflexivity).
  split; [exact Hi|].
  destruct (constructor_rejects_unknown_interpolation spatial_filter_names
              (Some 0%nat) "auto" (1, 1)%nat viridis (ArgStr "auto")
              (SF_of_Z B64 1) "cubic" None demo_heap Hi)
    as (w' & H1 & H2 & _).
  exists w'. split; assumption.
Defined.

Lemma constructor_builds_the_catalogue_witness :
  exists f,
    assoc_get "lanczos" (_interpolation_fun (vis demo_world)) = Some f /\
    exists n, In n spatial_filter_names /\ str_lower n = "lanczos" /\
              fn_source f = _interpolation_template n.
Proof.
  destruct (constructor_builds_the_catalogue spatial_filter_names
              (Some 0%nat) "auto" (1, 1)%nat viridis (ArgStr "auto")
              (SF_of_Z B64 1) "nearest" None demo_heap (Ok tt) demo_world)
    as (_ & Hfun).
  - vm_compute. reflexivity.
  - destruct (Hfun "lanczos") as (f & Hf & _ & _ & Hk);
      [vm_compute; reflexivity|].
    exists f. split; [exact Hf|]. apply Hk; discriminate.
Defined.

Lemma constructor_leaves_everything_dirty_witness :
  a_leb (SF_of_Z B64 0) (a_of_Z B64 0) = true /\
  exists w',
    ImageVisual.new spatial_filter_names (Some 0%nat) "bogus" (1, 1)%nat viridis
      (ArgStr "auto") (SF_of_Z B64 0) "nearest" None demo_heap = (Ok tt, w') /\
    _gamma (vis w') = SF_of_Z B64 0 /\
    _method (vis w') = "bogus" /\
    update_requests (vis w') = 2%nat /\
    forall e, In e (draw_order 0) -> flag_of w' e = true.
Proof.
  split; [vm_compute; reflexivity|].
  exists (snd (ImageVisual.new spatial_filter_names (Some 0%nat) "bogus"
                 (1, 1)%nat viridis (ArgStr "auto") (SF_of_Z B64 0) "nearest"
                 None demo_heap)).
  assert (Hr : ImageVisual.new spatial_filter_names (Some 0%nat) "bogus"
                 (1, 1)%nat viridis (ArgStr "auto") (SF_of_Z B64 0) "nearest"
                 None demo_heap =
               (Ok tt,
                snd (ImageVisual.new spatial_filter_names (Some 0%nat) "bogus"
                       (1, 1)%nat viridis (ArgStr "auto") (SF_of_Z B64 0)
                       "nearest" None demo_heap)))
    by (vm_compute; reflexivity).
  split; [exact Hr|].
  destruct (constructor_leaves_everything_dirty _ _ _ _ _ _ _ _ _ _ _ Hr)
    as (H1 & _ & H3 & _ & H5 & H6 & _).
  repeat split; assumption.
Defined.

Lemma interpolation_step_witness :
  exists w',
    ImageVisual._build_interpolation demo_world = (Ok tt, w') /\
    tex_interpolation (tex w') = "nearest" /\
    frag_get_data (vis w') = Some "nearest".
Proof.
  destruct (interpolation_step demo_world) as (Hok & _).
  destruct (Hok (mkFunction _texture_lookup) 0%nat demo_image)
    as (w' & H1 & _ & _ & H4 & H5 & _); [vm_compute; reflexivity..|].
  exists w'. repeat split; assumption.
Defined.

Lemma demo_world_drawable : drawable 0%nat 0%nat demo_image demo_world.
Proof.
  assert (Hr : ImageVisual.new spatial_filter_names (Some 0%nat) "auto"
                 (1, 1)%nat viridis (ArgStr "auto") (SF_of_Z B64 1) "nearest"
                 None demo_heap = (Ok tt, demo_world))
    by (vm_compute; reflexivity).
  unfold drawable.
  split; [vm_compute; reflexivity|]. split; [vm_compute; reflexivity|].
  split; [vm_compute; reflexivity|].
  split; [exact (interpolation_ready_new _ _ _ _ _ _ _ _ _ _ _ Hr)|].
  split; [vm_compute; discriminate|]. split; [vm_compute; discriminate|].
  split; [vm_compute; discriminate|].
  split; [vm_compute; eexists; reflexivity|].
  split; [left; vm_compute; reflexivity|].
  left. split; [vm_compute; reflexivity|vm_compute; discriminate].
Qed.

Lemma cpu_draw_always_succeeds_witness :
  drawable 0%nat 0%nat demo_image demo_world /\
  exists w',
    ImageVisual._prepare_draw 0 demo_world = (Ok RetNone, w') /\
    trace w' = (trace demo_world ++ scheduled demo_world 0)%list.
Proof.
  split; [exact demo_world_drawable|].
  destruct (cpu_draw_always_succeeds 0%nat 0%nat demo_image 2 2 demo_world)
    as (w' & H1 & H2 & _).
  - left. reflexivity.
  - lia.
  - lia.
  - reflexivity.
  - exact demo_world_drawable.
  - exists w'. split; assumption.
Defined.

Lemma gpu_scaling_needs_a_format_string_witness :
  str_in "nearest" (sort_strings (map str_lower spatial_filter_names)) = true /\
  heap demo_heap !! 0%nat = Some demo_image /\
  nd_dtype demo_image = uint8 /\
  exists w',
    ImageVisual.new spatial_filter_names (Some 0%nat) "auto" (1, 1)%nat viridis
      (ArgStr "auto") (SF_of_Z B64 1) "nearest" (Some (FmtStr "auto"))
      demo_heap = (Raise descriptor_not_ordered, w') /\
    warnings w' = [].
Proof.
  assert (Hi : str_in "nearest"
                 (sort_strings (map str_lower spatial_filter_names)) = true)
    by (vm_compute; reflexivity).
  assert (Hl : heap demo_heap !! 0%nat = Some demo_image)
    by (vm_compute; reflexivity).
  split; [exact Hi|]. split; [exact Hl|]. split; [reflexivity|].
  destruct (gpu_scaling_needs_a_format_string spatial_filter_names
              (Some 0%nat) "auto" (1, 1)%nat viridis (ArgStr "auto")
              (SF_of_Z B64 1) "nearest" (FmtStr "auto") demo_heap Hi)
    as (w' & Hrun & Hw & _).
  - intros l Heq. assert (El : l = 0%nat) by congruence.
    rewrite El. eexists. exact Hl.
  - left. reflexivity.
  - exists w'. split; [exact Hrun|exact Hw].
Defined.


Lemma demo_drawn_drawable : drawable 0%nat 0%nat demo_image demo_drawn.
Proof.
  pose proof (_prepare_draw_ok 0%nat 0%nat demo_image 2 2 demo_world
                (or_introl eq_refl)) as Hok.
  destruct Hok as (w2 & H2 & Hdr);
    [lia|lia|reflexivity|exact demo_world_drawable|].
  assert (Heq : w2 = demo_drawn).
  { unfold demo_drawn. rewrite H2. reflexivity. }
  rewrite <- Heq. exact Hdr.
Qed.

Lemma auto_clim_after_a_draw_fails_halfway_witness :
  _data_limits (tex demo_drawn) = Some (SF_of_Z B32 10, SF_of_Z B32 50) /\
  _need_colortransform_update (vis demo_drawn) = false /\
  exists w1 w2 c0 c1,
    ImageVisual.clim_setter (ArgStr "auto") demo_drawn =
      (Raise (ValueError "too many values to unpack (expected 2)"), w1) /\
    _clim (tex w1) = Some ClimAuto /\
    ImageVisual._prepare_draw 0 w1 = (Ok RetNone, w2) /\
    _clim (tex w2) = Some (ClimPair c0 c1).
Proof.
  assert (Hlim : _data_limits (tex demo_drawn) =
                 Some (SF_of_Z B32 10, SF_of_Z B32 50))
    by (vm_compute; reflexivity).
  assert (Hct : _need_colortransform_update (vis demo_drawn) = false)
    by (vm_compute; reflexivity).
  split; [exact Hlim|]. split; [exact Hct|].
  destruct (auto_clim_after_a_draw_fails_halfway 0%nat 0%nat demo_image 2 2
              demo_drawn (SF_of_Z B32 10) (SF_of_Z B32 50))
    as (w1 & w2 & c0 & c1 & H1 & H2 & _ & _ & _ & H6 & H7).
  - left. reflexivity.
  - lia.
  - lia.
  - reflexivity.
  - exact demo_drawn_drawable.
  - exact Hlim.
  - exact Hct.
  - exists w1, w2, c0, c1. repeat split; assumption.
Defined.
